(** * Formula parser [parse.c]: a shallow embedding and its properties

    The C module keeps its parse state in module-wide variables and
    evaluates a formula by one recursive procedure, [ParseFormula], that
    reads an operand, reads an operator, and then applies operators for as
    long as the precedence comparison allows.

    The embedding follows the source function by function and keeps its
    names:
    - the module-wide variables are the fields of a record [state] that
      every function takes and returns;
    - a C [double] is a binary64 primitive float, with the comparisons and
      the arithmetic of IEEE 754;
    - a [char*] into the formula is the list of characters it still points
      at, the terminating NUL included, so that [*p] is the head of the
      list and [p++] its tail;
    - the two parallel arrays of the symbol table are one list of pairs,
      whose length is [NumberOfVariables_m];
    - [int] values are in [Z] (the parenthesis level cannot overflow on a
      formula that fits in memory);
    - the functions of [<math.h>] and [calloc] are parameters, gathered in
      a record [clib];
    - the recursion of [ParseFormula] is bounded by a budget that
      [evalform] sets from the length of the formula; [evalform_total]
      shows that the budget is never used up.

    The block under [#ifdef TEST] and the wrappers around [evalform]
    ([_strhed], [dblstrf], [intstrf], [lngstrf], [listvar], [parsemsg])
    are not embedded. *)

From Stdlib Require Import ZArith Floats List Ascii String Bool Lia.
Import ListNotations.

Open Scope Z_scope.

(** ** Defines *)

Definition MAXNUMBERVAR : nat := 128.
Definition MAXTOKENLENGTH : nat := 32.
Definition NOTFOUND : Z := -1.
Definition NOROOM : Z := -2.
Definition NOHEAP : Z := -3.
Definition DEFAULT_RETURN : float := 0%float.

Arguments MAXNUMBERVAR : simpl never.
Arguments MAXTOKENLENGTH : simpl never.

(** [M_E] and [M_PI]: the binary64 values nearest to
    2.7182818284590452354 and 3.1415926535897931160. *)
Definition M_E : float := 0x1.5bf0a8b145769p+1%float.
Definition M_PI : float := 0x1.921fb54442d18p+1%float.

(** ** Type definitions *)

(** Operators, in order from lowest to highest precedence. *)
Inductive operator_t : Set :=
| OP_EndLine
| OP_BeginLine
| OP_CloseParenthesis
| OP_OpenParenthesis
| OP_Assignment
| OP_Add
| OP_Subtract
| OP_Multiply
| OP_Divide
| OP_RaisePower.

(** The integer value of an enumerator; C compares operators by it. *)
Definition operator_rank (o : operator_t) : Z :=
  match o with
  | OP_EndLine => 0
  | OP_BeginLine => 1
  | OP_CloseParenthesis => 2
  | OP_OpenParenthesis => 3
  | OP_Assignment => 4
  | OP_Add => 5
  | OP_Subtract => 6
  | OP_Multiply => 7
  | OP_Divide => 8
  | OP_RaisePower => 9
  end.

Inductive function_t : Set :=
| FUNC_err
| FUNC_sin
| FUNC_cos
| FUNC_tan
| FUNC_exp
| FUNC_log
| FUNC_log10
| FUNC_fabs
| FUNC_acos
| FUNC_asin
| FUNC_atan
| FUNC_sqrt
| FUNC_int.

Inductive errorcode_t : Set :=
| ERROR_none
| ERROR_operand
| ERROR_openparen
| ERROR_closeparen
| ERROR_operator
| ERROR_division
| ERROR_function
| ERROR_variable_expected
| ERROR_variable_full
| ERROR_variable_long
| ERROR_heap_full
| ERROR_parameter.

(** The value [evalform] writes to [*ErrorResult]. *)
Definition errorcode_value (e : errorcode_t) : Z :=
  match e with
  | ERROR_none => 0
  | ERROR_operand => 1
  | ERROR_openparen => 2
  | ERROR_closeparen => 3
  | ERROR_operator => 4
  | ERROR_division => 5
  | ERROR_function => 6
  | ERROR_variable_expected => 7
  | ERROR_variable_full => 8
  | ERROR_variable_long => 9
  | ERROR_heap_full => 10
  | ERROR_parameter => 11
  end.

Definition operator_eqb (a b : operator_t) : bool :=
  operator_rank a =? operator_rank b.

Definition errorcode_eqb (a b : errorcode_t) : bool :=
  errorcode_value a =? errorcode_value b.

Definition function_eq_dec (a b : function_t) : {a = b} + {a <> b}.
Proof. decide equality. Defined.

(** ** The C library

    The mathematical functions of [<math.h>] and the allocator are not
    part of the module.  They are taken as parameters: nothing is assumed
    about the values the mathematical functions return, and [calloc_ok n]
    tells whether a request for [n] bytes succeeds. *)
Record clib : Type := mkClib {
  c_sin : float -> float;
  c_cos : float -> float;
  c_tan : float -> float;
  c_exp : float -> float;
  c_log : float -> float;
  c_log10 : float -> float;
  c_fabs : float -> float;
  c_acos : float -> float;
  c_asin : float -> float;
  c_atan : float -> float;
  c_sqrt : float -> float;
  c_ceil : float -> float;
  c_floor : float -> float;
  c_pow : float -> float -> float;
  calloc_ok : nat -> bool
}.

(** ** Characters *)

Definition NUL : ascii := Ascii.zero.

Definition char_code (c : ascii) : Z := Z.of_N (N_of_ascii c).

Definition in_range (lo hi : ascii) (c : ascii) : bool :=
  (char_code lo <=? char_code c) && (char_code c <=? char_code hi).

Definition is_upper (c : ascii) : bool := in_range "A" "Z" c.
Definition is_lower (c : ascii) : bool := in_range "a" "z" c.
Definition isdigit (c : ascii) : bool := in_range "0" "9" c.
Definition isalnum (c : ascii) : bool := is_upper c || is_lower c || isdigit c.

Definition toupper (c : ascii) : ascii :=
  if is_lower c then ascii_of_N (N_of_ascii c - 32) else c.

(** A C string in memory: its characters followed by the terminator. *)
Definition cstring (s : string) : list ascii := list_ascii_of_string s ++ [NUL].

(** [*p] for a pointer [p] into the formula. *)
Definition deref (p : list ascii) : ascii := hd NUL p.

(** ** [strtod] *)

(** Nearest binary64 value to [m * 10 ^ e10], for [0 <= m]. *)
Definition decimal_to_double (m e10 : Z) : float :=
  if m =? 0 then 0%float
  else if 0 <=? e10 then
    SF2Prim (binary_normalize prec emax (m * 10 ^ e10) 0 false)
  else
    SF2Prim (SFdiv prec emax (S754_finite false (Z.to_pos m) 0)
                             (S754_finite false (Z.to_pos (10 ^ (- e10))) 0)).

Fixpoint span_digits (p : list ascii) : list ascii * list ascii :=
  match p with
  | c :: p' =>
      if isdigit c then let (ds, r) := span_digits p' in (c :: ds, r)
      else ([], p)
  | [] => ([], [])
  end.

Definition digit_value (c : ascii) : Z := char_code c - char_code "0".

Definition digits_value (ds : list ascii) : Z :=
  fold_left (fun acc c => 10 * acc + digit_value c) ds 0.

(** The exponent part [e|E [+|-] digits]; when it is malformed nothing of
    it is consumed. *)
Definition scan_exponent (p : list ascii) : Z * list ascii :=
  match p with
  | c :: p1 =>
      if Ascii.eqb c "e" || Ascii.eqb c "E" then
        let '(neg, p2) :=
          match p1 with
          | s :: p1' =>
              if Ascii.eqb s "-" then (true, p1')
              else if Ascii.eqb s "+" then (false, p1')
              else (false, p1)
          | [] => (false, p1)
          end in
        let (ds, p3) := span_digits p2 in
        match ds with
        | [] => (0, p)
        | _ => ((if neg then - digits_value ds else digits_value ds), p3)
        end
      else (0, p)
  | [] => (0, p)
  end.

(** Modelled from the spec: [strtod] of the C library, which the module
    calls but does not define.  The spec gives the literal syntax: integer
    part, optional fractional part, optional exponent (the sign has been
    consumed by the caller, and the caller only calls it on a digit or a
    period).  The result is the converted value and the pointer past the
    literal; when no digit is found there is no conversion: the value is 0
    and the pointer is the one given.  Hexadecimal literals of later C
    standards are not covered: on [0x10] a C99 library reads 16, where
    this definition stops after the [0]; a statement about what follows a
    literal leaves that case out by [hexadecimal_prefix]. *)
Definition strtod (p : list ascii) : float * list ascii :=
  let (ip, p1) := span_digits p in
  let (fp, p2) :=
    match p1 with
    | c :: p1' => if Ascii.eqb c "." then span_digits p1' else ([], p1)
    | [] => ([], p1)
    end in
  match ip ++ fp with
  | [] => (0%float, p)
  | ds =>
      let (ex, p3) := scan_exponent p2 in
      (decimal_to_double (digits_value ds) (ex - Z.of_nat (List.length fp)), p3)
  end.

(** ** Module-wide variables

    [Variables_m] holds the first [NumberOfVariables_m] slots of the two
    parallel arrays [VariableNames_m] and [VariableValues_m];
    [FormulaString_m] is what the cursor points at. *)
Record state : Type := mkState {
  Variables_m : list (string * float);
  FormulaString_m : list ascii;
  TokenString_m : string;
  DivisorValue_m : float;
  ParenthesisLevel_m : Z;
  ErrorCode_m : errorcode_t
}.

Definition NumberOfVariables_m (st : state) : nat := List.length (Variables_m st).

Definition set_Variables (T : list (string * float)) (st : state) : state :=
  mkState T (FormulaString_m st) (TokenString_m st) (DivisorValue_m st)
          (ParenthesisLevel_m st) (ErrorCode_m st).

Definition set_FormulaString (p : list ascii) (st : state) : state :=
  mkState (Variables_m st) p (TokenString_m st) (DivisorValue_m st)
          (ParenthesisLevel_m st) (ErrorCode_m st).

Definition set_TokenString (t : string) (st : state) : state :=
  mkState (Variables_m st) (FormulaString_m st) t (DivisorValue_m st)
          (ParenthesisLevel_m st) (ErrorCode_m st).

Definition set_DivisorValue (d : float) (st : state) : state :=
  mkState (Variables_m st) (FormulaString_m st) (TokenString_m st) d
          (ParenthesisLevel_m st) (ErrorCode_m st).

Definition set_ParenthesisLevel (n : Z) (st : state) : state :=
  mkState (Variables_m st) (FormulaString_m st) (TokenString_m st)
          (DivisorValue_m st) n (ErrorCode_m st).

Definition set_ErrorCode (e : errorcode_t) (st : state) : state :=
  mkState (Variables_m st) (FormulaString_m st) (TokenString_m st)
          (DivisorValue_m st) (ParenthesisLevel_m st) e.

(** The module as loaded: no variables, statics zeroed. *)
Definition initial_state : state :=
  mkState [] [] EmptyString 0%float 0 ERROR_none.

(** [FormulaString_m++] *)
Definition advance (st : state) : state :=
  set_FormulaString (tl (FormulaString_m st)) st.

(** ** Outcomes of a call

    A call returns, or the process exits, or (in the model only) the
    recursion budget is used up. *)
Inductive outcome (A : Type) : Type :=
| Done (a : A)
| Exited (status : Z)
| OutOfFuel.

Arguments Done {A} a.
Arguments Exited {A} status.
Arguments OutOfFuel {A}.

Definition bind {A B : Type} (c : outcome A) (k : A -> outcome B) : outcome B :=
  match c with
  | Done a => k a
  | Exited s => Exited s
  | OutOfFuel => OutOfFuel
  end.

Notation "x <- c ;; k" := (bind c (fun x => k))
  (at level 61, c at next level, right associativity).
Notation "' pat <- c ;; k" := (bind c (fun x => match x with pat => k end))
  (at level 61, pat pattern, c at next level, right associativity).

(** ** Symbol table *)

Fixpoint find_variable (T : list (string * float)) (TestName : string)
         (VariableID : Z) : Z :=
  match T with
  | [] => NOTFOUND
  | (name, _) :: T' =>
      if String.eqb name TestName then VariableID
      else find_variable T' TestName (VariableID + 1)
  end.

(** Return variable index corresponding to variable name. *)
Definition GetVariableID (T : list (string * float)) (TestName : string) : Z :=
  find_variable T TestName 0.

(** [VariableValues_m [VariableID] = NewValue], for an index in use. *)
Fixpoint store_value (T : list (string * float)) (VariableID : nat)
         (NewValue : float) : list (string * float) :=
  match T, VariableID with
  | [], _ => []
  | (name, _) :: T', O => (name, NewValue) :: T'
  | e :: T', S i => e :: store_value T' i NewValue
  end.

(** [VariableValues_m [VariableID]], for an index in use. *)
Definition load_value (T : list (string * float)) (VariableID : nat) : float :=
  snd (nth VariableID T (EmptyString, 0%float)).

Section WithLibrary.

Variable libc : clib.

(** Assign value to stored variable name or create new variable.  Returns
    the variable id, or [NOROOM], or [NOHEAP]. *)
Definition AssignVariable (NewName : string) (NewValue : float)
           (T : list (string * float)) : Z * list (string * float) :=
  let VariableID := GetVariableID T NewName in
  if VariableID =? NOTFOUND then
    if (MAXNUMBERVAR <=? List.length T)%nat then (NOROOM, T)
    else if negb (calloc_ok libc (String.length NewName + 1)) then (NOHEAP, T)
    else (Z.of_nat (List.length T), T ++ [(NewName, NewValue)])
  else (VariableID, store_value T (Z.to_nat VariableID) NewValue).

(** ** Function registry *)

Definition LookupFunction (FunctionName : string) : function_t :=
  if String.eqb FunctionName "SIN" then FUNC_sin
  else if String.eqb FunctionName "COS" then FUNC_cos
  else if String.eqb FunctionName "TAN" then FUNC_tan
  else if String.eqb FunctionName "EXP" then FUNC_exp
  else if String.eqb FunctionName "LOG" then FUNC_log
  else if String.eqb FunctionName "LOG10" then FUNC_log10
  else if String.eqb FunctionName "ACOS" then FUNC_acos
  else if String.eqb FunctionName "ASIN" then FUNC_asin
  else if String.eqb FunctionName "ATAN" then FUNC_atan
  else if String.eqb FunctionName "ABS" then FUNC_fabs
  else if String.eqb FunctionName "SQRT" then FUNC_sqrt
  else if String.eqb FunctionName "INT" then FUNC_int
  else FUNC_err.

(** The first [switch]: check argument ranges. *)
Definition argument_ok (InputFunction : function_t) (x : float) : bool :=
  match InputFunction with
  | FUNC_log | FUNC_log10 | FUNC_sqrt =>
      if PrimFloat.leb x 0 then false else true
  | FUNC_acos | FUNC_asin =>
      if PrimFloat.ltb x (-1) || PrimFloat.leb 1 x then false else true
  | _ => true
  end.

Definition EvaluateFunction (InputFunction : function_t) (x : float)
           (st : state) : outcome (float * state) :=
  if negb (argument_ok InputFunction x) then
    Done (DEFAULT_RETURN, set_ErrorCode ERROR_parameter st)
  else
    match InputFunction with
    | FUNC_sin => Done (c_sin libc x, st)
    | FUNC_cos => Done (c_cos libc x, st)
    | FUNC_tan => Done (c_tan libc x, st)
    | FUNC_exp => Done (c_exp libc x, st)
    | FUNC_log => Done (c_log libc x, st)
    | FUNC_log10 => Done (c_log10 libc x, st)
    | FUNC_fabs => Done (c_fabs libc x, st)
    | FUNC_acos => Done (c_acos libc x, st)
    | FUNC_asin => Done (c_asin libc x, st)
    | FUNC_atan => Done (c_atan libc x, st)
    | FUNC_sqrt => Done (c_sqrt libc x, st)
    | FUNC_int =>
        if PrimFloat.ltb x 0 then Done (c_ceil libc x, st)
        else Done (c_floor libc x, st)
    | FUNC_err => Exited 1
    end.

End WithLibrary.

(** ** Lexer primitives *)

Definition is_space (c : ascii) : bool :=
  Ascii.eqb c " " || (char_code c =? 9) || (char_code c =? 10)
  || (char_code c =? 13).

Fixpoint SkipWhiteSpace (f : list ascii) : list ascii :=
  match f with
  | c :: f' => if is_space c then SkipWhiteSpace f' else f
  | [] => []
  end.

(** The [while] loop of [GetNextTokenLength]: letters, numbers or
    underscores. *)
Fixpoint count_name_chars (cptr : list ascii) : nat :=
  match cptr with
  | c :: cptr' =>
      if isalnum c || Ascii.eqb c "_" then S (count_name_chars cptr') else O
  | [] => O
  end.

Definition GetNextTokenLength (cptr : list ascii) : nat :=
  let c := deref cptr in
  if negb (is_upper c || is_lower c || Ascii.eqb c "%") then O
  else S (count_name_chars (tl cptr)).

Fixpoint CopyUppercaseString (SourceString : list ascii) (Size : nat) : string :=
  match Size with
  | O => EmptyString
  | S n => String (toupper (deref SourceString))
                  (CopyUppercaseString (tl SourceString) n)
  end.

(** ** The parser *)

(** How the value phase of [ParseFormula] ends: with an operand (and the
    variable it came from, or [NOTFOUND]), or with [return DEFAULT_RETURN]. *)
Inductive parsed_value : Type :=
| Operand (CurrentValue : float) (VariableID : Z) (st : state)
| EarlyReturn (st : state).

(** The [switch] that reads an operator; [None] is its [default]. *)
Definition GetOperator (c : ascii) : option operator_t :=
  if Ascii.eqb c "+" then Some OP_Add
  else if Ascii.eqb c "-" then Some OP_Subtract
  else if Ascii.eqb c "*" then Some OP_Multiply
  else if Ascii.eqb c "/" then Some OP_Divide
  else if Ascii.eqb c "^" then Some OP_RaisePower
  else if Ascii.eqb c ")" then Some OP_CloseParenthesis
  else if Ascii.eqb c "=" then Some OP_Assignment
  else if Ascii.eqb c NUL then Some OP_EndLine
  else None.

(** Criteria for applying an operator: repeating assignment operators are
    evaluated right to left, the others from left to right. *)
Definition ApplyCriterion (CurrentOperator PendingOperator : operator_t) : bool :=
  if operator_eqb CurrentOperator OP_Assignment then
    operator_rank PendingOperator <=? operator_rank CurrentOperator
  else
    operator_rank PendingOperator <? operator_rank CurrentOperator.

(** The body of [case OP_Divide], once the divisor is known. *)
Definition ApplyDivide (CurrentValue : float) (Divisor : float) (st : state)
  : float * state :=
  let st1 := set_DivisorValue Divisor st in
  if PrimFloat.eqb (DivisorValue_m st1) 0 then
    (0%float, set_ErrorCode ERROR_division st1)
  else ((CurrentValue / DivisorValue_m st1)%float, st1).

Section Parser.

Variable libc : clib.

(** The recursive call, [ParseFormula (&CurrentOperator)]: it is given the
    operator the caller holds, and returns the value, what it left in
    [CurrentOperator], and the new state. *)
Variable recurse : operator_t -> state -> outcome (float * operator_t * state).

(** A parenthetical expression, the cursor being on its ['(']. *)
Definition ParseParenthetical (st : state) : outcome parsed_value :=
  let st1 := advance st in
  let st2 := set_ParenthesisLevel (ParenthesisLevel_m st1 + 1) st1 in
  '(CurrentValue, CurrentOperator, st3) <- recurse OP_OpenParenthesis st2 ;;
  if negb (errorcode_eqb (ErrorCode_m st3) ERROR_none) then
    Done (EarlyReturn st3)
  else if negb (operator_eqb CurrentOperator OP_CloseParenthesis) then
    Done (EarlyReturn (set_ErrorCode ERROR_openparen st3))
  else Done (Operand CurrentValue NOTFOUND st3).

(** A name: special constant, function or variable. *)
Definition ParseName (st : state) : outcome parsed_value :=
  let TokenLength := GetNextTokenLength (FormulaString_m st) in
  if (TokenLength =? 0)%nat then
    Done (EarlyReturn (set_ErrorCode ERROR_operand st))
  else if (MAXTOKENLENGTH <=? TokenLength)%nat then
    Done (EarlyReturn (set_ErrorCode ERROR_variable_long st))
  else
    let st1 :=
      set_TokenString (CopyUppercaseString (FormulaString_m st) TokenLength) st in
    let st2 := set_FormulaString (skipn TokenLength (FormulaString_m st1)) st1 in
    if String.eqb (TokenString_m st2) "%E" then Done (Operand M_E NOTFOUND st2)
    else if String.eqb (TokenString_m st2) "%PI" then
      Done (Operand M_PI NOTFOUND st2)
    else
      let CurrentFunction := LookupFunction (TokenString_m st2) in
      if function_eq_dec CurrentFunction FUNC_err then
        let VariableID := GetVariableID (Variables_m st2) (TokenString_m st2) in
        if VariableID =? NOTFOUND then
          let (VariableID, T) :=
            AssignVariable libc (TokenString_m st2) 0%float (Variables_m st2) in
          let st3 := set_Variables T st2 in
          if VariableID =? NOROOM then
            Done (EarlyReturn (set_ErrorCode ERROR_variable_full st3))
          else if VariableID =? NOHEAP then
            Done (EarlyReturn (set_ErrorCode ERROR_heap_full st3))
          else
            Done (Operand (load_value (Variables_m st3) (Z.to_nat VariableID))
                          VariableID st3)
        else
          Done (Operand (load_value (Variables_m st2) (Z.to_nat VariableID))
                        VariableID st2)
      else
        let st3 := set_FormulaString (SkipWhiteSpace (FormulaString_m st2)) st2 in
        if Ascii.eqb (deref (FormulaString_m st3)) "(" then
          r <- ParseParenthetical st3 ;;
          match r with
          | EarlyReturn st4 => Done (EarlyReturn st4)
          | Operand CurrentValue _ st4 =>
              '(CurrentValue, st5) <-
                 EvaluateFunction libc CurrentFunction CurrentValue st4 ;;
              if negb (errorcode_eqb (ErrorCode_m st5) ERROR_none) then
                Done (EarlyReturn st5)
              else Done (Operand CurrentValue NOTFOUND st5)
          end
        else Done (EarlyReturn (set_ErrorCode ERROR_operand st3)).

(** The value phase, the unary sign included. *)
Definition ParseValue (st : state) : outcome parsed_value :=
  let st1 := set_FormulaString (SkipWhiteSpace (FormulaString_m st)) st in
  let MinusSignPresent := Ascii.eqb (deref (FormulaString_m st1)) "-" in
  let st2 :=
    if MinusSignPresent then advance st1
    else if Ascii.eqb (deref (FormulaString_m st1)) "+" then advance st1
    else st1 in
  let c := deref (FormulaString_m st2) in
  r <- (if Ascii.eqb c "(" then ParseParenthetical st2
        else if isdigit c || Ascii.eqb c "." then
          let (CurrentValue, f) := strtod (FormulaString_m st2) in
          Done (Operand CurrentValue NOTFOUND (set_FormulaString f st2))
        else ParseName st2) ;;
  match r with
  | EarlyReturn st3 => Done (EarlyReturn st3)
  | Operand CurrentValue VariableID st3 =>
      Done (Operand (if MinusSignPresent then (- CurrentValue)%float
                     else CurrentValue) VariableID st3)
  end.

(** The [while (ApplyOperator)] loop; [n] bounds its iterations. *)
Fixpoint ApplyLoop (n : nat) (PendingOperator CurrentOperator : operator_t)
         (CurrentValue : float) (VariableID : Z) (st : state)
  : outcome (float * operator_t * state) :=
  match n with
  | O => OutOfFuel
  | S n' =>
      let ApplyOperator :=
        if errorcode_eqb (ErrorCode_m st) ERROR_none then
          ApplyCriterion CurrentOperator PendingOperator
        else false in
      if ApplyOperator then
        match CurrentOperator with
        | OP_Add =>
            '(v, op, st1) <- recurse CurrentOperator st ;;
            ApplyLoop n' PendingOperator op (CurrentValue + v)%float VariableID st1
        | OP_Subtract =>
            '(v, op, st1) <- recurse CurrentOperator st ;;
            ApplyLoop n' PendingOperator op (CurrentValue - v)%float VariableID st1
        | OP_Multiply =>
            '(v, op, st1) <- recurse CurrentOperator st ;;
            ApplyLoop n' PendingOperator op (CurrentValue * v)%float VariableID st1
        | OP_Divide =>
            '(v, op, st1) <- recurse CurrentOperator st ;;
            let (q, st2) := ApplyDivide CurrentValue v st1 in
            ApplyLoop n' PendingOperator op q VariableID st2
        | OP_RaisePower =>
            '(v, op, st1) <- recurse CurrentOperator st ;;
            ApplyLoop n' PendingOperator op (c_pow libc CurrentValue v)
                      VariableID st1
        | OP_CloseParenthesis =>
            let st1 := set_ParenthesisLevel (ParenthesisLevel_m st - 1) st in
            let st2 :=
              if ParenthesisLevel_m st1 <? 0
              then set_ErrorCode ERROR_closeparen st1 else st1 in
            ApplyLoop n' PendingOperator CurrentOperator CurrentValue
                      VariableID st2
        | OP_Assignment =>
            if VariableID =? NOTFOUND then
              Done (DEFAULT_RETURN, PendingOperator,
                    set_ErrorCode ERROR_variable_expected st)
            else
              '(v, op, st1) <- recurse CurrentOperator st ;;
              ApplyLoop n' PendingOperator op v VariableID
                (set_Variables
                   (store_value (Variables_m st1) (Z.to_nat VariableID) v) st1)
        | _ =>
            ApplyLoop n' PendingOperator CurrentOperator CurrentValue
                      VariableID st
        end
      else Done (CurrentValue, CurrentOperator, st)
  end.

(** One activation of [ParseFormula]: value, operator, loop. *)
Definition ParseBody (n : nat) (PendingOperator : operator_t) (st : state)
  : outcome (float * operator_t * state) :=
  r <- ParseValue st ;;
  match r with
  | EarlyReturn st1 => Done (DEFAULT_RETURN, PendingOperator, st1)
  | Operand CurrentValue VariableID st1 =>
      let st2 := set_FormulaString (SkipWhiteSpace (FormulaString_m st1)) st1 in
      match GetOperator (deref (FormulaString_m st2)) with
      | None =>
          Done (DEFAULT_RETURN, PendingOperator, set_ErrorCode ERROR_operator st2)
      | Some CurrentOperator =>
          ApplyLoop n PendingOperator CurrentOperator CurrentValue VariableID
                    (advance st2)
      end
  end.

End Parser.

(** [ParseFormula], with a budget of nested activations. *)
Fixpoint ParseFormula (libc : clib) (fuel : nat) (PendingOperator : operator_t)
         (st : state) : outcome (float * operator_t * state) :=
  match fuel with
  | O => OutOfFuel
  | S k => ParseBody libc (ParseFormula libc k) k PendingOperator st
  end.

(** The budget [evalform] gives: twice the formula and a little more. *)
Definition enough_fuel (f : list ascii) : nat := (2 * List.length f + 4)%nat.

(** [evalform (&f, &ErrorResult)]: the value returned and the state left;
    [*ErrorResult] is [ErrorCode_m] of that state and [*f] its
    [FormulaString_m]. *)
Definition evalform (libc : clib) (f : list ascii) (st : state)
  : outcome (float * state) :=
  let st1 := set_ErrorCode ERROR_none st in
  let st2 := set_ParenthesisLevel 0 st1 in
  let st3 := set_FormulaString f st2 in
  '(ValueResult, _, st4) <- ParseFormula libc (enough_fuel f) OP_BeginLine st3 ;;
  Done (ValueResult, st4).

(** A library to run examples with.  It computes what binary64 itself
    provides: absolute value, square root, and powers with a natural
    exponent by repeated multiplication; its allocator never fails.  The
    functions it does not compute answer NaN; no statement below depends
    on them. *)
Fixpoint pow_nat (x : float) (n : nat) : float :=
  match n with
  | O => 1%float
  | S n' => (x * pow_nat x n')%float
  end.

Definition sample_pow (x y : float) : float :=
  match Prim2SF y with
  | S754_zero _ => 1%float
  | S754_finite false m e =>
      if 0 <=? e then pow_nat x (Z.to_nat (Z.pos m * 2 ^ e))
      else if (Z.pos m) mod (2 ^ (- e)) =? 0
           then pow_nat x (Z.to_nat (Z.pos m / 2 ^ (- e)))
           else nan
  | _ => nan
  end.

Definition not_computed (x : float) : float := nan.

Definition sample_clib : clib :=
  mkClib not_computed not_computed not_computed not_computed not_computed
         not_computed PrimFloat.abs not_computed not_computed not_computed
         PrimFloat.sqrt not_computed not_computed sample_pow (fun _ => true).

(** ** Relating the state before a call to the state after it *)

(** [q] points into the string [p] points at, at or after [p]. *)
Definition is_suffix (q p : list ascii) : Prop := exists pre, p = pre ++ q.

(** Every NUL of [p] is its last character. *)
Definition nul_last (p : list ascii) : Prop :=
  forall pre post, p = pre ++ NUL :: post -> post = [].

Definition name_fits (e : string * float) : Prop :=
  (String.length (fst e) < MAXTOKENLENGTH)%nat.

(** The table is within its capacity and its names fit the token buffer. *)
Definition table_ok (T : list (string * float)) : Prop :=
  (List.length T <= MAXNUMBERVAR)%nat /\ Forall name_fits T.

(** Characters left, and characters left plus parentheses opened. *)
Definition remaining (st : state) : Z := Z.of_nat (List.length (FormulaString_m st)).
Definition budget (st : state) : Z := ParenthesisLevel_m st + remaining st.

(** What every piece of the parser guarantees between its entry state
    [st] and its exit state [st']. *)
Record evolves (st st' : state) : Prop := mkEvolves {
  ev_cursor : is_suffix (FormulaString_m st') (FormulaString_m st);
  ev_budget : budget st' <= budget st;
  ev_error : ErrorCode_m st' = ERROR_function -> ErrorCode_m st = ERROR_function;
  ev_table : table_ok (Variables_m st) -> table_ok (Variables_m st');
  ev_names : exists new,
      map fst (Variables_m st') = map fst (Variables_m st) ++ new
}.

(** What one activation of [ParseFormula] guarantees. *)
Definition frame_post (st : state) (r : float * operator_t * state) : Prop :=
  let '(_, op, st') := r in
  evolves st st' /\
  (ErrorCode_m st' = ERROR_none ->
     (exists c, GetOperator c = Some op) /\
     (op <> OP_EndLine -> remaining st' < remaining st) /\
     (op = OP_EndLine -> nul_last (FormulaString_m st) ->
      FormulaString_m st' = [])).

(** What a call [ParseFormula (&PendingOperator)] guarantees: moreover it
    returns without error only when the operator it read is not to be
    applied over the pending one. *)
Definition call_post (PendingOperator : operator_t) (st : state)
           (r : float * operator_t * state) : Prop :=
  frame_post st r /\
  (ErrorCode_m (snd r) = ERROR_none ->
   ApplyCriterion (snd (fst r)) PendingOperator = false).

(** No character of [s] is NUL. *)
Definition no_nul (s : string) : bool :=
  forallb (fun c => negb (Ascii.eqb c NUL)) (list_ascii_of_string s).

Definition value_post (st : state) (r : parsed_value) : Prop :=
  match r with
  | Operand _ _ st' => evolves st st'
  | EarlyReturn st' => evolves st st' /\ ErrorCode_m st' <> ERROR_none
  end.

(** The call returns, with a result that satisfies [Q]. *)
Definition returns {A : Type} (c : outcome A) (Q : A -> Prop) : Prop :=
  exists a, c = Done a /\ Q a.

(** The budget an activation needs in the state it starts from. *)
Definition fuel_needed (st : state) : Z :=
  remaining st + Z.max 0 (budget st) + 4.

(** When [n] iterations are enough for the loop of an activation whose
    recursive calls have budget [k]. *)
Definition loop_ready (k n : nat) (CurrentOperator : operator_t) (st : state)
  : Prop :=
  ((1 <= n)%nat /\
   (ErrorCode_m st <> ERROR_none \/ CurrentOperator = OP_EndLine))
  \/ (CurrentOperator = OP_CloseParenthesis /\
      Z.max 0 (ParenthesisLevel_m st + 1) + 2 <= Z.of_nat n)
  \/ (CurrentOperator <> OP_CloseParenthesis /\
      fuel_needed st <= Z.of_nat k /\
      remaining st + Z.max 0 (budget st) + 3 <= Z.of_nat n).

(** The state [evalform] hands to [ParseFormula]. *)
Definition entry_state (f : list ascii) (st : state) : state :=
  set_FormulaString f (set_ParenthesisLevel 0 (set_ErrorCode ERROR_none st)).

(** Where the first operand of a formula starts: past the opening white
    space and one sign, as [ParseFormula] skips them. *)
Definition operand_start (f : list ascii) : list ascii :=
  let f1 := SkipWhiteSpace f in
  if Ascii.eqb (deref f1) "-" then tl f1
  else if Ascii.eqb (deref f1) "+" then tl f1
  else f1.

(** The name token the first operand starts with, as [TokenString_m]
    receives it. *)
Definition leading_token (f : list ascii) : string :=
  CopyUppercaseString (operand_start f) (GetNextTokenLength (operand_start f)).

(** A formula made of white space only. *)
Definition blank (ws : list ascii) : Prop := forallb is_space ws = true.

(** The library [libc] with another allocator. *)
Definition with_calloc (ok : nat -> bool) (libc : clib) : clib :=
  mkClib (c_sin libc) (c_cos libc) (c_tan libc) (c_exp libc) (c_log libc)
         (c_log10 libc) (c_fabs libc) (c_acos libc) (c_asin libc)
         (c_atan libc) (c_sqrt libc) (c_ceil libc) (c_floor libc)
         (c_pow libc) ok.

(** The library [libc] with an allocator that never fails. *)
Definition reliable (libc : clib) : clib := with_calloc (fun _ => true) libc.

(** Two-letter names AA, AB, ..., one for each index below 256. *)
Definition variable_name (i : nat) : string :=
  String (ascii_of_nat (65 + i / 16))
         (String (ascii_of_nat (65 + i mod 16)) EmptyString).

(** The state after evaluating, one formula each, the first [n] names. *)
Fixpoint create_variables (libc : clib) (n : nat) (st : state) : state :=
  match n with
  | O => st
  | S n' =>
      let st1 := create_variables libc n' st in
      match evalform libc (cstring (variable_name n')) st1 with
      | Done (_, st2) => st2
      | _ => st1
      end
  end.

(** A name of 31 characters and a name of 32. *)
Definition name31 : string := "aaaaaaaaaabbbbbbbbbbccccccccccd".
Definition name32 : string := "aaaaaaaaaabbbbbbbbbbccccccccccdd".

(** The out-of-range condition of [EvaluateFunction], in words of the
    comparisons of binary64. *)
Definition out_of_range (fn : function_t) (x : float) : Prop :=
  ((fn = FUNC_log \/ fn = FUNC_log10 \/ fn = FUNC_sqrt) /\
   PrimFloat.leb x 0 = true)
  \/ ((fn = FUNC_acos \/ fn = FUNC_asin) /\
      (PrimFloat.ltb x (-1) = true \/ PrimFloat.leb 1 x = true)).

(** The table once [name] has been referred to: the name is appended
    with value 0 when it is new. *)
Definition ensure_variable (T : list (string * float)) (name : string)
  : list (string * float) :=
  if GetVariableID T name =? NOTFOUND then T ++ [(name, 0%float)] else T.

(** The value the table holds for [name], if any. *)
Definition lookup_value (T : list (string * float)) (name : string)
  : option float :=
  let VariableID := GetVariableID T name in
  if VariableID =? NOTFOUND then None
  else Some (load_value T (Z.to_nat VariableID)).

(** ** The exported accessors *)

(** What [listvar] gives back: [NULL], or a name with its value stored
    through [val].  The source compares the index with the number of
    variables only, so a negative index reads before the first slot of the
    two arrays; the embedding keeps that case apart. *)
Inductive listvar_result : Type :=
| NoVariable
| VariableEntry (name : string) (val : float)
| BeforeTheArrays.

Definition listvar (VariableID : Z) (st : state) : listvar_result :=
  if Z.of_nat (NumberOfVariables_m st) <=? VariableID then NoVariable
  else if VariableID <? 0 then BeforeTheArrays
  else
    let e := nth (Z.to_nat VariableID) (Variables_m st) (EmptyString, 0%float) in
    VariableEntry (fst e) (snd e).

Definition parsemsg (InputErrorCode : Z) : string :=
  match InputErrorCode with
  | 0 => EmptyString
  | 1 => "error: invalid operand."
  | 2 => "error: unmatched left parenthesis."
  | 3 => "error: unmatched right parenthesis."
  | 4 => "error: invalid operator."
  | 5 => "error: division by zero."
  | 6 => "error: unknown function."
  | 7 => "error: variable expected."
  | 8 => "error: variable space full."
  | 9 => "error: variable name too long."
  | 10 => "error: heap space full."
  | 11 => "error: function parameter is out of range."
  | _ => "internal error:  Unknown error code."
  end%string.

(** ** The token wrappers *)

(** The blanks [_strhed] looks for: space, tab and newline (the carriage
    return is not among them). *)
Definition is_separator (c : ascii) : bool :=
  Ascii.eqb c " " || (char_code c =? 9) || (char_code c =? 10).

(** The first loop of [_strhed]: find the first nonblank character. *)
Fixpoint skip_separators (tail : list ascii) : list ascii :=
  match tail with
  | c :: tail' =>
      if negb (Ascii.eqb c NUL) && is_separator c then skip_separators tail'
      else tail
  | [] => []
  end.

(** The second loop of [_strhed]: the characters up to the next blank or
    the terminator, and where [sep] stops. *)
Fixpoint span_word (sep : list ascii) : list ascii * list ascii :=
  match sep with
  | c :: sep' =>
      if negb (Ascii.eqb c NUL) && negb (is_separator c) then
        let (word, r) := span_word sep' in (c :: word, r)
      else ([], sep)
  | [] => ([], [])
  end.

(** [_strhed (&tadd)]: the memory [head] points at once the separator has
    been overwritten by a NUL, and the new value of [tadd]. *)
Definition _strhed (tadd : list ascii) : list ascii * list ascii :=
  let tail := skip_separators tadd in
  let (word, sep) := span_word tail in
  if negb (Ascii.eqb (deref sep) NUL) then
    (word ++ NUL :: tl sep, SkipWhiteSpace (tl sep))
  else (word ++ sep, SkipWhiteSpace sep).

(** [dblstrf (&tadd)]: the value, the state left, and the new [tadd]; the
    error code [evalform] reports is dropped. *)
Definition dblstrf (libc : clib) (tadd : list ascii) (st : state)
  : outcome (float * state * list ascii) :=
  let (f, tail) := _strhed tadd in
  '(v, st') <- evalform libc f st ;;
  Done (v, st', tail).

(** ** Shapes of names and of literals *)

(** The characters a stored name is made of. *)
Definition stored_char (c : ascii) : bool :=
  is_upper c || isdigit c || Ascii.eqb c "_" || Ascii.eqb c "%".

Definition stored_name (name : string) : Prop :=
  (0 < String.length name < MAXTOKENLENGTH)%nat
  /\ forallb stored_char (list_ascii_of_string name) = true.

(** The characters a name token goes on with. *)
Definition name_char (c : ascii) : bool := isalnum c || Ascii.eqb c "_".

(** The character a name token starts with. *)
Definition name_start (c : ascii) : bool :=
  is_upper c || is_lower c || Ascii.eqb c "%".

(** The character an operand can start with. *)
Definition operand_char (c : ascii) : bool :=
  Ascii.eqb c "(" || isdigit c || Ascii.eqb c "." || name_start c.

(** A nonempty run of decimal digits. *)
Definition digits (ds : list ascii) : Prop :=
  ds <> [] /\ forallb isdigit ds = true.

(** The value of a run of decimal digits read as a literal. *)
Definition digits_double (ds : list ascii) : float :=
  decimal_to_double (digits_value ds) 0.

(** What follows an integer literal: the next character is no digit, no
    period and no exponent mark, so that the literal ends there. *)
Definition literal_end (q : list ascii) : bool :=
  negb (isdigit (deref q) || Ascii.eqb (deref q) "."
        || Ascii.eqb (deref q) "e" || Ascii.eqb (deref q) "E").

(** The digits [ds] followed by [q] start like a hexadecimal literal, which
    [strtod] of a C99 library reads further than the [0]. *)
Definition hexadecimal_prefix (ds q : list ascii) : bool :=
  match ds with
  | [d] => Ascii.eqb d "0"
           && (Ascii.eqb (deref q) "x" || Ascii.eqb (deref q) "X")
  | _ => false
  end.

(** The unary sign [ParseFormula] applies to the first operand of [f]. *)
Definition unary_sign (f : list ascii) (v : float) : float :=
  if Ascii.eqb (deref (SkipWhiteSpace f)) "-" then (- v)%float else v.

(** What the loop of [ParseFormula] does with the two operands of an
    arithmetic operator. *)
Definition apply_arithmetic (libc : clib) (op : operator_t) (v1 v2 : float)
           (st : state) : option (float * state) :=
  match op with
  | OP_Add => Some ((v1 + v2)%float, st)
  | OP_Subtract => Some ((v1 - v2)%float, st)
  | OP_Multiply => Some ((v1 * v2)%float, st)
  | OP_Divide => Some (ApplyDivide v1 v2 st)
  | OP_RaisePower => Some (c_pow libc v1 v2, st)
  | _ => None
  end.

(** The characters of a token of [_strhed]: anything but the terminator
    and the three blanks. *)
Definition word_char (c : ascii) : bool :=
  negb (Ascii.eqb c NUL) && negb (is_separator c).

(** * Properties *)

(** ** Suffixes *)

Lemma is_suffix_refl p : is_suffix p p.
Proof. now exists []. Qed.

Lemma is_suffix_trans r q p : is_suffix r q -> is_suffix q p -> is_suffix r p.
Proof.
  intros [a ->] [b ->]. exists (b ++ a). now rewrite app_assoc.
Qed.

Lemma is_suffix_tl p : is_suffix (tl p) p.
Proof. destruct p as [|c p]; [now exists [] | now exists [c]]. Qed.

Lemma is_suffix_length q p :
  is_suffix q p -> (List.length q <= List.length p)%nat.
Proof. intros [a ->]. rewrite length_app. lia. Qed.

Lemma is_suffix_skipn n p : is_suffix (skipn n p) p.
Proof. exists (firstn n p). now rewrite firstn_skipn. Qed.

Lemma nul_last_suffix q p : is_suffix q p -> nul_last p -> nul_last q.
Proof.
  intros [a ->] H pre post E. apply (H (a ++ pre) post).
  now rewrite E, app_assoc.
Qed.

Lemma SkipWhiteSpace_suffix f : is_suffix (SkipWhiteSpace f) f.
Proof.
  induction f as [|c f IH]; simpl; [apply is_suffix_refl|].
  destruct (is_space c); [|apply is_suffix_refl].
  eapply is_suffix_trans; [exact IH | apply (is_suffix_tl (c :: f))].
Qed.

Lemma span_digits_app p ds r : span_digits p = (ds, r) -> p = ds ++ r.
Proof.
  revert ds r. induction p as [|c p IH]; simpl; intros ds r E.
  - now inversion E.
  - destruct (isdigit c).
    + destruct (span_digits p) as [ds' r'] eqn:Ep. inversion E; subst.
      simpl. f_equal. now apply IH.
    + now inversion E.
Qed.

Lemma span_digits_suffix p ds r : span_digits p = (ds, r) -> is_suffix r p.
Proof. intros E. exists ds. now apply span_digits_app. Qed.

Lemma scan_exponent_suffix p ex r : scan_exponent p = (ex, r) -> is_suffix r p.
Proof.
  unfold scan_exponent. destruct p as [|c p1].
  - intros E; inversion E; apply is_suffix_refl.
  - destruct (Ascii.eqb c "e" || Ascii.eqb c "E").
    2:{ intros E; inversion E; apply is_suffix_refl. }
    set (sg := match p1 with
               | s :: p1' =>
                   if Ascii.eqb s "-" then (true, p1')
                   else if Ascii.eqb s "+" then (false, p1') else (false, p1)
               | [] => (false, p1)
               end).
    assert (Hs : is_suffix (snd sg) p1).
    { subst sg. destruct p1 as [|s p1']; simpl; [apply is_suffix_refl|].
      destruct (Ascii.eqb s "-"); simpl; [apply (is_suffix_tl (s :: p1'))|].
      destruct (Ascii.eqb s "+"); simpl;
        [apply (is_suffix_tl (s :: p1')) | apply is_suffix_refl]. }
    destruct sg as [neg p2]. simpl in Hs.
    destruct (span_digits p2) as [ds p3] eqn:Ed.
    destruct ds; intros E; inversion E; subst; [apply is_suffix_refl|].
    eapply is_suffix_trans; [eapply span_digits_suffix; exact Ed|].
    eapply is_suffix_trans; [exact Hs | apply (is_suffix_tl (c :: p1))].
Qed.

Lemma strtod_suffix p : is_suffix (snd (strtod p)) p.
Proof.
  unfold strtod.
  destruct (span_digits p) as [ip p1] eqn:E1.
  pose proof (span_digits_suffix _ _ _ E1) as H1.
  set (fr := match p1 with
             | c :: p1' => if Ascii.eqb c "." then span_digits p1' else ([], p1)
             | [] => ([], p1)
             end).
  assert (H2 : is_suffix (snd fr) p1).
  { subst fr. destruct p1 as [|c p1']; simpl; [apply is_suffix_refl|].
    destruct (Ascii.eqb c "."); simpl; [|apply is_suffix_refl].
    destruct (span_digits p1') as [a b] eqn:E2. simpl.
    eapply is_suffix_trans; [eapply span_digits_suffix; exact E2|].
    apply (is_suffix_tl (c :: p1')). }
  destruct fr as [fp p2]. simpl in H2.
  destruct (ip ++ fp); simpl; [apply is_suffix_refl|].
  destruct (scan_exponent p2) as [ex p3] eqn:E3. simpl.
  eapply is_suffix_trans; [eapply scan_exponent_suffix; exact E3|].
  eapply is_suffix_trans; eassumption.
Qed.

(** ** The symbol table *)

Lemma store_value_length T i v : List.length (store_value T i v) = List.length T.
Proof.
  revert i. induction T as [|[n x] T IH]; intros [|i]; simpl; auto.
Qed.

Lemma store_value_names T i v : map fst (store_value T i v) = map fst T.
Proof.
  revert i. induction T as [|[n x] T IH]; intros [|i]; simpl; auto.
  now rewrite IH.
Qed.

Lemma Forall_name_fits_names T T' :
  map fst T' = map fst T -> Forall name_fits T -> Forall name_fits T'.
Proof.
  revert T'. induction T as [|e T IH]; intros [|e' T'] E H; simpl in E;
    try discriminate; constructor; inversion E; inversion H; subst.
  - unfold name_fits in *. congruence.
  - now apply IH.
Qed.

Lemma store_value_ok T i v : table_ok T -> table_ok (store_value T i v).
Proof.
  intros [Hl Hn]. split.
  - now rewrite store_value_length.
  - eapply Forall_name_fits_names; [apply store_value_names | exact Hn].
Qed.

Lemma find_variable_range T name i :
  0 <= i ->
  find_variable T name i = NOTFOUND \/
  i <= find_variable T name i < i + Z.of_nat (List.length T).
Proof.
  revert i. induction T as [|[n x] T IH]; simpl; intros i Hi; [now left|].
  destruct (String.eqb n name); [right; lia|].
  destruct (IH (i + 1)) as [H|H]; [lia | now left | right; lia].
Qed.

Section TableWithLibrary.

Variable libc : clib.

Lemma AssignVariable_ok name v T :
  (String.length name < MAXTOKENLENGTH)%nat ->
  table_ok T -> table_ok (snd (AssignVariable libc name v T)).
Proof.
  intros Hn HT. unfold AssignVariable.
  destruct (GetVariableID T name =? NOTFOUND); cbn [snd].
  - destruct (MAXNUMBERVAR <=? List.length T)%nat eqn:Hfull; cbn [snd];
      [exact HT|].
    destruct (negb (calloc_ok libc (String.length name + 1))); cbn [snd];
      [exact HT|].
    apply Nat.leb_gt in Hfull. destruct HT as [Hl Hf]. split.
    + rewrite length_app. cbn [List.length]. lia.
    + apply Forall_app. split; auto.
  - now apply store_value_ok.
Qed.

Lemma AssignVariable_names name v T :
  exists new, map fst (snd (AssignVariable libc name v T)) = map fst T ++ new.
Proof.
  unfold AssignVariable.
  destruct (GetVariableID T name =? NOTFOUND); cbn [snd].
  - destruct (MAXNUMBERVAR <=? List.length T)%nat; cbn [snd];
      [exists []; now rewrite app_nil_r|].
    destruct (negb (calloc_ok libc (String.length name + 1))); cbn [snd];
      [exists []; now rewrite app_nil_r|].
    exists [name]. now rewrite map_app.
  - exists []. now rewrite store_value_names, app_nil_r.
Qed.

End TableWithLibrary.

(** ** How the state evolves under the elementary updates *)

Lemma evolves_refl st : evolves st st.
Proof.
  constructor; auto.
  - apply is_suffix_refl.
  - lia.
  - exists []. now rewrite app_nil_r.
Qed.

Lemma evolves_trans st1 st2 st3 :
  evolves st1 st2 -> evolves st2 st3 -> evolves st1 st3.
Proof.
  intros [c1 b1 e1 t1 [n1 N1]] [c2 b2 e2 t2 [n2 N2]]. constructor; auto.
  - eapply is_suffix_trans; eassumption.
  - lia.
  - exists (n1 ++ n2). now rewrite N2, N1, app_assoc.
Qed.

Lemma evolves_set_FormulaString q st :
  is_suffix q (FormulaString_m st) -> evolves st (set_FormulaString q st).
Proof.
  intros H. constructor; simpl; auto.
  - apply is_suffix_length in H. unfold budget, remaining; simpl. lia.
  - exists []. now rewrite app_nil_r.
Qed.

Lemma evolves_advance st : evolves st (advance st).
Proof. apply evolves_set_FormulaString, is_suffix_tl. Qed.

Lemma evolves_set_ErrorCode e st :
  e <> ERROR_function -> evolves st (set_ErrorCode e st).
Proof.
  intros H. constructor; simpl; auto.
  - apply is_suffix_refl.
  - unfold budget, remaining; simpl. lia.
  - intros E. now elim H.
  - exists []. now rewrite app_nil_r.
Qed.

Lemma evolves_set_TokenString t st : evolves st (set_TokenString t st).
Proof.
  constructor; simpl; auto.
  - apply is_suffix_refl.
  - unfold budget, remaining; simpl. lia.
  - exists []. now rewrite app_nil_r.
Qed.

Lemma evolves_set_DivisorValue d st : evolves st (set_DivisorValue d st).
Proof.
  constructor; simpl; auto.
  - apply is_suffix_refl.
  - unfold budget, remaining; simpl. lia.
  - exists []. now rewrite app_nil_r.
Qed.

Lemma evolves_set_Variables T st :
  (table_ok (Variables_m st) -> table_ok T) ->
  (exists new, map fst T = map fst (Variables_m st) ++ new) ->
  evolves st (set_Variables T st).
Proof.
  intros H1 H2. constructor; simpl; auto.
  - apply is_suffix_refl.
  - unfold budget, remaining; simpl. lia.
Qed.

Lemma evolves_open_parenthesis st :
  FormulaString_m st <> [] ->
  evolves st (set_ParenthesisLevel (ParenthesisLevel_m (advance st) + 1)
                                   (advance st)).
Proof.
  intros H. constructor; simpl; auto.
  - apply is_suffix_tl.
  - unfold budget, remaining; simpl.
    destruct (FormulaString_m st); [now elim H | simpl; lia].
  - exists []. now rewrite app_nil_r.
Qed.

Lemma evolves_close_parenthesis st :
  evolves st (set_ParenthesisLevel (ParenthesisLevel_m st - 1) st).
Proof.
  constructor; simpl; auto.
  - apply is_suffix_refl.
  - unfold budget, remaining; simpl. lia.
  - exists []. now rewrite app_nil_r.
Qed.

Lemma evolves_remaining st st' : evolves st st' -> remaining st' <= remaining st.
Proof.
  intros [H _ _ _ _]. apply is_suffix_length in H. unfold remaining. lia.
Qed.

(** ** Outcomes *)

Lemma returns_Done {A : Type} (a : A) (Q : A -> Prop) : Q a -> returns (Done a) Q.
Proof. intros H. now exists a. Qed.

Lemma returns_bind {A B : Type} (c : outcome A) (k : A -> outcome B)
      (Q : A -> Prop) (R : B -> Prop) :
  returns c Q -> (forall a, Q a -> returns (k a) R) -> returns (bind c k) R.
Proof.
  intros [a [-> Ha]] Hk. simpl. now apply Hk.
Qed.

Lemma returns_weaken {A : Type} (c : outcome A) (Q R : A -> Prop) :
  returns c Q -> (forall a, Q a -> R a) -> returns c R.
Proof. intros [a [-> Ha]] H. exists a. auto. Qed.

Lemma errorcode_eqb_eq a b : errorcode_eqb a b = true <-> a = b.
Proof.
  unfold errorcode_eqb. rewrite Z.eqb_eq.
  split; [|now intros ->]. destruct a, b; simpl; congruence.
Qed.

Lemma errorcode_eqb_neq a b : errorcode_eqb a b = false <-> a <> b.
Proof.
  rewrite <- errorcode_eqb_eq. destruct (errorcode_eqb a b); split; congruence.
Qed.

Lemma operator_eqb_eq a b : operator_eqb a b = true <-> a = b.
Proof.
  unfold operator_eqb. rewrite Z.eqb_eq.
  split; [|now intros ->]. destruct a, b; simpl; congruence.
Qed.

Lemma CopyUppercaseString_length src n :
  String.length (CopyUppercaseString src n) = n.
Proof.
  revert src. induction n as [|n IH]; intros src; simpl; auto.
Qed.

Lemma evolves_fuel_needed st st' :
  evolves st st' -> fuel_needed st' <= fuel_needed st.
Proof.
  intros H. pose proof (evolves_remaining _ _ H).
  destruct H as [_ Hb _ _ _]. unfold fuel_needed. lia.
Qed.

(** Composition with one more update. *)
Lemma then_set_FormulaString st x q :
  evolves st x -> is_suffix q (FormulaString_m x) ->
  evolves st (set_FormulaString q x).
Proof.
  intros H Hq. eapply evolves_trans; [exact H|].
  now apply evolves_set_FormulaString.
Qed.

Lemma then_set_ErrorCode st x e :
  evolves st x -> e <> ERROR_function -> evolves st (set_ErrorCode e x).
Proof.
  intros H He. eapply evolves_trans; [exact H|].
  now apply evolves_set_ErrorCode.
Qed.

Lemma then_set_TokenString st x t :
  evolves st x -> evolves st (set_TokenString t x).
Proof.
  intros H. eapply evolves_trans; [exact H | apply evolves_set_TokenString].
Qed.

Lemma then_set_DivisorValue st x d :
  evolves st x -> evolves st (set_DivisorValue d x).
Proof.
  intros H. eapply evolves_trans; [exact H | apply evolves_set_DivisorValue].
Qed.

Lemma then_set_Variables st x T :
  evolves st x ->
  (table_ok (Variables_m x) -> table_ok T) ->
  (exists new, map fst T = map fst (Variables_m x) ++ new) ->
  evolves st (set_Variables T x).
Proof.
  intros H H1 H2. eapply evolves_trans; [exact H|].
  now apply evolves_set_Variables.
Qed.

Lemma GetOperator_EndLine c : GetOperator c = Some OP_EndLine -> c = NUL.
Proof.
  unfold GetOperator.
  repeat match goal with
         | |- context [Ascii.eqb c ?x] =>
             destruct (Ascii.eqb_spec c x); try discriminate; auto
         end.
Qed.

Lemma GetOperator_not_EndLine c op :
  GetOperator c = Some op -> op <> OP_EndLine -> c <> NUL.
Proof.
  intros H Hop ->. apply Hop. vm_compute in H. congruence.
Qed.

Lemma GetOperator_range c op :
  GetOperator c = Some op -> op <> OP_BeginLine /\ op <> OP_OpenParenthesis.
Proof.
  unfold GetOperator.
  repeat match goal with
         | |- context [Ascii.eqb c ?x] =>
             destruct (Ascii.eqb c x);
             [intros H; inversion H; split; discriminate|]
         end.
  discriminate.
Qed.

Lemma ApplyCriterion_EndLine pend : ApplyCriterion OP_EndLine pend = false.
Proof. now destruct pend. Qed.

Lemma frame_post_trans st0 st v1 op1 st1 v :
  evolves st0 st -> frame_post st (v1, op1, st1) -> frame_post st0 (v, op1, st1).
Proof.
  intros H0 [H1 H2]. split; [eapply evolves_trans; eassumption|].
  intros He. destruct (H2 He) as [Hc [Hr Hn]]. split; [exact Hc|].
  pose proof (evolves_remaining _ _ H0). split.
  - intros Hop. specialize (Hr Hop). lia.
  - intros Hop Hnul. apply Hn; auto.
    eapply nul_last_suffix; [|exact Hnul]. now destruct H0.
Qed.

Lemma frame_post_update st0 v op st1 v' st1' :
  frame_post st0 (v, op, st1) ->
  evolves st1 st1' ->
  (ErrorCode_m st1' = ERROR_none -> ErrorCode_m st1 = ERROR_none) ->
  FormulaString_m st1' = FormulaString_m st1 ->
  frame_post st0 (v', op, st1').
Proof.
  intros [H1 H2] Hev He Hf. split; [eapply evolves_trans; eassumption|].
  intros E. destruct (H2 (He E)) as [Hc [Hr Hn]].
  unfold remaining in *. rewrite Hf. auto.
Qed.

Lemma remaining_advance st :
  FormulaString_m st <> [] -> remaining (advance st) = remaining st - 1.
Proof.
  intros H. unfold remaining, advance. simpl.
  destruct (FormulaString_m st); [now elim H | simpl List.length; lia].
Qed.

Section Frames.

Variable libc : clib.

Lemma EvaluateFunction_returns fn x st :
  fn <> FUNC_err ->
  returns (EvaluateFunction libc fn x st) (fun r => evolves st (snd r)).
Proof.
  intros Hfn. unfold EvaluateFunction.
  destruct (negb (argument_ok fn x)).
  - apply returns_Done. simpl. now apply evolves_set_ErrorCode.
  - destruct fn; try (apply returns_Done; simpl; apply evolves_refl).
    + now elim Hfn.
    + destruct (PrimFloat.ltb x 0); apply returns_Done; simpl;
        apply evolves_refl.
Qed.

Variable recurse : operator_t -> state -> outcome (float * operator_t * state).
Variable k : nat.

Hypothesis recurse_ok :
  forall PendingOperator st,
    fuel_needed st <= Z.of_nat k ->
    returns (recurse PendingOperator st) (frame_post st).

Lemma ParseParenthetical_returns st :
  FormulaString_m st <> [] ->
  fuel_needed st <= Z.of_nat k + 1 ->
  returns (ParseParenthetical recurse st) (value_post st).
Proof.
  intros Hne Hfuel. unfold ParseParenthetical.
  pose proof (evolves_open_parenthesis st Hne) as Hopen.
  set (st2 := set_ParenthesisLevel _ _) in *.
  assert (Hf2 : fuel_needed st2 <= Z.of_nat k).
  { revert Hfuel. subst st2. unfold fuel_needed, budget, remaining; simpl.
    destruct (FormulaString_m st); [now elim Hne|].
    simpl List.length. lia. }
  eapply returns_bind; [apply recurse_ok; exact Hf2|].
  intros [[v op] st3] [Hev _].
  pose proof (evolves_trans _ _ _ Hopen Hev) as Hall.
  destruct (errorcode_eqb (ErrorCode_m st3) ERROR_none) eqn:He; simpl.
  - destruct (operator_eqb op OP_CloseParenthesis); simpl;
      apply returns_Done; simpl; auto.
    split; [|discriminate]. now apply then_set_ErrorCode.
  - apply returns_Done; simpl. split; auto. now apply errorcode_eqb_neq.
Qed.

Lemma ParseName_returns st :
  fuel_needed st <= Z.of_nat k + 1 ->
  returns (ParseName libc recurse st) (value_post st).
Proof.
  intros Hfuel. unfold ParseName.
  set (n := GetNextTokenLength (FormulaString_m st)).
  destruct (n =? 0)%nat.
  { apply returns_Done; simpl. split; [|discriminate].
    now apply evolves_set_ErrorCode. }
  destruct (MAXTOKENLENGTH <=? n)%nat eqn:Hlong.
  { apply returns_Done; simpl. split; [|discriminate].
    now apply evolves_set_ErrorCode. }
  apply Nat.leb_gt in Hlong.
  set (tok := CopyUppercaseString (FormulaString_m st) n).
  set (st1 := set_TokenString tok st).
  set (st2 := set_FormulaString (skipn n (FormulaString_m st1)) st1).
  assert (H2 : evolves st st2).
  { apply then_set_FormulaString; [apply evolves_set_TokenString|].
    apply is_suffix_skipn. }
  assert (Htok : TokenString_m st2 = tok) by reflexivity.
  rewrite !Htok.
  destruct (String.eqb tok "%E"); [apply returns_Done; exact H2|].
  destruct (String.eqb tok "%PI"); [apply returns_Done; exact H2|].
  destruct (function_eq_dec (LookupFunction tok) FUNC_err) as [Hfn|Hfn].
  - destruct (GetVariableID (Variables_m st2) tok =? NOTFOUND).
    2:{ apply returns_Done; exact H2. }
    pose proof (AssignVariable_ok libc tok 0%float (Variables_m st2)) as Hok.
    pose proof (AssignVariable_names libc tok 0%float (Variables_m st2)) as Hnm.
    destruct (AssignVariable libc tok 0%float (Variables_m st2)) as [id T].
    cbn [snd] in Hok, Hnm.
    assert (H3 : evolves st (set_Variables T st2)).
    { apply then_set_Variables; auto. apply Hok.
      unfold tok. now rewrite CopyUppercaseString_length. }
    destruct (id =? NOROOM).
    { apply returns_Done; simpl. split; [|discriminate].
      now apply then_set_ErrorCode. }
    destruct (id =? NOHEAP).
    { apply returns_Done; simpl. split; [|discriminate].
      now apply then_set_ErrorCode. }
    apply returns_Done. exact H3.
  - set (st3 := set_FormulaString (SkipWhiteSpace (FormulaString_m st2)) st2).
    assert (H3 : evolves st st3).
    { apply then_set_FormulaString; auto. apply SkipWhiteSpace_suffix. }
    destruct (Ascii.eqb (deref (FormulaString_m st3)) "(") eqn:Hp.
    2:{ apply returns_Done; simpl. split; [|discriminate].
        now apply then_set_ErrorCode. }
    assert (Hne : FormulaString_m st3 <> []).
    { intros E. rewrite E in Hp. discriminate. }
    pose proof (evolves_fuel_needed _ _ H3) as Hf3.
    eapply returns_bind;
      [apply ParseParenthetical_returns; [exact Hne | lia]|].
    intros [v id st4|st4]; simpl.
    + intros H4.
      eapply returns_bind; [apply EvaluateFunction_returns; exact Hfn|].
      intros [v' st5] H5. simpl in H5.
      assert (Hall : evolves st st5).
      { eapply evolves_trans; [exact H3|].
        eapply evolves_trans; eassumption. }
      destruct (errorcode_eqb (ErrorCode_m st5) ERROR_none) eqn:He; simpl;
        apply returns_Done; simpl; auto.
      split; auto. now apply errorcode_eqb_neq.
    + intros [H4 He]. apply returns_Done; simpl. split; auto.
      eapply evolves_trans; eassumption.
Qed.

Lemma ParseValue_returns st :
  fuel_needed st <= Z.of_nat k + 1 ->
  returns (ParseValue libc recurse st) (value_post st).
Proof.
  intros Hfuel. unfold ParseValue.
  set (st1 := set_FormulaString (SkipWhiteSpace (FormulaString_m st)) st).
  assert (H1 : evolves st st1).
  { apply evolves_set_FormulaString, SkipWhiteSpace_suffix. }
  set (minus := Ascii.eqb (deref (FormulaString_m st1)) "-").
  set (st2 := if minus then advance st1
              else if Ascii.eqb (deref (FormulaString_m st1)) "+"
                   then advance st1 else st1).
  assert (H2 : evolves st st2).
  { subst st2. destruct minus;
      [eapply evolves_trans; [exact H1 | apply evolves_advance]|].
    destruct (Ascii.eqb (deref (FormulaString_m st1)) "+"); auto.
    eapply evolves_trans; [exact H1 | apply evolves_advance]. }
  pose proof (evolves_fuel_needed _ _ H2) as Hf2.
  eapply returns_bind with (Q := value_post st).
  - destruct (Ascii.eqb (deref (FormulaString_m st2)) "(") eqn:Hp.
    + assert (Hne : FormulaString_m st2 <> []).
      { intros E. rewrite E in Hp. discriminate. }
      eapply returns_weaken;
        [apply ParseParenthetical_returns; [exact Hne | lia]|].
      intros [v id st3|st3]; simpl.
      * intros H3. eapply evolves_trans; eassumption.
      * intros [H3 He]. split; auto. eapply evolves_trans; eassumption.
    + destruct (isdigit (deref (FormulaString_m st2))
                || Ascii.eqb (deref (FormulaString_m st2)) ".").
      * pose proof (strtod_suffix (FormulaString_m st2)) as Hs.
        destruct (strtod (FormulaString_m st2)) as [v f]. simpl in Hs.
        apply returns_Done. simpl. now apply then_set_FormulaString.
      * eapply returns_weaken; [apply ParseName_returns; lia|].
        intros [v id st3|st3]; simpl.
        -- intros H3. eapply evolves_trans; eassumption.
        -- intros [H3 He]. split; auto. eapply evolves_trans; eassumption.
  - intros [v id st3|st3] H3; apply returns_Done; exact H3.
Qed.

Lemma loop_ready_next n st op1 st1 st1' v1 :
  fuel_needed st <= Z.of_nat k ->
  remaining st + Z.max 0 (budget st) + 3 <= Z.of_nat (S n) ->
  frame_post st (v1, op1, st1) ->
  (ErrorCode_m st1' = ERROR_none -> ErrorCode_m st1 = ERROR_none) ->
  FormulaString_m st1' = FormulaString_m st1 ->
  ParenthesisLevel_m st1' = ParenthesisLevel_m st1 ->
  loop_ready k n op1 st1'.
Proof.
  intros Hk Hn [Hev Hpost] He Hf Hl.
  assert (0 <= remaining st1) by (unfold remaining; lia).
  assert (0 <= remaining st) by (unfold remaining; lia).
  assert (Hr : remaining st1' = remaining st1)
    by (unfold remaining; now rewrite Hf).
  assert (Hb : budget st1' = budget st1)
    by (unfold budget; now rewrite Hr, Hl).
  destruct (errorcode_eqb (ErrorCode_m st1') ERROR_none) eqn:E.
  2:{ left. split; [lia|]. left. now apply errorcode_eqb_neq. }
  apply errorcode_eqb_eq in E. destruct (Hpost (He E)) as [_ [Hlt _]].
  destruct (operator_eqb op1 OP_EndLine) eqn:E1.
  { apply operator_eqb_eq in E1. left. split; [lia | now right]. }
  assert (Hne : op1 <> OP_EndLine).
  { intros ->. discriminate. }
  specialize (Hlt Hne).
  pose proof (ev_budget _ _ Hev) as Hbud.
  destruct (operator_eqb op1 OP_CloseParenthesis) eqn:E2.
  - apply operator_eqb_eq in E2. right; left. split; auto.
    rewrite Hl. unfold budget in *. lia.
  - right; right. split; [intros ->; discriminate|].
    unfold fuel_needed in *. rewrite Hr, Hb. lia.
Qed.

Lemma ApplyLoop_returns n :
  forall PendingOperator CurrentOperator CurrentValue VariableID st0 st,
    frame_post st0 (CurrentValue, CurrentOperator, st) ->
    loop_ready k n CurrentOperator st ->
    returns (ApplyLoop libc recurse n PendingOperator CurrentOperator
                       CurrentValue VariableID st)
            (call_post PendingOperator st0).
Proof.
  induction n as [|n IH]; intros pend cur v id st0 st Hinv Hready.
  { exfalso. destruct Hready as [[H _]|[[_ H]|[_ [_ H]]]]; try lia.
    unfold remaining in H. lia. }
  cbn [ApplyLoop].
  destruct (errorcode_eqb (ErrorCode_m st) ERROR_none) eqn:He.
  2:{ apply returns_Done. split; auto. intros E. apply errorcode_eqb_neq in He.
      now elim He. }
  destruct (ApplyCriterion cur pend) eqn:Hc; [|now apply returns_Done].
  apply errorcode_eqb_eq in He.
  assert (Hev0 : evolves st0 st) by (destruct Hinv; assumption).
  destruct Hinv as [_ Hinv]. destruct (Hinv He) as [[c Hop] _].
  destruct (GetOperator_range _ _ Hop) as [Hnb Hno].
  assert (Hrec : cur <> OP_CloseParenthesis -> cur <> OP_EndLine ->
                 fuel_needed st <= Z.of_nat k /\
                 remaining st + Z.max 0 (budget st) + 3 <= Z.of_nat (S n)).
  { intros H1 H2.
    destruct Hready as [[_ [H|H]]|[[H _]|[_ H]]]; try contradiction; auto. }
  assert (Hstep : forall (f : float -> float),
             cur <> OP_CloseParenthesis -> cur <> OP_EndLine ->
             returns ('(v1, op, st1) <- recurse cur st ;;
                      ApplyLoop libc recurse n pend op (f v1) id st1)
                     (call_post pend st0)).
  { intros f H1 H2. destruct (Hrec H1 H2) as [Hk Hn].
    eapply returns_bind; [apply recurse_ok; exact Hk|].
    intros [[v1 op1] st1] Hpost. apply IH.
    - eapply frame_post_trans; eassumption.
    - eapply loop_ready_next; eauto. }
  destruct cur; try contradiction.
  - now rewrite ApplyCriterion_EndLine in Hc.
  - (* close parenthesis *)
    set (st1 := set_ParenthesisLevel (ParenthesisLevel_m st - 1) st).
    assert (Hl : ParenthesisLevel_m st1 = ParenthesisLevel_m st - 1)
      by reflexivity.
    destruct Hready as [[_ [H|H]]|[[_ H]|[H _]]];
      try contradiction; try discriminate.
    destruct (ParenthesisLevel_m st1 <? 0) eqn:Hneg.
    + apply IH.
      * split.
        -- eapply evolves_trans; [exact Hev0|].
           apply then_set_ErrorCode; [|discriminate].
           apply evolves_close_parenthesis.
        -- simpl. discriminate.
      * left. split; [lia|]. left. simpl. discriminate.
    + apply Z.ltb_ge in Hneg. apply IH.
      * split.
        -- eapply evolves_trans; [exact Hev0|].
           apply evolves_close_parenthesis.
        -- intros _. apply (Hinv He).
      * right; left. split; auto. rewrite Hl. lia.
  - (* assignment *)
    destruct (id =? NOTFOUND).
    + apply returns_Done. split; [|simpl; discriminate].
      split; [|simpl; discriminate].
      eapply evolves_trans; [exact Hev0|].
      now apply evolves_set_ErrorCode.
    + destruct (Hrec ltac:(discriminate) ltac:(discriminate)) as [Hk Hn].
      eapply returns_bind; [apply recurse_ok; exact Hk|].
      intros [[v1 op1] st1] Hpost.
      assert (Hst : evolves st1
                (set_Variables
                   (store_value (Variables_m st1) (Z.to_nat id) v1) st1)).
      { apply evolves_set_Variables; [apply store_value_ok|].
        exists []. now rewrite store_value_names, app_nil_r. }
      apply IH.
      * eapply frame_post_update with (st1 := st1) (v := v1); auto.
        eapply frame_post_trans; eassumption.
      * eapply loop_ready_next; eauto.
  - apply (Hstep (fun v1 => (v + v1)%float)); discriminate.
  - apply (Hstep (fun v1 => (v - v1)%float)); discriminate.
  - apply (Hstep (fun v1 => (v * v1)%float)); discriminate.
  - (* divide *)
    destruct (Hrec ltac:(discriminate) ltac:(discriminate)) as [Hk Hn].
    eapply returns_bind; [apply recurse_ok; exact Hk|].
    intros [[v1 op1] st1] Hpost. unfold ApplyDivide.
    destruct (PrimFloat.eqb (DivisorValue_m (set_DivisorValue v1 st1)) 0).
    + apply IH.
      * eapply frame_post_update with (st1 := st1) (v := v1).
        -- eapply frame_post_trans; eassumption.
        -- apply then_set_ErrorCode; [|discriminate].
           apply evolves_set_DivisorValue.
        -- simpl. discriminate.
        -- reflexivity.
      * eapply loop_ready_next; eauto. simpl. discriminate.
    + apply IH.
      * eapply frame_post_update with (st1 := st1) (v := v1); auto.
        -- eapply frame_post_trans; eassumption.
        -- apply evolves_set_DivisorValue.
      * eapply loop_ready_next; eauto.
  - apply (Hstep (fun v1 => c_pow libc v v1)); discriminate.
Qed.

Lemma ParseBody_returns PendingOperator st :
  fuel_needed st <= Z.of_nat k + 1 ->
  returns (ParseBody libc recurse k PendingOperator st)
          (call_post PendingOperator st).
Proof.
  intros Hfuel. unfold ParseBody.
  eapply returns_bind; [apply ParseValue_returns; auto|].
  intros [v id st1|st1]; unfold value_post; lazy beta iota zeta.
  2:{ intros [H1 He]. apply returns_Done.
      split; [split; auto|]; now intros E. }
  intros H1.
  set (st2 := set_FormulaString (SkipWhiteSpace (FormulaString_m st1)) st1).
  assert (H2 : evolves st st2).
  { apply then_set_FormulaString; auto. apply SkipWhiteSpace_suffix. }
  destruct (GetOperator (deref (FormulaString_m st2))) as [cur|] eqn:Hop.
  2:{ apply returns_Done. split; [|simpl; discriminate].
      split; [|simpl; discriminate]. now apply then_set_ErrorCode. }
  assert (H3 : evolves st (advance st2)).
  { eapply evolves_trans; [exact H2 | apply evolves_advance]. }
  assert (Hrem2 : remaining st2 <= remaining st)
    by now apply evolves_remaining.
  assert (Hadv : cur <> OP_EndLine ->
                 remaining (advance st2) = remaining st2 - 1).
  { intros Hne. pose proof (GetOperator_not_EndLine _ _ Hop Hne) as Hc.
    apply remaining_advance. intros E. now rewrite E in Hc. }
  apply ApplyLoop_returns.
  - split; auto. intros _. split; [now exists (deref (FormulaString_m st2))|].
    split.
    + intros Hne. rewrite (Hadv Hne). lia.
    + intros -> Hnul. apply GetOperator_EndLine in Hop.
      destruct (ev_cursor _ _ H2) as [pre Hpre].
      unfold advance. cbn [FormulaString_m set_FormulaString].
      destruct (FormulaString_m st2) as [|c0 rest]; [reflexivity|].
      unfold deref in Hop. cbn [hd] in Hop. rewrite Hop in Hpre.
      cbn [tl]. now apply (Hnul pre rest).
  - assert (0 <= remaining (advance st2)) by (unfold remaining; lia).
    pose proof (ev_budget _ _ H3) as Hb.
    destruct (operator_eqb cur OP_EndLine) eqn:E1.
    { apply operator_eqb_eq in E1. left.
      split; [|now right]. unfold fuel_needed, remaining in Hfuel. lia. }
    assert (Hne : cur <> OP_EndLine) by (intros ->; discriminate).
    specialize (Hadv Hne).
    destruct (operator_eqb cur OP_CloseParenthesis) eqn:E2.
    + apply operator_eqb_eq in E2. right; left. split; auto.
      unfold fuel_needed, budget in *. lia.
    + right; right. split; [intros ->; discriminate|].
      unfold fuel_needed in *. lia.
Qed.

End Frames.

(** [ParseFormula] returns whenever it is given the budget it needs. *)
Lemma ParseFormula_returns libc fuel :
  forall PendingOperator st,
    fuel_needed st <= Z.of_nat fuel ->
    returns (ParseFormula libc fuel PendingOperator st)
            (call_post PendingOperator st).
Proof.
  induction fuel as [|k IH]; intros pend st Hfuel.
  - exfalso. unfold fuel_needed, remaining in Hfuel. lia.
  - cbn [ParseFormula]. apply ParseBody_returns; [|lia].
    intros pend' st' H. eapply returns_weaken; [apply IH; exact H|].
    now intros r [Hr _].
Qed.

Lemma evalform_returns libc f st :
  returns (evalform libc f st)
          (fun r => exists op,
               call_post OP_BeginLine (entry_state f st) (fst r, op, snd r)).
Proof.
  unfold evalform. fold (entry_state f st).
  eapply returns_bind.
  - apply ParseFormula_returns.
    unfold fuel_needed, budget, remaining, enough_fuel. simpl. lia.
  - intros [[v op] st4] H. apply returns_Done. now exists op.
Qed.

(** * The evaluator as a whole *)

(** [evalform] always returns: the budget never runs out and the process
    never exits, whatever the formula and the state it starts from. *)
Lemma evalform_total libc f st : exists v st', evalform libc f st = Done (v, st').
Proof.
  destruct (evalform_returns libc f st) as [[v st'] [E _]]. eauto.
Qed.

Lemma evalform_evolves libc f st :
  returns (evalform libc f st) (fun r => evolves (entry_state f st) (snd r)).
Proof.
  eapply returns_weaken; [apply evalform_returns|].
  intros [v st'] [op [[H _] _]]. exact H.
Qed.

Lemma top_level_operator c op :
  GetOperator c = Some op -> ApplyCriterion op OP_BeginLine = false ->
  op = OP_EndLine.
Proof.
  intros H Hc. destruct (GetOperator_range _ _ H) as [H1 H2].
  destruct op; try reflexivity; try discriminate; contradiction.
Qed.

Lemma no_nul_nul_last s : no_nul s = true -> nul_last (cstring s).
Proof.
  unfold no_nul, cstring. intros H pre post E.
  rewrite forallb_forall in H.
  revert pre E H. generalize (list_ascii_of_string s) as l.
  induction l as [|a l IH]; intros pre E H.
  - destruct pre as [|b pre]; simpl in E; inversion E; auto.
    destruct pre; discriminate.
  - destruct pre as [|b pre]; simpl in E; inversion E; subst.
    + specialize (H NUL (or_introl eq_refl)). discriminate.
    + apply (IH pre); auto. intros x Hx. apply H. now right.
Qed.

(** ** Examples of evaluation *)

Lemma eval_2_plus_3_times_4 libc st :
  evalform libc (cstring "2 + 3 * 4") st = Done (14%float, entry_state [] st).
Proof. destruct st. vm_compute. reflexivity. Qed.

Lemma eval_2_pow_3_pow_2 libc st :
  evalform libc (cstring "2 ^ 3 ^ 2") st
  = Done (c_pow libc (c_pow libc 2 3) 2, entry_state [] st).
Proof. destruct st, libc. vm_compute. reflexivity. Qed.

Lemma eval_2 libc st :
  evalform libc (cstring "2") st = Done (2%float, entry_state [] st).
Proof. destruct st. vm_compute. reflexivity. Qed.

Lemma eval_1_plus libc st :
  evalform libc (cstring "1+") st
  = Done (1%float, set_ErrorCode ERROR_operand (entry_state [NUL] st)).
Proof. destruct st. vm_compute. reflexivity. Qed.

Lemma eval_1_plus_2_close libc st :
  evalform libc (cstring "1+2)") st
  = Done (3%float,
          set_ErrorCode ERROR_closeparen
            (set_ParenthesisLevel (-1) (entry_state [NUL] st))).
Proof. destruct st. vm_compute. reflexivity. Qed.

Lemma eval_open_1_plus_2 libc st :
  evalform libc (cstring "(1+2") st
  = Done (0%float,
          set_ErrorCode ERROR_openparen
            (set_ParenthesisLevel 1 (entry_state [] st))).
Proof. destruct st. vm_compute. reflexivity. Qed.

Lemma eval_2_plus_1_div_0 libc st :
  evalform libc (cstring "2 + 1/0") st
  = Done (2%float,
          set_ErrorCode ERROR_division
            (set_DivisorValue 0%float (entry_state [] st))).
Proof. destruct st. vm_compute. reflexivity. Qed.

Lemma eval_1_div_0 libc st :
  evalform libc (cstring "1/0") st
  = Done (0%float,
          set_ErrorCode ERROR_division
            (set_DivisorValue 0%float (entry_state [] st))).
Proof. destruct st. vm_compute. reflexivity. Qed.

Lemma eval_1_div_4 libc st :
  evalform libc (cstring "1/4") st
  = Done (0.25%float, set_DivisorValue 4%float (entry_state [] st)).
Proof. destruct st. vm_compute. reflexivity. Qed.

Lemma operator_order :
  operator_rank OP_EndLine < operator_rank OP_BeginLine
  /\ operator_rank OP_BeginLine < operator_rank OP_CloseParenthesis
  /\ operator_rank OP_CloseParenthesis < operator_rank OP_OpenParenthesis
  /\ operator_rank OP_OpenParenthesis < operator_rank OP_Assignment
  /\ operator_rank OP_Assignment < operator_rank OP_Add
  /\ operator_rank OP_Add < operator_rank OP_Subtract
  /\ operator_rank OP_Subtract < operator_rank OP_Multiply
  /\ operator_rank OP_Multiply < operator_rank OP_Divide
  /\ operator_rank OP_Divide < operator_rank OP_RaisePower.
Proof. repeat split; reflexivity. Qed.

Lemma evalform_success_cursor libc s st :
  no_nul s = true ->
  returns (evalform libc (cstring s) st)
          (fun r => ErrorCode_m (snd r) = ERROR_none ->
                    FormulaString_m (snd r) = []).
Proof.
  intros Hs. eapply returns_weaken; [apply evalform_returns|].
  intros [v st'] [op [[_ Hpost] Hcrit]] He. simpl in *.
  destruct (Hpost He) as [[c Hc] [_ Hend]].
  apply Hend.
  - eapply top_level_operator; eauto.
  - simpl. now apply no_nul_nul_last.
Qed.

Lemma eval_chained_assignment libc :
  evalform (reliable libc) (cstring "a0 = a1 = a2 = sqrt(2)") initial_state
  = Done (c_sqrt libc 2,
          mkState [("A0"%string, c_sqrt libc 2); ("A1"%string, c_sqrt libc 2);
                   ("A2"%string, c_sqrt libc 2)]
                  [] "SQRT" 0%float 1 ERROR_none).
Proof. destruct libc. vm_compute. reflexivity. Qed.

Lemma eval_chained_assignment_existing libc :
  evalform (reliable libc) (cstring "a0 = a1 = a2 = sqrt(2)")
           (set_Variables [("X"%string, 1%float); ("A1"%string, 7%float)]
                          initial_state)
  = Done (c_sqrt libc 2,
          mkState [("X"%string, 1%float); ("A1"%string, c_sqrt libc 2);
                   ("A0"%string, c_sqrt libc 2); ("A2"%string, c_sqrt libc 2)]
                  [] "SQRT" 0%float 1 ERROR_none).
Proof. destruct libc. vm_compute. reflexivity. Qed.

Lemma ApplyCriterion_spec cur pend :
  ApplyCriterion cur pend = true <->
  (cur = OP_Assignment /\ operator_rank cur >= operator_rank pend)
  \/ (cur <> OP_Assignment /\ operator_rank cur > operator_rank pend).
Proof.
  unfold ApplyCriterion.
  destruct (operator_eqb cur OP_Assignment) eqn:E.
  - apply operator_eqb_eq in E. rewrite Z.leb_le. split.
    + intros H. left. split; [assumption | lia].
    + intros [[_ H]|[H _]]; [lia | contradiction].
  - assert (Hne : cur <> OP_Assignment).
    { intros ->. discriminate. }
    rewrite Z.ltb_lt. split.
    + intros H. right. split; [assumption | lia].
    + intros [[H _]|[_ H]]; [contradiction | lia].
Qed.

Lemma argument_ok_out_of_range fn x :
  argument_ok fn x = false <-> out_of_range fn x.
Proof.
  unfold out_of_range. split.
  - destruct fn; simpl; try discriminate.
    + destruct (PrimFloat.leb x 0) eqn:E; [|discriminate]. intros _.
      left. auto.
    + destruct (PrimFloat.leb x 0) eqn:E; [|discriminate]. intros _.
      left. auto.
    + destruct (PrimFloat.ltb x (-1)) eqn:E1; simpl.
      * intros _. right. auto.
      * destruct (PrimFloat.leb 1 x) eqn:E2; [|discriminate]. intros _.
        right. auto.
    + destruct (PrimFloat.ltb x (-1)) eqn:E1; simpl.
      * intros _. right. auto.
      * destruct (PrimFloat.leb 1 x) eqn:E2; [|discriminate]. intros _.
        right. auto.
    + destruct (PrimFloat.leb x 0) eqn:E; [|discriminate]. intros _.
      left. auto.
  - intros [[[->|[->| ->]] H]|[[->| ->] [H|H]]]; simpl; rewrite H; auto.
    all: now rewrite orb_true_r.
Qed.

(** ** Unfolding a call of [evalform] at its first operand *)

Lemma evalform_unfold libc f st :
  evalform libc f st
  = ('(ValueResult, _, st4) <-
       ParseBody libc (ParseFormula libc (2 * List.length f + 3))
                 (2 * List.length f + 3) OP_BeginLine (entry_state f st) ;;
     Done (ValueResult, st4)).
Proof.
  unfold evalform, enough_fuel.
  replace (2 * List.length f + 4)%nat with (S (2 * List.length f + 3)) by lia.
  reflexivity.
Qed.

Lemma ParseValue_unfold libc recurse st :
  ParseValue libc recurse st
  = (let f := operand_start (FormulaString_m st) in
     let st2 := set_FormulaString f st in
     r <- (if Ascii.eqb (deref f) "(" then ParseParenthetical recurse st2
           else if isdigit (deref f) || Ascii.eqb (deref f) "." then
             let (CurrentValue, f') := strtod f in
             Done (Operand CurrentValue NOTFOUND (set_FormulaString f' st2))
           else ParseName libc recurse st2) ;;
     match r with
     | EarlyReturn st3 => Done (EarlyReturn st3)
     | Operand CurrentValue VariableID st3 =>
         Done (Operand
                 (if Ascii.eqb (deref (SkipWhiteSpace (FormulaString_m st))) "-"
                  then (- CurrentValue)%float else CurrentValue)
                 VariableID st3)
     end).
Proof.
  unfold ParseValue, operand_start, advance.
  cbn [FormulaString_m set_FormulaString].
  destruct (Ascii.eqb (deref (SkipWhiteSpace (FormulaString_m st))) "-");
    [reflexivity|].
  destruct (Ascii.eqb (deref (SkipWhiteSpace (FormulaString_m st))) "+");
    reflexivity.
Qed.

Lemma name_start_not_other c :
  (is_upper c || is_lower c || Ascii.eqb c "%") = true ->
  Ascii.eqb c "(" = false /\ (isdigit c || Ascii.eqb c ".") = false.
Proof.
  destruct c as [[] [] [] [] [] [] [] []]; vm_compute; intros H;
    try discriminate; split; reflexivity.
Qed.

Lemma GetNextTokenLength_positive p :
  GetNextTokenLength p <> O ->
  Ascii.eqb (deref p) "(" = false
  /\ (isdigit (deref p) || Ascii.eqb (deref p) ".") = false.
Proof.
  unfold GetNextTokenLength. intros H. apply name_start_not_other.
  destruct (is_upper (deref p) || is_lower (deref p) || Ascii.eqb (deref p) "%");
    [reflexivity | now elim H].
Qed.

(** The first operand is a name: the value phase is [ParseName] on it. *)
Lemma ParseValue_name libc recurse st :
  GetNextTokenLength (operand_start (FormulaString_m st)) <> O ->
  ParseValue libc recurse st
  = (r <- ParseName libc recurse
            (set_FormulaString (operand_start (FormulaString_m st)) st) ;;
     match r with
     | EarlyReturn st3 => Done (EarlyReturn st3)
     | Operand CurrentValue VariableID st3 =>
         Done (Operand
                 (if Ascii.eqb (deref (SkipWhiteSpace (FormulaString_m st))) "-"
                  then (- CurrentValue)%float else CurrentValue)
                 VariableID st3)
     end).
Proof.
  intros H. rewrite ParseValue_unfold. cbv zeta.
  destruct (GetNextTokenLength_positive _ H) as [-> ->]. reflexivity.
Qed.

Lemma ParseName_too_long libc recurse st :
  (MAXTOKENLENGTH <= GetNextTokenLength (FormulaString_m st))%nat ->
  ParseName libc recurse st
  = Done (EarlyReturn (set_ErrorCode ERROR_variable_long st)).
Proof.
  intros H. unfold ParseName.
  destruct (GetNextTokenLength (FormulaString_m st) =? 0)%nat eqn:E0.
  - apply Nat.eqb_eq in E0. rewrite E0 in H. unfold MAXTOKENLENGTH in H. lia.
  - apply Nat.leb_le in H. now rewrite H.
Qed.

Lemma evalform_name_too_long libc f st :
  (MAXTOKENLENGTH <= GetNextTokenLength (operand_start f))%nat ->
  evalform libc f st
  = Done (DEFAULT_RETURN,
          set_ErrorCode ERROR_variable_long (entry_state (operand_start f) st)).
Proof.
  intros H. rewrite evalform_unfold. unfold ParseBody.
  rewrite ParseValue_name.
  2:{ simpl. unfold MAXTOKENLENGTH in H. lia. }
  rewrite ParseName_too_long; [reflexivity | exact H].
Qed.

Lemma evalform_table_ok libc f st :
  table_ok (Variables_m st) ->
  exists v st', evalform libc f st = Done (v, st')
                /\ table_ok (Variables_m st').
Proof.
  intros H. destruct (evalform_evolves libc f st) as [[v st'] [E Hev]].
  exists v, st'. split; [exact E|]. now apply (ev_table _ _ Hev).
Qed.

Lemma eval_name31 :
  evalform sample_clib (cstring name31) initial_state
  = Done (0%float,
          mkState [("AAAAAAAAAABBBBBBBBBBCCCCCCCCCCD"%string, 0%float)] []
                  "AAAAAAAAAABBBBBBBBBBCCCCCCCCCCD" 0%float 0 ERROR_none).
Proof. vm_compute. reflexivity. Qed.

(** ** The table at its capacity *)

Lemma AssignVariable_existing libc name v T :
  GetVariableID T name <> NOTFOUND ->
  AssignVariable libc name v T
  = (GetVariableID T name,
     store_value T (Z.to_nat (GetVariableID T name)) v).
Proof.
  intros H. unfold AssignVariable.
  destruct (GetVariableID T name =? NOTFOUND) eqn:E; [|reflexivity].
  apply Z.eqb_eq in E. contradiction.
Qed.

Lemma AssignVariable_full libc name v T :
  GetVariableID T name = NOTFOUND ->
  (MAXNUMBERVAR <= List.length T)%nat ->
  AssignVariable libc name v T = (NOROOM, T).
Proof.
  intros H Hfull. unfold AssignVariable. rewrite H. cbn [Z.eqb NOTFOUND].
  apply Nat.leb_le in Hfull. rewrite Hfull.
  reflexivity.
Qed.

Lemma AssignVariable_new libc name v T :
  GetVariableID T name = NOTFOUND ->
  (List.length T < MAXNUMBERVAR)%nat ->
  calloc_ok libc (String.length name + 1) = true ->
  AssignVariable libc name v T
  = (Z.of_nat (List.length T), T ++ [(name, v)]).
Proof.
  intros H Hroom Hheap. unfold AssignVariable. rewrite H. cbn [Z.eqb NOTFOUND].
  apply Nat.leb_gt in Hroom. rewrite Hroom, Hheap. reflexivity.
Qed.

Lemma load_store_value T i v :
  (i < List.length T)%nat -> load_value (store_value T i v) i = v.
Proof.
  unfold load_value. revert i.
  induction T as [|[n x] T IH]; intros [|i] H; simpl in *; try lia; auto.
  apply IH. lia.
Qed.

Lemma ParseName_existing libc recurse T f tok0 d lvl err :
  let n := GetNextTokenLength f in
  let tok := CopyUppercaseString f n in
  (0 < n < MAXTOKENLENGTH)%nat ->
  tok <> "%E"%string -> tok <> "%PI"%string ->
  LookupFunction tok = FUNC_err ->
  GetVariableID T tok <> NOTFOUND ->
  ParseName libc recurse (mkState T f tok0 d lvl err)
  = Done (Operand (load_value T (Z.to_nat (GetVariableID T tok)))
                  (GetVariableID T tok)
                  (mkState T (skipn n f) tok d lvl err)).
Proof.
  intros n tok [Hpos Hlt] HE HPI Hfn Hfound. unfold ParseName.
  cbn [TokenString_m FormulaString_m Variables_m set_TokenString
       set_FormulaString DivisorValue_m ParenthesisLevel_m ErrorCode_m].
  fold n.
  destruct (n =? 0)%nat eqn:E0; [apply Nat.eqb_eq in E0; lia|].
  destruct (MAXTOKENLENGTH <=? n)%nat eqn:E1; [apply Nat.leb_le in E1; lia|].
  fold tok.
  apply String.eqb_neq in HE, HPI. rewrite HE, HPI, Hfn.
  destruct (function_eq_dec FUNC_err FUNC_err) as [_|H]; [|now elim H].
  apply Z.eqb_neq in Hfound. rewrite Hfound. reflexivity.
Qed.

Lemma ParseName_table_full libc recurse st :
  let n := GetNextTokenLength (FormulaString_m st) in
  let tok := CopyUppercaseString (FormulaString_m st) n in
  (0 < n < MAXTOKENLENGTH)%nat ->
  tok <> "%E"%string -> tok <> "%PI"%string ->
  LookupFunction tok = FUNC_err ->
  GetVariableID (Variables_m st) tok = NOTFOUND ->
  (MAXNUMBERVAR <= List.length (Variables_m st))%nat ->
  ParseName libc recurse st
  = Done (EarlyReturn
            (set_ErrorCode ERROR_variable_full
               (set_FormulaString (skipn n (FormulaString_m st))
                                  (set_TokenString tok st)))).
Proof.
  intros n tok [Hpos Hlt] HE HPI Hfn Hnew Hfull. unfold ParseName.
  fold n. 
  destruct (n =? 0)%nat eqn:E0; [apply Nat.eqb_eq in E0; lia|].
  destruct (MAXTOKENLENGTH <=? n)%nat eqn:E1; [apply Nat.leb_le in E1; lia|].
  cbn [TokenString_m FormulaString_m Variables_m set_TokenString
       set_FormulaString].
  fold tok.
  apply String.eqb_neq in HE, HPI. rewrite HE, HPI, Hfn.
  destruct (function_eq_dec FUNC_err FUNC_err) as [_|H]; [|now elim H].
  rewrite Hnew. cbn [Z.eqb NOTFOUND].
  rewrite (AssignVariable_full libc tok 0%float _ Hnew Hfull).
  reflexivity.
Qed.

Lemma evalform_table_full libc f st :
  (0 < GetNextTokenLength (operand_start f) < MAXTOKENLENGTH)%nat ->
  leading_token f <> "%E"%string -> leading_token f <> "%PI"%string ->
  LookupFunction (leading_token f) = FUNC_err ->
  GetVariableID (Variables_m st) (leading_token f) = NOTFOUND ->
  (MAXNUMBERVAR <= List.length (Variables_m st))%nat ->
  evalform libc f st
  = Done (DEFAULT_RETURN,
          set_ErrorCode ERROR_variable_full
            (set_TokenString (leading_token f)
               (entry_state
                  (skipn (GetNextTokenLength (operand_start f))
                         (operand_start f)) st))).
Proof.
  intros Hlen HE HPI Hfn Hnew Hfull. rewrite evalform_unfold. unfold ParseBody.
  rewrite ParseValue_name.
  2:{ simpl. lia. }
  rewrite ParseName_table_full; auto.
Qed.

Lemma eval_129th_name libc :
  let st128 := create_variables (reliable libc) 128 initial_state in
  List.length (Variables_m st128) = 128%nat
  /\ map fst (Variables_m st128) = map variable_name (seq 0 128)
  /\ nodup string_dec (map variable_name (seq 0 128))
     = map variable_name (seq 0 128)
  /\ evalform (reliable libc) (cstring "zz") st128
     = Done (0%float,
             set_ErrorCode ERROR_variable_full
               (set_TokenString "ZZ" (entry_state [NUL] st128)))
  /\ evalform (reliable libc) (cstring "ab = 5") st128
     = Done (5%float,
             set_Variables (store_value (Variables_m st128) 1 5%float)
               (set_TokenString "AB" (entry_state [] st128)))
  /\ evalform (reliable libc) (cstring "ab")
              (set_Variables (store_value (Variables_m st128) 1 5%float) st128)
     = Done (5%float,
             set_Variables (store_value (Variables_m st128) 1 5%float)
               (set_TokenString "AB" (entry_state [] st128))).
Proof. destruct libc. vm_compute. repeat split. Qed.

(** ** Names that are not functions *)

Lemma find_variable_app_new T name v i :
  0 <= i ->
  find_variable T name i = NOTFOUND ->
  find_variable (T ++ [(name, v)]) name i = i + Z.of_nat (List.length T).
Proof.
  revert i. induction T as [|[n x] T IH]; intros i Hi H.
  - simpl. rewrite String.eqb_refl. lia.
  - simpl in H. cbn [app find_variable].
    destruct (String.eqb n name).
    + unfold NOTFOUND in H. lia.
    + rewrite IH; [|lia|exact H]. cbn [List.length]. lia.
Qed.

Lemma ParseName_variable libc recurse st :
  let n := GetNextTokenLength (FormulaString_m st) in
  let tok := CopyUppercaseString (FormulaString_m st) n in
  (0 < n < MAXTOKENLENGTH)%nat ->
  tok <> "%E"%string -> tok <> "%PI"%string ->
  LookupFunction tok = FUNC_err ->
  match ParseName libc recurse st with
  | Done (Operand v id st') =>
      id = GetVariableID (Variables_m st') tok
      /\ id <> NOTFOUND
      /\ v = load_value (Variables_m st') (Z.to_nat id)
      /\ ErrorCode_m st' = ErrorCode_m st
  | Done (EarlyReturn st') =>
      (ErrorCode_m st' = ERROR_variable_full
       \/ ErrorCode_m st' = ERROR_heap_full)
      /\ Variables_m st' = Variables_m st
  | _ => False
  end.
Proof.
  intros n tok [Hpos Hlt] HE HPI Hfn. unfold ParseName. fold n.
  destruct (n =? 0)%nat eqn:E0; [apply Nat.eqb_eq in E0; lia|].
  destruct (MAXTOKENLENGTH <=? n)%nat eqn:E1; [apply Nat.leb_le in E1; lia|].
  cbn [TokenString_m FormulaString_m Variables_m set_TokenString
       set_FormulaString].
  fold tok.
  apply String.eqb_neq in HE, HPI. rewrite HE, HPI, Hfn.
  destruct (function_eq_dec FUNC_err FUNC_err) as [_|H]; [|now elim H].
  destruct (GetVariableID (Variables_m st) tok =? NOTFOUND) eqn:Ef.
  - apply Z.eqb_eq in Ef.
    destruct (MAXNUMBERVAR <=? List.length (Variables_m st))%nat eqn:Efull.
    { apply Nat.leb_le in Efull.
      rewrite (AssignVariable_full libc tok 0%float _ Ef Efull).
      cbn. auto. }
    apply Nat.leb_gt in Efull.
    destruct (calloc_ok libc (String.length tok + 1)) eqn:Eheap.
    2:{ unfold AssignVariable. rewrite Ef, Z.eqb_refl.
        apply Nat.leb_gt in Efull. rewrite Efull, Eheap. cbn. auto. }
    rewrite (AssignVariable_new libc tok 0%float _ Ef Efull Eheap).
    assert (Hid : GetVariableID (Variables_m st ++ [(tok, 0%float)]) tok
                  = Z.of_nat (List.length (Variables_m st))).
    { unfold GetVariableID. rewrite find_variable_app_new; [lia|lia|exact Ef]. }
    destruct (Z.of_nat (List.length (Variables_m st)) =? NOROOM) eqn:E2.
    { apply Z.eqb_eq in E2. unfold NOROOM in E2. lia. }
    destruct (Z.of_nat (List.length (Variables_m st)) =? NOHEAP) eqn:E3.
    { apply Z.eqb_eq in E3. unfold NOHEAP in E3. lia. }
    cbn [Variables_m set_Variables ErrorCode_m].
    rewrite Hid. repeat split. unfold NOTFOUND. lia.
  - apply Z.eqb_neq in Ef.
    cbn [Variables_m ErrorCode_m]. repeat split. exact Ef.
Qed.

(** ** Blank formulas *)

Lemma SkipWhiteSpace_blank ws rest :
  blank ws -> SkipWhiteSpace (ws ++ rest) = SkipWhiteSpace rest.
Proof.
  unfold blank. induction ws as [|c ws IH]; simpl; intros H; auto.
  apply andb_prop in H. destruct H as [Hc Hws]. rewrite Hc. now apply IH.
Qed.

Lemma operand_start_blank ws : blank ws -> operand_start (ws ++ [NUL]) = [NUL].
Proof.
  intros H. unfold operand_start. rewrite (SkipWhiteSpace_blank ws [NUL] H).
  reflexivity.
Qed.

Lemma evalform_blank libc ws st :
  blank ws ->
  evalform libc (ws ++ [NUL]) st
  = Done (DEFAULT_RETURN, set_ErrorCode ERROR_operand (entry_state [NUL] st)).
Proof.
  intros H. rewrite evalform_unfold. unfold ParseBody.
  rewrite ParseValue_unfold.
  cbn [FormulaString_m entry_state set_FormulaString].
  rewrite (operand_start_blank ws H). reflexivity.
Qed.

(** ** Assignment to a variable, on any table *)

Lemma find_variable_extend T T' new name i :
  map fst T' = map fst T ++ new ->
  find_variable T name i <> NOTFOUND ->
  find_variable T' name i = find_variable T name i.
Proof.
  revert T' i. induction T as [|[n x] T IH]; intros T' i E H.
  - now elim H.
  - destruct T' as [|[n' x'] T']; [discriminate|].
    simpl in E. inversion E; subst. simpl in *.
    destruct (String.eqb n name); [reflexivity|]. now apply IH.
Qed.

Lemma GetVariableID_extend T T' new name :
  map fst T' = map fst T ++ new ->
  GetVariableID T name <> NOTFOUND ->
  GetVariableID T' name = GetVariableID T name.
Proof. apply find_variable_extend. Qed.

Lemma GetVariableID_range T name :
  GetVariableID T name <> NOTFOUND ->
  0 <= GetVariableID T name < Z.of_nat (List.length T).
Proof.
  intros H. destruct (find_variable_range T name 0 (Z.le_refl 0)) as [E|E];
    [now elim H | exact E].
Qed.

Lemma ensure_variable_names T name :
  exists new, map fst (ensure_variable T name) = map fst T ++ new.
Proof.
  unfold ensure_variable. destruct (GetVariableID T name =? NOTFOUND).
  - exists [name]. now rewrite map_app.
  - exists []. now rewrite app_nil_r.
Qed.

Lemma ensure_variable_length T name :
  (List.length T <= List.length (ensure_variable T name) <= List.length T + 1)%nat.
Proof.
  unfold ensure_variable. destruct (GetVariableID T name =? NOTFOUND).
  - rewrite length_app. simpl. lia.
  - lia.
Qed.

Lemma ensure_variable_found T name :
  GetVariableID (ensure_variable T name) name <> NOTFOUND.
Proof.
  unfold ensure_variable.
  destruct (GetVariableID T name =? NOTFOUND) eqn:E.
  - apply Z.eqb_eq in E. unfold GetVariableID.
    rewrite find_variable_app_new; [|lia|exact E]. unfold NOTFOUND. lia.
  - now apply Z.eqb_neq in E.
Qed.

Lemma load_store_value_other T i j v :
  i <> j -> load_value (store_value T i v) j = load_value T j.
Proof.
  unfold load_value. revert i j.
  induction T as [|[n x] T IH]; intros [|i] [|j] H; simpl; auto.
  now elim H.
Qed.

Lemma lookup_value_store_same T name v :
  GetVariableID T name <> NOTFOUND ->
  lookup_value (store_value T (Z.to_nat (GetVariableID T name)) v) name = Some v.
Proof.
  intros H. pose proof (GetVariableID_range T name H) as Hr.
  unfold lookup_value.
  assert (E : GetVariableID (store_value T (Z.to_nat (GetVariableID T name)) v)
                            name = GetVariableID T name).
  { apply GetVariableID_extend with (new := []); [|exact H].
    now rewrite store_value_names, app_nil_r. }
  rewrite E. apply Z.eqb_neq in H. rewrite H.
  rewrite load_store_value; [reflexivity | lia].
Qed.

Lemma lookup_value_store_kept T name i v :
  lookup_value T name = Some v ->
  lookup_value (store_value T i v) name = Some v.
Proof.
  unfold lookup_value. intros H.
  destruct (GetVariableID T name =? NOTFOUND) eqn:E; [discriminate|].
  apply Z.eqb_neq in E. pose proof (GetVariableID_range T name E) as Hr.
  assert (E' : GetVariableID (store_value T i v) name = GetVariableID T name).
  { apply GetVariableID_extend with (new := []); [|exact E].
    now rewrite store_value_names, app_nil_r. }
  rewrite E'. apply Z.eqb_neq in E. rewrite E.
  destruct (Nat.eq_dec i (Z.to_nat (GetVariableID T name))) as [->|Hne].
  - rewrite load_store_value; [reflexivity | lia].
  - rewrite load_store_value_other; assumption.
Qed.

(** [ParseName] on a variable, when the table has the name or can take it. *)
Lemma ParseName_variable_eq libc recurse T f tok0 d lvl err :
  let n := GetNextTokenLength f in
  let tok := CopyUppercaseString f n in
  (0 < n < MAXTOKENLENGTH)%nat ->
  tok <> "%E"%string -> tok <> "%PI"%string ->
  LookupFunction tok = FUNC_err ->
  (List.length T < MAXNUMBERVAR)%nat ->
  calloc_ok libc (String.length tok + 1) = true ->
  ParseName libc recurse (mkState T f tok0 d lvl err)
  = Done (Operand
            (load_value (ensure_variable T tok)
               (Z.to_nat (GetVariableID (ensure_variable T tok) tok)))
            (GetVariableID (ensure_variable T tok) tok)
            (mkState (ensure_variable T tok) (skipn n f) tok d lvl err)).
Proof.
  intros n tok [Hpos Hlt] HE HPI Hfn Hroom Hheap. unfold ParseName.
  cbn [TokenString_m FormulaString_m Variables_m set_TokenString
       set_FormulaString DivisorValue_m ParenthesisLevel_m ErrorCode_m].
  fold n.
  destruct (n =? 0)%nat eqn:E0; [apply Nat.eqb_eq in E0; lia|].
  destruct (MAXTOKENLENGTH <=? n)%nat eqn:E1; [apply Nat.leb_le in E1; lia|].
  fold tok.
  apply String.eqb_neq in HE, HPI. rewrite HE, HPI, Hfn.
  destruct (function_eq_dec FUNC_err FUNC_err) as [_|H]; [|now elim H].
  unfold ensure_variable.
  destruct (GetVariableID T tok =? NOTFOUND) eqn:Ef; [|reflexivity].
  apply Z.eqb_eq in Ef.
  rewrite (AssignVariable_new libc tok 0%float T Ef Hroom Hheap).
  assert (Hid : GetVariableID (T ++ [(tok, 0%float)]) tok
                = Z.of_nat (List.length T)).
  { unfold GetVariableID. rewrite find_variable_app_new; [lia|lia|exact Ef]. }
  rewrite Hid.
  destruct (Z.of_nat (List.length T) =? NOROOM) eqn:E2.
  { apply Z.eqb_eq in E2. unfold NOROOM in E2. lia. }
  destruct (Z.of_nat (List.length T) =? NOHEAP) eqn:E3.
  { apply Z.eqb_eq in E3. unfold NOHEAP in E3. lia. }
  reflexivity.
Qed.

(** One activation that reads [name =], calls itself for the right-hand
    side, stores what the call returns and stops there. *)
Lemma ParseBody_assignment libc recurse n pend T f tok0 d lvl v op st1 :
  let f0 := operand_start f in
  let n0 := GetNextTokenLength f0 in
  let tok := CopyUppercaseString f0 n0 in
  let T1 := ensure_variable T tok in
  (0 < n0 < MAXTOKENLENGTH)%nat ->
  tok <> "%E"%string -> tok <> "%PI"%string ->
  LookupFunction tok = FUNC_err ->
  (List.length T < MAXNUMBERVAR)%nat ->
  calloc_ok libc (String.length tok + 1) = true ->
  GetOperator (deref (SkipWhiteSpace (skipn n0 f0))) = Some OP_Assignment ->
  ApplyCriterion OP_Assignment pend = true ->
  recurse OP_Assignment
          (mkState T1 (tl (SkipWhiteSpace (skipn n0 f0))) tok d lvl ERROR_none)
  = Done (v, op, st1) ->
  (ErrorCode_m st1 = ERROR_none -> ApplyCriterion op pend = false) ->
  ParseBody libc recurse (S (S n)) pend (mkState T f tok0 d lvl ERROR_none)
  = Done (v, op,
          set_Variables
            (store_value (Variables_m st1)
                         (Z.to_nat (GetVariableID T1 tok)) v) st1).
Proof.
  intros f0 n0 tok T1 Hlen HE HPI Hfn Hroom Hheap Hop Hcrit Hrec Hstop.
  unfold ParseBody. rewrite ParseValue_name.
  2:{ cbn [FormulaString_m]. fold f0 n0. lia. }
  cbn [FormulaString_m]. fold f0.
  change (set_FormulaString f0 (mkState T f tok0 d lvl ERROR_none))
    with (mkState T f0 tok0 d lvl ERROR_none).
  rewrite (ParseName_variable_eq libc recurse T f0 tok0 d lvl ERROR_none
             Hlen HE HPI Hfn Hroom Hheap).
  fold n0 tok T1. cbn [bind FormulaString_m].
  change (FormulaString_m
            (set_FormulaString (SkipWhiteSpace (skipn n0 f0))
               (mkState T1 (skipn n0 f0) tok d lvl ERROR_none)))
    with (SkipWhiteSpace (skipn n0 f0)).
  rewrite Hop.
  change (advance
            (set_FormulaString (SkipWhiteSpace (skipn n0 f0))
               (mkState T1 (skipn n0 f0) tok d lvl ERROR_none)))
    with (mkState T1 (tl (SkipWhiteSpace (skipn n0 f0))) tok d lvl ERROR_none).
  cbn [ApplyLoop ErrorCode_m].
  change (errorcode_eqb ERROR_none ERROR_none) with true. cbv iota.
  rewrite Hcrit.
  pose proof (ensure_variable_found T tok) as Hfound. fold T1 in Hfound.
  apply Z.eqb_neq in Hfound. rewrite Hfound.
  rewrite Hrec. cbn [bind].
  destruct (errorcode_eqb
              (ErrorCode_m
                 (set_Variables
                    (store_value (Variables_m st1)
                       (Z.to_nat (GetVariableID T1 tok)) v) st1))
              ERROR_none) eqn:He; [|reflexivity].
  apply errorcode_eqb_eq in He. cbn [ErrorCode_m set_Variables] in He.
  rewrite (Hstop He). reflexivity.
Qed.

Lemma lookup_value_after_store T T' new name v :
  map fst T' = map fst T ++ new ->
  GetVariableID T name <> NOTFOUND ->
  lookup_value (store_value T' (Z.to_nat (GetVariableID T name)) v) name
  = Some v.
Proof.
  intros E H. rewrite <- (GetVariableID_extend T T' new name E H).
  apply lookup_value_store_same.
  rewrite (GetVariableID_extend T T' new name E H). exact H.
Qed.

Section ChainedAssignment.

Variable libc : clib.

Local Abbreviation v := (c_sqrt libc 2).

Lemma chain_right_hand_side T tok d lvl :
  ParseFormula (reliable libc) 47 OP_Assignment
               (mkState T (cstring " sqrt(2)") tok d lvl ERROR_none)
  = Done (v, OP_EndLine, mkState T [] "SQRT" d (lvl + 1) ERROR_none).
Proof. destruct libc. vm_compute. reflexivity. Qed.

Lemma chain_third T tok d lvl :
  (List.length T < MAXNUMBERVAR)%nat ->
  let T3 := ensure_variable T "A2" in
  ParseFormula (reliable libc) 48 OP_Assignment
               (mkState T (cstring " a2 = sqrt(2)") tok d lvl ERROR_none)
  = Done (v, OP_EndLine,
          mkState (store_value T3 (Z.to_nat (GetVariableID T3 "A2")) v)
                  [] "SQRT" d (lvl + 1) ERROR_none).
Proof.
  intros Hroom T3.
  change (ParseFormula (reliable libc) 48 OP_Assignment
            (mkState T (cstring " a2 = sqrt(2)") tok d lvl ERROR_none))
    with (ParseBody (reliable libc) (ParseFormula (reliable libc) 47) 47
            OP_Assignment
            (mkState T (cstring " a2 = sqrt(2)") tok d lvl ERROR_none)).
  rewrite (ParseBody_assignment (reliable libc)
             (ParseFormula (reliable libc) 47) 45 OP_Assignment T
             (cstring " a2 = sqrt(2)") tok d lvl v OP_EndLine
             (mkState T3 [] "SQRT" d (lvl + 1) ERROR_none)).
  - reflexivity.
  - vm_compute. lia.
  - vm_compute. discriminate.
  - vm_compute. discriminate.
  - reflexivity.
  - exact Hroom.
  - reflexivity.
  - reflexivity.
  - reflexivity.
  - apply chain_right_hand_side.
  - reflexivity.
Qed.

Lemma chain_second T tok d lvl :
  (List.length T + 1 < MAXNUMBERVAR)%nat ->
  let T2 := ensure_variable T "A1" in
  let T3 := ensure_variable T2 "A2" in
  ParseFormula (reliable libc) 49 OP_Assignment
               (mkState T (cstring " a1 = a2 = sqrt(2)") tok d lvl ERROR_none)
  = Done (v, OP_EndLine,
          mkState (store_value
                     (store_value T3 (Z.to_nat (GetVariableID T3 "A2")) v)
                     (Z.to_nat (GetVariableID T2 "A1")) v)
                  [] "SQRT" d (lvl + 1) ERROR_none).
Proof.
  intros Hroom T2 T3.
  change (ParseFormula (reliable libc) 49 OP_Assignment
            (mkState T (cstring " a1 = a2 = sqrt(2)") tok d lvl ERROR_none))
    with (ParseBody (reliable libc) (ParseFormula (reliable libc) 48) 48
            OP_Assignment
            (mkState T (cstring " a1 = a2 = sqrt(2)") tok d lvl ERROR_none)).
  rewrite (ParseBody_assignment (reliable libc)
             (ParseFormula (reliable libc) 48) 46 OP_Assignment T
             (cstring " a1 = a2 = sqrt(2)") tok d lvl v OP_EndLine
             (mkState (store_value T3 (Z.to_nat (GetVariableID T3 "A2")) v)
                      [] "SQRT" d (lvl + 1) ERROR_none)).
  - reflexivity.
  - vm_compute. lia.
  - vm_compute. discriminate.
  - vm_compute. discriminate.
  - reflexivity.
  - lia.
  - reflexivity.
  - reflexivity.
  - reflexivity.
  - apply (chain_third T2 "A1" d lvl).
    pose proof (ensure_variable_length T "A1"). fold T2 in H. lia.
  - reflexivity.
Qed.

Lemma chain_first T f0 tok d lvl err :
  (List.length T + 2 < MAXNUMBERVAR)%nat ->
  let T1 := ensure_variable T "A0" in
  let T2 := ensure_variable T1 "A1" in
  let T3 := ensure_variable T2 "A2" in
  evalform (reliable libc) (cstring "a0 = a1 = a2 = sqrt(2)")
           (mkState T f0 tok d lvl err)
  = Done (v,
          mkState (store_value
                     (store_value
                        (store_value T3 (Z.to_nat (GetVariableID T3 "A2")) v)
                        (Z.to_nat (GetVariableID T2 "A1")) v)
                     (Z.to_nat (GetVariableID T1 "A0")) v)
                  [] "SQRT" d 1 ERROR_none).
Proof.
  intros Hroom T1 T2 T3. rewrite evalform_unfold.
  change (entry_state (cstring "a0 = a1 = a2 = sqrt(2)")
                      (mkState T f0 tok d lvl err))
    with (mkState T (cstring "a0 = a1 = a2 = sqrt(2)") tok d 0 ERROR_none).
  change (2 * List.length (cstring "a0 = a1 = a2 = sqrt(2)") + 3)%nat
    with 49%nat.
  rewrite (ParseBody_assignment (reliable libc)
             (ParseFormula (reliable libc) 49) 47 OP_BeginLine T
             (cstring "a0 = a1 = a2 = sqrt(2)") tok d 0 v OP_EndLine
             (mkState (store_value
                         (store_value T3 (Z.to_nat (GetVariableID T3 "A2")) v)
                         (Z.to_nat (GetVariableID T2 "A1")) v)
                      [] "SQRT" d 1 ERROR_none)).
  - reflexivity.
  - vm_compute. lia.
  - vm_compute. discriminate.
  - vm_compute. discriminate.
  - reflexivity.
  - lia.
  - reflexivity.
  - reflexivity.
  - reflexivity.
  - apply (chain_second T1 "A0" d 0).
    pose proof (ensure_variable_length T "A0"). fold T1 in H. lia.
  - reflexivity.
Qed.

Lemma chain_lookups T :
  let T1 := ensure_variable T "A0" in
  let T2 := ensure_variable T1 "A1" in
  let T3 := ensure_variable T2 "A2" in
  let U := store_value
             (store_value
                (store_value T3 (Z.to_nat (GetVariableID T3 "A2")) v)
                (Z.to_nat (GetVariableID T2 "A1")) v)
             (Z.to_nat (GetVariableID T1 "A0")) v in
  lookup_value U "A0" = Some v
  /\ lookup_value U "A1" = Some v
  /\ lookup_value U "A2" = Some v
  /\ (List.length U <= List.length T + 3)%nat
  /\ exists new, map fst U = map fst T ++ new.
Proof.
  intros T1 T2 T3 U.
  destruct (ensure_variable_names T "A0") as [n1 N1]. fold T1 in N1.
  destruct (ensure_variable_names T1 "A1") as [n2 N2]. fold T2 in N2.
  destruct (ensure_variable_names T2 "A2") as [n3 N3]. fold T3 in N3.
  pose proof (ensure_variable_found T "A0") as F1. fold T1 in F1.
  pose proof (ensure_variable_found T1 "A1") as F2. fold T2 in F2.
  pose proof (ensure_variable_found T2 "A2") as F3. fold T3 in F3.
  split; [|split; [|split; [|split]]].
  - subst U. apply lookup_value_after_store with (new := n2 ++ n3); [|exact F1].
    rewrite !store_value_names, N3, N2. now rewrite app_assoc.
  - subst U. apply lookup_value_store_kept.
    apply lookup_value_after_store with (new := n3); [|exact F2].
    now rewrite store_value_names, N3.
  - subst U. do 2 apply lookup_value_store_kept.
    apply lookup_value_after_store with (new := []); [|exact F3].
    now rewrite app_nil_r.
  - subst U. rewrite !store_value_length.
    pose proof (ensure_variable_length T "A0") as L1. fold T1 in L1.
    pose proof (ensure_variable_length T1 "A1") as L2. fold T2 in L2.
    pose proof (ensure_variable_length T2 "A2") as L3. fold T3 in L3.
    lia.
  - exists (n1 ++ n2 ++ n3). subst U.
    rewrite !store_value_names, N3, N2, N1. now rewrite !app_assoc.
Qed.

End ChainedAssignment.

(** A name of 32 characters in a later operand position: the variable
    read before it has been created by then, and a division it is the
    right-hand side of replaces its error code. *)
Lemma eval_long_name_after_variable :
  evalform sample_clib (cstring ("x + " ++ name32)) initial_state
  = Done (0%float,
          mkState [("X"%string, 0%float)] (cstring name32) "X" 0%float 0
                  ERROR_variable_long).
Proof. vm_compute. reflexivity. Qed.

Lemma eval_long_name_as_divisor :
  evalform sample_clib (cstring ("1/" ++ name32)) initial_state
  = Done (0%float,
          mkState [] (cstring name32) EmptyString 0%float 0 ERROR_division).
Proof. vm_compute. reflexivity. Qed.

(** ** A name that is no constant and no function *)

(** The names of the constants and of the functions have at most five
    characters. *)
Lemma long_token_not_function tok :
  (5 < String.length tok)%nat ->
  tok <> "%E"%string /\ tok <> "%PI"%string /\ LookupFunction tok = FUNC_err.
Proof.
  intros H. split; [|split].
  - intros ->. cbn in H. lia.
  - intros ->. cbn in H. lia.
  - unfold LookupFunction.
    repeat match goal with
           | |- context [String.eqb tok ?name] =>
               destruct (String.eqb_spec tok name) as [E|_];
               [rewrite E in H; cbn in H; lia|]
           end.
    reflexivity.
Qed.

(** What [ParseName] leaves once the token has been copied and skipped. *)
Lemma ParseName_found libc recurse st :
  let n := GetNextTokenLength (FormulaString_m st) in
  let tok := CopyUppercaseString (FormulaString_m st) n in
  let st2 := set_FormulaString (skipn n (FormulaString_m st))
               (set_TokenString tok st) in
  (0 < n < MAXTOKENLENGTH)%nat ->
  tok <> "%E"%string -> tok <> "%PI"%string ->
  LookupFunction tok = FUNC_err ->
  GetVariableID (Variables_m st) tok <> NOTFOUND ->
  ParseName libc recurse st
  = Done (Operand
            (load_value (Variables_m st)
               (Z.to_nat (GetVariableID (Variables_m st) tok)))
            (GetVariableID (Variables_m st) tok) st2).
Proof.
  destruct st as [T f tok0 d lvl err]. cbv zeta.
  cbn [FormulaString_m Variables_m]. intros Hlen HE HPI Hfn Hfound.
  apply (ParseName_existing libc recurse T f tok0 d lvl err Hlen HE HPI Hfn
           Hfound).
Qed.

Lemma ParseName_created libc recurse st :
  let n := GetNextTokenLength (FormulaString_m st) in
  let tok := CopyUppercaseString (FormulaString_m st) n in
  let st2 := set_FormulaString (skipn n (FormulaString_m st))
               (set_TokenString tok st) in
  (0 < n < MAXTOKENLENGTH)%nat ->
  tok <> "%E"%string -> tok <> "%PI"%string ->
  LookupFunction tok = FUNC_err ->
  GetVariableID (Variables_m st) tok = NOTFOUND ->
  (List.length (Variables_m st) < MAXNUMBERVAR)%nat ->
  calloc_ok libc (String.length tok + 1) = true ->
  ParseName libc recurse st
  = Done (Operand 0%float (Z.of_nat (List.length (Variables_m st)))
            (set_Variables (Variables_m st ++ [(tok, 0%float)]) st2)).
Proof.
  destruct st as [T f tok0 d lvl err]. cbv zeta.
  cbn [FormulaString_m Variables_m]. intros Hlen HE HPI Hfn Hnew Hroom Hheap.
  rewrite (ParseName_variable_eq libc recurse T f tok0 d lvl err Hlen HE HPI
             Hfn Hroom Hheap).
  set (tok := CopyUppercaseString f (GetNextTokenLength f)) in *.
  unfold ensure_variable. rewrite Hnew.
  change (NOTFOUND =? NOTFOUND) with true. cbv iota.
  assert (Hid : GetVariableID (T ++ [(tok, 0%float)]) tok
                = Z.of_nat (List.length T)).
  { unfold GetVariableID. rewrite find_variable_app_new; [lia|lia|exact Hnew]. }
  rewrite Hid, Nat2Z.id. unfold load_value.
  rewrite app_nth2, Nat.sub_diag by lia. reflexivity.
Qed.

Lemma ParseName_heap_full libc recurse st :
  let n := GetNextTokenLength (FormulaString_m st) in
  let tok := CopyUppercaseString (FormulaString_m st) n in
  (0 < n < MAXTOKENLENGTH)%nat ->
  tok <> "%E"%string -> tok <> "%PI"%string ->
  LookupFunction tok = FUNC_err ->
  GetVariableID (Variables_m st) tok = NOTFOUND ->
  (List.length (Variables_m st) < MAXNUMBERVAR)%nat ->
  calloc_ok libc (String.length tok + 1) = false ->
  ParseName libc recurse st
  = Done (EarlyReturn
            (set_ErrorCode ERROR_heap_full
               (set_FormulaString (skipn n (FormulaString_m st))
                                  (set_TokenString tok st)))).
Proof.
  intros n tok [Hpos Hlt] HE HPI Hfn Hnew Hroom Hheap. unfold ParseName.
  fold n.
  destruct (n =? 0)%nat eqn:E0; [apply Nat.eqb_eq in E0; lia|].
  destruct (MAXTOKENLENGTH <=? n)%nat eqn:E1; [apply Nat.leb_le in E1; lia|].
  cbn [TokenString_m FormulaString_m Variables_m set_TokenString
       set_FormulaString].
  fold tok.
  apply String.eqb_neq in HE, HPI. rewrite HE, HPI, Hfn.
  destruct (function_eq_dec FUNC_err FUNC_err) as [_|H]; [|now elim H].
  rewrite Hnew. cbn [Z.eqb NOTFOUND].
  unfold AssignVariable. rewrite Hnew. cbn [Z.eqb NOTFOUND].
  apply Nat.leb_gt in Hroom. rewrite Hroom, Hheap. reflexivity.
Qed.

Lemma evalform_fuel (f : list ascii) :
  exists k, (2 * List.length f + 3 = S (S (S k)))%nat.
Proof. exists (2 * List.length f)%nat. lia. Qed.

Lemma ApplyLoop_EndLine libc recurse n v id st :
  ApplyLoop libc recurse (S n) OP_BeginLine OP_EndLine v id st
  = Done (v, OP_EndLine, st).
Proof.
  cbn [ApplyLoop]. rewrite ApplyCriterion_EndLine.
  destruct (errorcode_eqb (ErrorCode_m st) ERROR_none); reflexivity.
Qed.

(** A formula that is one variable name and nothing else: the name is read
    where the table has it and created where it can be. *)
Lemma evalform_lone_name libc f st :
  let n := GetNextTokenLength (operand_start f) in
  let tok := leading_token f in
  (0 < n < MAXTOKENLENGTH)%nat ->
  tok <> "%E"%string -> tok <> "%PI"%string ->
  LookupFunction tok = FUNC_err ->
  SkipWhiteSpace (skipn n (operand_start f)) = [NUL] ->
  GetVariableID (Variables_m st) tok <> NOTFOUND
  \/ ((List.length (Variables_m st) < MAXNUMBERVAR)%nat
      /\ calloc_ok libc (String.length tok + 1) = true) ->
  exists v st',
    evalform libc f st = Done (unary_sign f v, st')
    /\ ErrorCode_m st' = ERROR_none
    /\ FormulaString_m st' = []
    /\ Variables_m st' = ensure_variable (Variables_m st) tok
    /\ lookup_value (Variables_m st') tok = Some v.
Proof.
  intros n tok Hlen HE HPI Hfn Hend Hcase.
  rewrite evalform_unfold. unfold ParseBody. rewrite ParseValue_name.
  2:{ cbn [FormulaString_m entry_state set_FormulaString]. fold n. lia. }
  change (FormulaString_m (entry_state f st)) with f.
  set (st0 := set_FormulaString (operand_start f) (entry_state f st)).
  assert (Hn : GetNextTokenLength (FormulaString_m st0) = n) by reflexivity.
  assert (Htok : CopyUppercaseString (FormulaString_m st0)
                   (GetNextTokenLength (FormulaString_m st0)) = tok)
    by reflexivity.
  assert (HT : Variables_m st0 = Variables_m st) by reflexivity.
  assert (Hloop : forall v id st3,
             FormulaString_m st3 = skipn n (operand_start f) ->
             (match GetOperator
                      (deref (FormulaString_m
                                (set_FormulaString
                                   (SkipWhiteSpace (FormulaString_m st3)) st3)))
              with
              | Some CurrentOperator =>
                  ApplyLoop libc
                    (ParseFormula libc (2 * List.length f + 3))
                    (2 * List.length f + 3) OP_BeginLine CurrentOperator
                    v id
                    (advance
                       (set_FormulaString
                          (SkipWhiteSpace (FormulaString_m st3)) st3))
              | None =>
                  Done (DEFAULT_RETURN, OP_BeginLine,
                        set_ErrorCode ERROR_operator
                          (set_FormulaString
                             (SkipWhiteSpace (FormulaString_m st3)) st3))
              end)
             = Done (v, OP_EndLine, set_FormulaString [] st3)).
  { intros v id st3 E3. cbn [FormulaString_m set_FormulaString].
    rewrite E3, Hend.
    change (GetOperator (deref [NUL])) with (Some OP_EndLine). cbv iota.
    destruct (evalform_fuel f) as [k ->]. rewrite ApplyLoop_EndLine.
    reflexivity. }
  destruct (Z.eq_dec (GetVariableID (Variables_m st) tok) NOTFOUND)
    as [Hnew|Hfound].
  - destruct Hcase as [Hc|[Hroom Hheap]]; [now elim Hc|].
    rewrite (ParseName_created libc _ st0).
    2-8: first [exact Hlen|exact HE|exact HPI|exact Hfn|exact Hnew
               |exact Hroom|exact Hheap].
    cbn [bind]. rewrite Hloop by reflexivity. cbn [bind].
    exists 0%float. eexists. split; [reflexivity|].
    assert (HT1 : ensure_variable (Variables_m st) tok
                  = Variables_m st ++ [(tok, 0%float)]).
    { unfold ensure_variable. rewrite Hnew. reflexivity. }
    split; [reflexivity|]. split; [reflexivity|].
    split; [rewrite HT1; reflexivity|].
    change (lookup_value (Variables_m st ++ [(tok, 0%float)]) tok
            = Some 0%float).
    unfold lookup_value, GetVariableID.
    rewrite find_variable_app_new; [|lia|exact Hnew].
    replace (0 + Z.of_nat (List.length (Variables_m st)))
      with (Z.of_nat (List.length (Variables_m st))) by lia.
    destruct (Z.of_nat (List.length (Variables_m st)) =? NOTFOUND) eqn:E.
    { apply Z.eqb_eq in E. unfold NOTFOUND in E. lia. }
    rewrite Nat2Z.id. unfold load_value.
    rewrite app_nth2, Nat.sub_diag by lia. reflexivity.
  - rewrite (ParseName_found libc _ st0 Hlen HE HPI Hfn Hfound).
    cbn [bind]. rewrite Hloop by reflexivity. cbn [bind].
    exists (load_value (Variables_m st)
              (Z.to_nat (GetVariableID (Variables_m st) tok))).
    eexists. split; [reflexivity|].
    assert (HT1 : ensure_variable (Variables_m st) tok = Variables_m st).
    { unfold ensure_variable. apply Z.eqb_neq in Hfound. now rewrite Hfound. }
    split; [reflexivity|]. split; [reflexivity|].
    split; [rewrite HT1; reflexivity|].
    change (lookup_value (Variables_m st) tok
            = Some (load_value (Variables_m st)
                      (Z.to_nat (GetVariableID (Variables_m st) tok)))).
    unfold lookup_value. apply Z.eqb_neq in Hfound. now rewrite Hfound.
Qed.

(** * The claims *)

(** C1.  The operators are ranked end-of-line < begin-of-line <
    close-paren < open-paren < assignment < add < subtract < multiply <
    divide < raise-power.  With any library, from any state,
    [evalform "2 + 3 * 4"] returns 14 with no error; [evalform "2 ^ 3 ^ 2"]
    returns [pow (pow 2 3) 2], the power taken from left to right, which is
    64 as soon as [pow] gives 2^3 = 8 and 8^2 = 64. *)
Theorem C1_precedence_and_associativity (libc : clib) (st : state)
        (Hpow23 : c_pow libc 2 3 = 8%float)
        (Hpow82 : c_pow libc 8 2 = 64%float) :
  (operator_rank OP_EndLine < operator_rank OP_BeginLine
   /\ operator_rank OP_BeginLine < operator_rank OP_CloseParenthesis
   /\ operator_rank OP_CloseParenthesis < operator_rank OP_OpenParenthesis
   /\ operator_rank OP_OpenParenthesis < operator_rank OP_Assignment
   /\ operator_rank OP_Assignment < operator_rank OP_Add
   /\ operator_rank OP_Add < operator_rank OP_Subtract
   /\ operator_rank OP_Subtract < operator_rank OP_Multiply
   /\ operator_rank OP_Multiply < operator_rank OP_Divide
   /\ operator_rank OP_Divide < operator_rank OP_RaisePower)
  /\ (exists st', evalform libc (cstring "2 + 3 * 4") st = Done (14%float, st')
                  /\ ErrorCode_m st' = ERROR_none)
  /\ (exists st', evalform libc (cstring "2 ^ 3 ^ 2") st = Done (64%float, st')
                  /\ ErrorCode_m st' = ERROR_none)
  /\ (exists st', evalform libc (cstring "2 ^ 3 ^ 2") st
                  = Done (c_pow libc (c_pow libc 2 3) 2, st')).
Proof.
  split; [exact operator_order|]. split; [|split].
  - eexists. split; [apply eval_2_plus_3_times_4 | reflexivity].
  - eexists. rewrite eval_2_pow_3_pow_2, Hpow23, Hpow82.
    split; reflexivity.
  - eexists. apply eval_2_pow_3_pow_2.
Qed.

Lemma C1_precedence_and_associativity_witness :
  (c_pow sample_clib 2 3 = 8%float /\ c_pow sample_clib 8 2 = 64%float)
  /\ exists st',
      evalform sample_clib (cstring "2 ^ 3 ^ 2") initial_state
      = Done (64%float, st') /\ ErrorCode_m st' = ERROR_none.
Proof.
  split; [split; reflexivity|].
  exact (proj1 (proj2 (proj2
           (C1_precedence_and_associativity sample_clib initial_state
              eq_refl eq_refl)))).
Defined.

(** C2.  What the code does where the claim asks for the default value.
    Once an error code is set, the loop of [ParseFormula] applies no
    further operator and the activation returns at once, but what it
    returns is the value it has accumulated, not [DEFAULT_RETURN].  So,
    with any library and from any state, [evalform "1+"] ends with the
    bad-operand code and returns 1, [evalform "1+2)"] ends with the
    unmatched-close-paren code and returns 3, and [evalform "2 + 1/0"]
    ends with the division-by-zero code and returns 2. *)
Theorem C2_error_leaves_partial_value (libc : clib) (st : state)
        (recurse : operator_t -> state -> outcome (float * operator_t * state))
        (n : nat) (pend cur : operator_t) (v : float) (id : Z) (st0 : state)
        (Herr : ErrorCode_m st0 <> ERROR_none) :
  ApplyLoop libc recurse (S n) pend cur v id st0 = Done (v, cur, st0)
  /\ (exists st', evalform libc (cstring "1+") st = Done (1%float, st')
                  /\ ErrorCode_m st' = ERROR_operand)
  /\ (exists st', evalform libc (cstring "1+2)") st = Done (3%float, st')
                  /\ ErrorCode_m st' = ERROR_closeparen)
  /\ (exists st', evalform libc (cstring "2 + 1/0") st = Done (2%float, st')
                  /\ ErrorCode_m st' = ERROR_division)
  /\ PrimFloat.eqb 1 DEFAULT_RETURN = false
  /\ PrimFloat.eqb 3 DEFAULT_RETURN = false
  /\ PrimFloat.eqb 2 DEFAULT_RETURN = false.
Proof.
  split; [|split; [|split; [|split]]].
  - cbn [ApplyLoop]. apply errorcode_eqb_neq in Herr. now rewrite Herr.
  - eexists. rewrite eval_1_plus. split; reflexivity.
  - eexists. rewrite eval_1_plus_2_close. split; reflexivity.
  - eexists. rewrite eval_2_plus_1_div_0. split; reflexivity.
  - repeat split.
Qed.

Lemma C2_error_leaves_partial_value_witness :
  ErrorCode_m (set_ErrorCode ERROR_operand initial_state) <> ERROR_none
  /\ ApplyLoop sample_clib (ParseFormula sample_clib 4) 1 OP_BeginLine OP_Add
               1%float NOTFOUND (set_ErrorCode ERROR_operand initial_state)
     = Done (1%float, OP_Add, set_ErrorCode ERROR_operand initial_state).
Proof.
  assert (H : ErrorCode_m (set_ErrorCode ERROR_operand initial_state)
              <> ERROR_none) by (simpl; discriminate).
  split; [exact H|].
  exact (proj1 (C2_error_leaves_partial_value sample_clib initial_state
                  (ParseFormula sample_clib 4) 0 OP_BeginLine OP_Add 1%float
                  NOTFOUND (set_ErrorCode ERROR_operand initial_state) H)).
Defined.

(** C3.  Where the code leaves the cursor.  For every formula without an
    embedded NUL, with any library and from any state, [evalform] returns,
    and when it returns without error the cursor is past the terminating
    NUL (nothing of the string is left), not on it.  So [evalform "2"]
    returns 2 without error and leaves the cursor one past the terminator.
    On failure: after ["1+2)"] the cursor is on the terminator, past the
    offending [')']; after ["(1+2"] and after ["1/0"] it is past the
    terminator. *)
Theorem C3_cursor_after_evaluation (libc : clib) (s : string) (st : state)
        (Hs : no_nul s = true) :
  (exists v st', evalform libc (cstring s) st = Done (v, st')
                 /\ (ErrorCode_m st' = ERROR_none ->
                     FormulaString_m st' = []
                     /\ FormulaString_m st' <> [NUL]))
  /\ (exists st', evalform libc (cstring "2") st = Done (2%float, st')
                  /\ ErrorCode_m st' = ERROR_none
                  /\ FormulaString_m st' = [])
  /\ (exists v st', evalform libc (cstring "1+2)") st = Done (v, st')
                    /\ ErrorCode_m st' = ERROR_closeparen
                    /\ FormulaString_m st' = [NUL])
  /\ (exists v st', evalform libc (cstring "(1+2") st = Done (v, st')
                    /\ ErrorCode_m st' = ERROR_openparen
                    /\ FormulaString_m st' = [])
  /\ (exists v st', evalform libc (cstring "1/0") st = Done (v, st')
                    /\ ErrorCode_m st' = ERROR_division
                    /\ FormulaString_m st' = []).
Proof.
  split.
  { destruct (evalform_success_cursor libc s st Hs) as [[v st'] [E H]].
    exists v, st'. split; auto. intros He. simpl in H. rewrite (H He).
    split; [reflexivity | discriminate]. }
  split; [|split; [|split]].
  - eexists. rewrite eval_2. repeat split.
  - do 2 eexists. rewrite eval_1_plus_2_close. repeat split.
  - do 2 eexists. rewrite eval_open_1_plus_2. repeat split.
  - do 2 eexists. rewrite eval_1_div_0. repeat split.
Qed.

Lemma C3_cursor_after_evaluation_witness :
  no_nul "2" = true
  /\ exists st', evalform sample_clib (cstring "2") initial_state
                 = Done (2%float, st')
                 /\ ErrorCode_m st' = ERROR_none
                 /\ FormulaString_m st' = [].
Proof.
  split; [reflexivity|].
  exact (proj1 (proj2
           (C3_cursor_after_evaluation sample_clib "2" initial_state eq_refl))).
Defined.

(** C4.  With any mathematical functions and an allocator that does not
    fail, from every state whose table has room for three more names,
    [evalform "a0 = a1 = a2 = sqrt(2)"] returns [sqrt 2] without error and
    leaves a table in which A0, A1 and A2 each hold [sqrt 2]; the names the
    table had keep their slots and at most the three names are appended.
    From the empty table the result is exactly A0, A1, A2 in that order;
    a name already present is overwritten in place.  An operator is
    applied over the pending one exactly when it is the assignment and its
    rank is at least the pending rank, or it is another operator and its
    rank is strictly greater. *)
Theorem C4_chained_assignment (libc : clib) (st : state)
        (Hroom : (List.length (Variables_m st) + 3 <= MAXNUMBERVAR)%nat) :
  (exists st',
      evalform (reliable libc) (cstring "a0 = a1 = a2 = sqrt(2)") st
      = Done (c_sqrt libc 2, st')
      /\ ErrorCode_m st' = ERROR_none
      /\ lookup_value (Variables_m st') "A0" = Some (c_sqrt libc 2)
      /\ lookup_value (Variables_m st') "A1" = Some (c_sqrt libc 2)
      /\ lookup_value (Variables_m st') "A2" = Some (c_sqrt libc 2)
      /\ (List.length (Variables_m st') <= List.length (Variables_m st) + 3)%nat
      /\ exists new,
          map fst (Variables_m st') = map fst (Variables_m st) ++ new)
  /\ (exists st',
         evalform (reliable libc) (cstring "a0 = a1 = a2 = sqrt(2)")
                  initial_state
         = Done (c_sqrt libc 2, st')
         /\ Variables_m st' = [("A0"%string, c_sqrt libc 2);
                               ("A1"%string, c_sqrt libc 2);
                               ("A2"%string, c_sqrt libc 2)])
  /\ (exists st',
         evalform (reliable libc) (cstring "a0 = a1 = a2 = sqrt(2)")
                  (set_Variables [("X"%string, 1%float); ("A1"%string, 7%float)]
                                 initial_state)
         = Done (c_sqrt libc 2, st')
         /\ Variables_m st' = [("X"%string, 1%float);
                               ("A1"%string, c_sqrt libc 2);
                               ("A0"%string, c_sqrt libc 2);
                               ("A2"%string, c_sqrt libc 2)])
  /\ (forall cur pend,
         ApplyCriterion cur pend = true <->
         (cur = OP_Assignment /\ operator_rank cur >= operator_rank pend)
         \/ (cur <> OP_Assignment /\ operator_rank cur > operator_rank pend)).
Proof.
  split; [|split; [|split]].
  - destruct st as [T f0 tok d lvl err]. cbn [Variables_m] in *.
    eexists. rewrite (chain_first libc T f0 tok d lvl err) by lia.
    destruct (chain_lookups libc T) as [H0 [H1 [H2 [H3 H4]]]].
    cbn [Variables_m ErrorCode_m]. repeat split; assumption.
  - eexists. rewrite eval_chained_assignment. repeat split.
  - eexists. rewrite eval_chained_assignment_existing. repeat split.
  - exact ApplyCriterion_spec.
Qed.

Lemma C4_chained_assignment_witness :
  (List.length (Variables_m initial_state) + 3 <= MAXNUMBERVAR)%nat
  /\ exists st',
      evalform (reliable sample_clib) (cstring "a0 = a1 = a2 = sqrt(2)")
               initial_state
      = Done (c_sqrt sample_clib 2, st')
      /\ ErrorCode_m st' = ERROR_none
      /\ lookup_value (Variables_m st') "A0" = Some (c_sqrt sample_clib 2)
      /\ lookup_value (Variables_m st') "A1" = Some (c_sqrt sample_clib 2)
      /\ lookup_value (Variables_m st') "A2" = Some (c_sqrt sample_clib 2)
      /\ (List.length (Variables_m st')
          <= List.length (Variables_m initial_state) + 3)%nat
      /\ exists new,
          map fst (Variables_m st')
          = map fst (Variables_m initial_state) ++ new.
Proof.
  assert (H : (List.length (Variables_m initial_state) + 3
               <= MAXNUMBERVAR)%nat) by (vm_compute; lia).
  split; [exact H|].
  exact (proj1 (C4_chained_assignment sample_clib initial_state H)).
Defined.

(** C5.  For each of the twelve functions, called in a state without
    error, [EvaluateFunction] returns; the state it leaves carries the
    function-parameter-out-of-range code exactly when the function is LOG,
    LOG10 or SQRT and [x <= 0], or it is ACOS or ASIN and [x < -1] or
    [x >= 1]; in that case the value is 0.0 and nothing else of the state
    changes; otherwise the state is unchanged.  SIN, COS, TAN, EXP, ABS,
    ATAN and INT are never out of range. *)
Theorem C5_function_domain (libc : clib) (fn : function_t) (x : float)
        (st : state)
        (Hfn : fn <> FUNC_err) (Hst : ErrorCode_m st = ERROR_none) :
  (exists v st',
      EvaluateFunction libc fn x st = Done (v, st')
      /\ (ErrorCode_m st' = ERROR_parameter <-> out_of_range fn x)
      /\ (out_of_range fn x ->
          v = 0%float /\ st' = set_ErrorCode ERROR_parameter st)
      /\ (~ out_of_range fn x -> st' = st))
  /\ (In fn [FUNC_sin; FUNC_cos; FUNC_tan; FUNC_exp; FUNC_fabs; FUNC_atan;
             FUNC_int] -> ~ out_of_range fn x).
Proof.
  split.
  - unfold EvaluateFunction.
    destruct (argument_ok fn x) eqn:Hok; simpl.
    + assert (Hin : ~ out_of_range fn x).
      { intros H. apply argument_ok_out_of_range in H. congruence. }
      assert (Hgoal : forall v, exists v0 st',
                 Done (v, st) = Done (v0, st')
                 /\ (ErrorCode_m st' = ERROR_parameter <-> out_of_range fn x)
                 /\ (out_of_range fn x ->
                     v0 = 0%float /\ st' = set_ErrorCode ERROR_parameter st)
                 /\ (~ out_of_range fn x -> st' = st)).
      { intros v. exists v, st. split; [reflexivity|]. split; [|split].
        - rewrite Hst. split; [discriminate | contradiction].
        - contradiction.
        - reflexivity. }
      destruct fn; try apply Hgoal; [now elim Hfn|].
      destruct (PrimFloat.ltb x 0); apply Hgoal.
    + apply argument_ok_out_of_range in Hok.
      exists DEFAULT_RETURN, (set_ErrorCode ERROR_parameter st).
      split; [reflexivity|]. split; [|split].
      * simpl. split; auto.
      * intros _. split; reflexivity.
      * contradiction.
  - intros Hin H. apply argument_ok_out_of_range in H.
    simpl in Hin.
    destruct Hin as [<-|[<-|[<-|[<-|[<-|[<-|[<-|[]]]]]]]]; discriminate.
Qed.

Lemma C5_function_domain_witness :
  (FUNC_sqrt <> FUNC_err /\ ErrorCode_m initial_state = ERROR_none)
  /\ exists v st',
      EvaluateFunction sample_clib FUNC_sqrt (-1)%float initial_state
      = Done (v, st')
      /\ (ErrorCode_m st' = ERROR_parameter <-> out_of_range FUNC_sqrt (-1))
      /\ (out_of_range FUNC_sqrt (-1) ->
          v = 0%float /\ st' = set_ErrorCode ERROR_parameter initial_state)
      /\ (~ out_of_range FUNC_sqrt (-1) -> st' = initial_state).
Proof.
  assert (H : FUNC_sqrt <> FUNC_err) by discriminate.
  split; [split; [exact H | reflexivity]|].
  exact (proj1 (C5_function_domain sample_clib FUNC_sqrt (-1)%float
                  initial_state H eq_refl)).
Defined.

(** C6.  In the loop of [ParseFormula], when the division is applied and
    the call for its right-hand operand returns [d]: if [d == 0] the loop
    ends with the value 0 and the division-by-zero code; otherwise it goes
    on with the quotient [v / d], and the error code is the one the
    operand's call left.  So [evalform "1/0"] returns 0 with the
    division-by-zero code, and [evalform "1/4"] returns 0.25 with no
    error. *)
Theorem C6_division_by_zero (libc : clib)
        (recurse : operator_t -> state -> outcome (float * operator_t * state))
        (n : nat) (pend op : operator_t) (v d : float) (id : Z)
        (st st1 : state)
        (Hnone : ErrorCode_m st = ERROR_none)
        (Hcrit : ApplyCriterion OP_Divide pend = true)
        (Hrhs : recurse OP_Divide st = Done (d, op, st1)) :
  (PrimFloat.eqb d 0 = true ->
   ApplyLoop libc recurse (S (S n)) pend OP_Divide v id st
   = Done (0%float, op,
           set_ErrorCode ERROR_division (set_DivisorValue d st1)))
  /\ (PrimFloat.eqb d 0 = false ->
      ApplyLoop libc recurse (S n) pend OP_Divide v id st
      = ApplyLoop libc recurse n pend op (v / d)%float id
                  (set_DivisorValue d st1)
      /\ ErrorCode_m (set_DivisorValue d st1) = ErrorCode_m st1)
  /\ (forall st0, exists st',
         evalform libc (cstring "1/0") st0 = Done (0%float, st')
         /\ ErrorCode_m st' = ERROR_division)
  /\ (forall st0, exists st',
         evalform libc (cstring "1/4") st0 = Done (0.25%float, st')
         /\ ErrorCode_m st' = ERROR_none).
Proof.
  split; [|split; [|split]].
  - intros Hd. cbn [ApplyLoop]. rewrite Hnone, Hcrit. simpl.
    rewrite Hrhs. simpl. unfold ApplyDivide. simpl. rewrite Hd. reflexivity.
  - intros Hd. split; [|reflexivity].
    change (ApplyLoop libc recurse (S n) pend OP_Divide v id st)
      with (if (if errorcode_eqb (ErrorCode_m st) ERROR_none
                then ApplyCriterion OP_Divide pend else false)
            then '(v0, op0, st2) <- recurse OP_Divide st ;;
                 let (q, st3) := ApplyDivide v v0 st2 in
                 ApplyLoop libc recurse n pend op0 q id st3
            else Done (v, OP_Divide, st)).
    rewrite Hnone, Hcrit. simpl. rewrite Hrhs. simpl.
    unfold ApplyDivide. simpl. rewrite Hd. reflexivity.
  - intros st0. eexists. rewrite eval_1_div_0. split; reflexivity.
  - intros st0. eexists. rewrite eval_1_div_4. split; reflexivity.
Qed.

Lemma C6_division_by_zero_witness :
  (ErrorCode_m (entry_state (cstring "0") initial_state) = ERROR_none
   /\ ApplyCriterion OP_Divide OP_BeginLine = true
   /\ ParseFormula sample_clib 8 OP_Divide
                   (entry_state (cstring "0") initial_state)
      = Done (0%float, OP_EndLine, entry_state [] initial_state)
   /\ PrimFloat.eqb 0 0 = true)
  /\ ApplyLoop sample_clib (ParseFormula sample_clib 8) 2 OP_BeginLine
               OP_Divide 1%float NOTFOUND
               (entry_state (cstring "0") initial_state)
     = Done (0%float, OP_EndLine,
             set_ErrorCode ERROR_division
               (set_DivisorValue 0%float (entry_state [] initial_state))).
Proof.
  split; [repeat split|].
  exact (proj1 (C6_division_by_zero sample_clib (ParseFormula sample_clib 8)
                  0 OP_BeginLine OP_EndLine 1%float 0%float NOTFOUND
                  (entry_state (cstring "0") initial_state)
                  (entry_state [] initial_state)
                  eq_refl eq_refl eq_refl) eq_refl).
Defined.

(** C7, as stated, fails on a name of exactly 31 characters: it is
    accepted, no error is set, and the table receives the name. *)
Lemma C7_counterexample :
  String.length name31 = 31%nat
  /\ GetNextTokenLength (operand_start (cstring name31)) = 31%nat
  /\ exists st',
      evalform sample_clib (cstring name31) initial_state = Done (0%float, st')
      /\ ErrorCode_m st' = ERROR_none
      /\ ErrorCode_m st' <> ERROR_variable_long
      /\ Variables_m st' = [("AAAAAAAAAABBBBBBBBBBCCCCCCCCCCD"%string, 0%float)]
      /\ Variables_m st' <> Variables_m initial_state.
Proof.
  split; [reflexivity|]. split; [reflexivity|].
  eexists. rewrite eval_name31. repeat split; discriminate.
Qed.

(** C7, amended.  The token buffer has [MAXTOKENLENGTH] = 32 places, the
    terminator included.  When the first operand of a formula is a name
    token of 32 or more characters, [evalform] returns 0 with the
    variable-name-too-long code, the cursor on the name and the symbol
    table as it was; [ParseFormula] reports such a token, wherever it is
    met as an operand, before it touches the table.  A table whose names
    have at most 31 characters keeps that property through [evalform].
    A name token of exactly 31 characters is accepted: it is no constant
    and no function, so wherever it is met as an operand [ParseFormula]
    reads it from the table when it is there and appends it with the
    value 0 when it is not and the table and the heap have room; a
    formula made of such a name and nothing else evaluates with no error
    to the value the name holds, and the name, all 31 characters of it,
    is in the table afterwards. *)
Theorem C7_name_length_limit (libc : clib) (f : list ascii) (st : state)
        (Hlong : (MAXTOKENLENGTH <= GetNextTokenLength (operand_start f))%nat) :
  MAXTOKENLENGTH = 32%nat
  /\ (exists st',
         evalform libc f st = Done (0%float, st')
         /\ ErrorCode_m st' = ERROR_variable_long
         /\ Variables_m st' = Variables_m st
         /\ FormulaString_m st' = operand_start f)
  /\ (forall recurse st0,
         (MAXTOKENLENGTH <= GetNextTokenLength (FormulaString_m st0))%nat ->
         ParseName libc recurse st0
         = Done (EarlyReturn (set_ErrorCode ERROR_variable_long st0)))
  /\ (forall g st0,
         table_ok (Variables_m st0) ->
         exists v st',
           evalform libc g st0 = Done (v, st')
           /\ Forall (fun e => (String.length (fst e) <= 31)%nat)
                     (Variables_m st'))
  /\ (forall recurse st0,
         GetNextTokenLength (FormulaString_m st0) = 31%nat ->
         let tok := CopyUppercaseString (FormulaString_m st0) 31 in
         let st2 := set_FormulaString (skipn 31 (FormulaString_m st0))
                      (set_TokenString tok st0) in
         String.length tok = 31%nat
         /\ (GetVariableID (Variables_m st0) tok <> NOTFOUND ->
             ParseName libc recurse st0
             = Done (Operand
                       (load_value (Variables_m st0)
                          (Z.to_nat (GetVariableID (Variables_m st0) tok)))
                       (GetVariableID (Variables_m st0) tok) st2))
         /\ (GetVariableID (Variables_m st0) tok = NOTFOUND ->
             (List.length (Variables_m st0) < MAXNUMBERVAR)%nat ->
             calloc_ok libc 32 = true ->
             ParseName libc recurse st0
             = Done (Operand 0%float
                       (Z.of_nat (List.length (Variables_m st0)))
                       (set_Variables (Variables_m st0 ++ [(tok, 0%float)])
                                      st2))))
  /\ (forall g st0,
         GetNextTokenLength (operand_start g) = 31%nat ->
         SkipWhiteSpace (skipn 31 (operand_start g)) = [NUL] ->
         GetVariableID (Variables_m st0) (leading_token g) <> NOTFOUND
         \/ ((List.length (Variables_m st0) < MAXNUMBERVAR)%nat
             /\ calloc_ok libc 32 = true) ->
         String.length (leading_token g) = 31%nat
         /\ exists v st',
             evalform libc g st0 = Done (unary_sign g v, st')
             /\ ErrorCode_m st' = ERROR_none
             /\ Variables_m st'
                = ensure_variable (Variables_m st0) (leading_token g)
             /\ lookup_value (Variables_m st') (leading_token g) = Some v).
Proof.
  split; [reflexivity|]. split; [|split; [|split; [|split]]].
  - eexists. rewrite (evalform_name_too_long libc f st Hlong).
    repeat split.
  - intros recurse st0. apply ParseName_too_long.
  - intros g st0 H0.
    destruct (evalform_table_ok libc g st0 H0) as [v [st' [E [_ Hn]]]].
    exists v, st'. split; [exact E|].
    eapply Forall_impl; [|exact Hn].
    intros e He. unfold name_fits, MAXTOKENLENGTH in He. lia.
  - intros recurse st0 Hn tok st2.
    assert (Hl : String.length tok = 31%nat)
      by apply CopyUppercaseString_length.
    destruct (long_token_not_function tok) as [HE [HPI Hfn]];
      [rewrite Hl; lia|].
    assert (Hlen : (0 < 31 < MAXTOKENLENGTH)%nat)
      by (unfold MAXTOKENLENGTH; lia).
    pose proof (ParseName_found libc recurse st0) as Pf.
    pose proof (ParseName_created libc recurse st0) as Pc.
    cbv zeta in Pf, Pc. rewrite Hn in Pf, Pc.
    fold tok in Pf, Pc. fold st2 in Pf, Pc. rewrite Hl in Pc.
    split; [exact Hl|]. split.
    + intros Hfound. exact (Pf Hlen HE HPI Hfn Hfound).
    + intros Hnew Hroom Hheap.
      exact (Pc Hlen HE HPI Hfn Hnew Hroom Hheap).
  - intros g st0 Hn Hend Hcase.
    assert (Hl : String.length (leading_token g) = 31%nat).
    { unfold leading_token. rewrite CopyUppercaseString_length. exact Hn. }
    destruct (long_token_not_function (leading_token g)) as [HE [HPI Hfn]];
      [rewrite Hl; lia|].
    split; [exact Hl|].
    destruct (evalform_lone_name libc g st0) as [v [st' [E [He [_ [HT Hv]]]]]].
    + rewrite Hn. unfold MAXTOKENLENGTH. lia.
    + exact HE.
    + exact HPI.
    + exact Hfn.
    + rewrite Hn. exact Hend.
    + rewrite Hl. exact Hcase.
    + exists v, st'. repeat split; assumption.
Qed.

Lemma C7_name_length_limit_witness :
  (MAXTOKENLENGTH <= GetNextTokenLength (operand_start (cstring name32)))%nat
  /\ exists st',
      evalform sample_clib (cstring name32) initial_state = Done (0%float, st')
      /\ ErrorCode_m st' = ERROR_variable_long
      /\ Variables_m st' = Variables_m initial_state
      /\ FormulaString_m st' = operand_start (cstring name32).
Proof.
  assert (H : (MAXTOKENLENGTH
               <= GetNextTokenLength (operand_start (cstring name32)))%nat).
  { vm_compute. reflexivity. }
  split; [exact H|].
  exact (proj1 (proj2
           (C7_name_length_limit sample_clib (cstring name32) initial_state H))).
Defined.

(** C8.  The table holds at most [MAXNUMBERVAR] = 128 variables.
    [AssignVariable] on a name already in the table stores the value in
    its slot and returns its index, the table keeping its length and its
    names; on a new name when 128 entries exist it returns [NOROOM] and
    leaves the table alone.  A name of the table met as an operand is read
    from its slot, the table untouched, full or not.  A table within its
    capacity stays so through [evalform].  When the table is full and the
    first operand of the formula is a name that is no constant, no
    function and not in the table, [evalform] returns 0 with the
    variable-table-full code and the table unchanged.  And so it goes
    after 128 formulas have created the 128 distinct variables AA, AB,
    ...: evaluating ["zz"] yields variable-table-full, while ["ab = 5"]
    overwrites AB in place and ["ab"] then reads 5. *)
Theorem C8_table_capacity (libc : clib) (f : list ascii) (st : state)
        (Hlen : (0 < GetNextTokenLength (operand_start f) < MAXTOKENLENGTH)%nat)
        (HE : leading_token f <> "%E"%string)
        (HPI : leading_token f <> "%PI"%string)
        (Hfn : LookupFunction (leading_token f) = FUNC_err)
        (Hnew : GetVariableID (Variables_m st) (leading_token f) = NOTFOUND)
        (Hfull : List.length (Variables_m st) = MAXNUMBERVAR) :
  MAXNUMBERVAR = 128%nat
  /\ (exists st',
         evalform libc f st = Done (0%float, st')
         /\ ErrorCode_m st' = ERROR_variable_full
         /\ Variables_m st' = Variables_m st)
  /\ (forall name v T,
         GetVariableID T name <> NOTFOUND ->
         let id := GetVariableID T name in
         AssignVariable libc name v T = (id, store_value T (Z.to_nat id) v)
         /\ 0 <= id < Z.of_nat (List.length T)
         /\ List.length (store_value T (Z.to_nat id) v) = List.length T
         /\ map fst (store_value T (Z.to_nat id) v) = map fst T
         /\ load_value (store_value T (Z.to_nat id) v) (Z.to_nat id) = v)
  /\ (forall name v T,
         GetVariableID T name = NOTFOUND ->
         (MAXNUMBERVAR <= List.length T)%nat ->
         AssignVariable libc name v T = (NOROOM, T))
  /\ (forall recurse T p tok0 d lvl err,
         let n := GetNextTokenLength p in
         let tok := CopyUppercaseString p n in
         (0 < n < MAXTOKENLENGTH)%nat ->
         tok <> "%E"%string -> tok <> "%PI"%string ->
         LookupFunction tok = FUNC_err ->
         GetVariableID T tok <> NOTFOUND ->
         ParseName libc recurse (mkState T p tok0 d lvl err)
         = Done (Operand (load_value T (Z.to_nat (GetVariableID T tok)))
                         (GetVariableID T tok)
                         (mkState T (skipn n p) tok d lvl err)))
  /\ (forall g st0,
         table_ok (Variables_m st0) ->
         exists v st',
           evalform libc g st0 = Done (v, st')
           /\ (List.length (Variables_m st') <= MAXNUMBERVAR)%nat)
  /\ (let st128 := create_variables (reliable libc) 128 initial_state in
      List.length (Variables_m st128) = 128%nat
      /\ NoDup (map fst (Variables_m st128))
      /\ (exists st',
             evalform (reliable libc) (cstring "zz") st128 = Done (0%float, st')
             /\ ErrorCode_m st' = ERROR_variable_full
             /\ Variables_m st' = Variables_m st128)
      /\ (exists st',
             evalform (reliable libc) (cstring "ab = 5") st128
             = Done (5%float, st')
             /\ ErrorCode_m st' = ERROR_none
             /\ List.length (Variables_m st') = 128%nat
             /\ evalform (reliable libc) (cstring "ab") st'
                = Done (5%float, st'))).
Proof.
  split; [reflexivity|]. split; [|split; [|split; [|split; [|split]]]].
  - eexists. rewrite (evalform_table_full libc f st Hlen HE HPI Hfn Hnew).
    + repeat split.
    + rewrite Hfull. apply Nat.le_refl.
  - intros name v T Hin id.
    assert (Hr : 0 <= id < Z.of_nat (List.length T)).
    { destruct (find_variable_range T name 0 (Z.le_refl 0)) as [H|H].
      - now elim Hin.
      - exact H. }
    split; [now apply AssignVariable_existing|]. split; [exact Hr|].
    split; [apply store_value_length|]. split; [apply store_value_names|].
    apply load_store_value. lia.
  - intros name v T. apply AssignVariable_full.
  - intros recurse T p tok0 d lvl err. apply ParseName_existing.
  - intros g st0 H0.
    destruct (evalform_table_ok libc g st0 H0) as [v [st' [E [Hl _]]]].
    exists v, st'. split; assumption.
  - destruct (eval_129th_name libc) as [H1 [H2 [H3 [H4 [H5 H6]]]]].
    cbv zeta. split; [exact H1|]. split; [|split].
    + rewrite H2, <- H3. apply NoDup_nodup.
    + eexists. rewrite H4. repeat split.
    + eexists. rewrite H5. split; [reflexivity|]. split; [reflexivity|].
      split.
      * cbn [Variables_m set_Variables]. rewrite store_value_length. exact H1.
      * destruct libc. vm_compute. reflexivity.
Qed.

Lemma C8_table_capacity_witness :
  let st128 := create_variables sample_clib 128 initial_state in
  ((0 < GetNextTokenLength (operand_start (cstring "zz")) < MAXTOKENLENGTH)%nat
   /\ leading_token (cstring "zz") <> "%E"%string
   /\ leading_token (cstring "zz") <> "%PI"%string
   /\ LookupFunction (leading_token (cstring "zz")) = FUNC_err
   /\ GetVariableID (Variables_m st128) (leading_token (cstring "zz")) = NOTFOUND
   /\ List.length (Variables_m st128) = MAXNUMBERVAR)
  /\ exists st',
      evalform sample_clib (cstring "zz") st128 = Done (0%float, st')
      /\ ErrorCode_m st' = ERROR_variable_full
      /\ Variables_m st' = Variables_m st128.
Proof.
  intros st128.
  assert (H1 : (0 < GetNextTokenLength (operand_start (cstring "zz"))
                < MAXTOKENLENGTH)%nat) by (vm_compute; lia).
  assert (H2 : leading_token (cstring "zz") <> "%E"%string)
    by (vm_compute; discriminate).
  assert (H3 : leading_token (cstring "zz") <> "%PI"%string)
    by (vm_compute; discriminate).
  assert (H4 : LookupFunction (leading_token (cstring "zz")) = FUNC_err)
    by reflexivity.
  assert (H5 : GetVariableID (Variables_m st128) (leading_token (cstring "zz"))
               = NOTFOUND) by (vm_compute; reflexivity).
  assert (H6 : List.length (Variables_m st128) = MAXNUMBERVAR)
    by (vm_compute; reflexivity).
  split; [exact (conj H1 (conj H2 (conj H3 (conj H4 (conj H5 H6)))))|].
  exact (proj1 (proj2
           (C8_table_capacity sample_clib (cstring "zz") st128
                              H1 H2 H3 H4 H5 H6))).
Defined.

(** C9.  With any library, for every formula and from any state,
    [evalform] returns and the code it leaves is never the
    unknown-function code.  A name token that is neither [%E] nor [%PI]
    and that [LookupFunction] does not know is taken for a variable,
    wherever it is met as an operand: when the table has the name,
    [ParseFormula] reads its value and leaves the table as it was; when
    the table has not, it appends the name with the value 0, provided the
    table has fewer than [MAXNUMBERVAR] entries and the allocation
    succeeds, stops with the variable-table-full code on a full table,
    and with the heap-full code when the allocation fails.  A formula
    made of such a name and nothing else evaluates with no error, and the
    name is in the table afterwards. *)
Theorem C9_unknown_function_unreachable (libc : clib) (f : list ascii)
        (st : state)
        (recurse : operator_t -> state -> outcome (float * operator_t * state))
        (st0 : state)
        (Hlen : (0 < GetNextTokenLength (FormulaString_m st0)
                 < MAXTOKENLENGTH)%nat)
        (HE : CopyUppercaseString (FormulaString_m st0)
                (GetNextTokenLength (FormulaString_m st0)) <> "%E"%string)
        (HPI : CopyUppercaseString (FormulaString_m st0)
                 (GetNextTokenLength (FormulaString_m st0)) <> "%PI"%string)
        (Hfn : LookupFunction
                 (CopyUppercaseString (FormulaString_m st0)
                    (GetNextTokenLength (FormulaString_m st0))) = FUNC_err) :
  (exists v st',
      evalform libc f st = Done (v, st')
      /\ ErrorCode_m st' <> ERROR_function
      /\ errorcode_value (ErrorCode_m st') <> 6)
  /\ match ParseName libc recurse st0 with
     | Done (Operand v id st') =>
         id = GetVariableID (Variables_m st')
                (CopyUppercaseString (FormulaString_m st0)
                   (GetNextTokenLength (FormulaString_m st0)))
         /\ id <> NOTFOUND
         /\ v = load_value (Variables_m st') (Z.to_nat id)
         /\ ErrorCode_m st' = ErrorCode_m st0
     | Done (EarlyReturn st') =>
         (ErrorCode_m st' = ERROR_variable_full
          \/ ErrorCode_m st' = ERROR_heap_full)
         /\ Variables_m st' = Variables_m st0
     | _ => False
     end
  /\ (let tok := CopyUppercaseString (FormulaString_m st0)
                   (GetNextTokenLength (FormulaString_m st0)) in
      let st2 := set_FormulaString
                   (skipn (GetNextTokenLength (FormulaString_m st0))
                          (FormulaString_m st0))
                   (set_TokenString tok st0) in
      (GetVariableID (Variables_m st0) tok <> NOTFOUND ->
       ParseName libc recurse st0
       = Done (Operand
                 (load_value (Variables_m st0)
                    (Z.to_nat (GetVariableID (Variables_m st0) tok)))
                 (GetVariableID (Variables_m st0) tok) st2))
      /\ (GetVariableID (Variables_m st0) tok = NOTFOUND ->
          (List.length (Variables_m st0) < MAXNUMBERVAR)%nat ->
          calloc_ok libc (String.length tok + 1) = true ->
          ParseName libc recurse st0
          = Done (Operand 0%float (Z.of_nat (List.length (Variables_m st0)))
                    (set_Variables (Variables_m st0 ++ [(tok, 0%float)])
                                   st2)))
      /\ (GetVariableID (Variables_m st0) tok = NOTFOUND ->
          (MAXNUMBERVAR <= List.length (Variables_m st0))%nat ->
          ParseName libc recurse st0
          = Done (EarlyReturn (set_ErrorCode ERROR_variable_full st2)))
      /\ (GetVariableID (Variables_m st0) tok = NOTFOUND ->
          (List.length (Variables_m st0) < MAXNUMBERVAR)%nat ->
          calloc_ok libc (String.length tok + 1) = false ->
          ParseName libc recurse st0
          = Done (EarlyReturn (set_ErrorCode ERROR_heap_full st2))))
  /\ (forall g st1,
         (0 < GetNextTokenLength (operand_start g) < MAXTOKENLENGTH)%nat ->
         leading_token g <> "%E"%string ->
         leading_token g <> "%PI"%string ->
         LookupFunction (leading_token g) = FUNC_err ->
         SkipWhiteSpace
           (skipn (GetNextTokenLength (operand_start g)) (operand_start g))
         = [NUL] ->
         GetVariableID (Variables_m st1) (leading_token g) <> NOTFOUND
         \/ ((List.length (Variables_m st1) < MAXNUMBERVAR)%nat
             /\ calloc_ok libc (String.length (leading_token g) + 1) = true) ->
         exists v st',
           evalform libc g st1 = Done (unary_sign g v, st')
           /\ ErrorCode_m st' = ERROR_none
           /\ Variables_m st'
              = ensure_variable (Variables_m st1) (leading_token g)
           /\ lookup_value (Variables_m st') (leading_token g) = Some v).
Proof.
  split; [|split; [|split]].
  - destruct (evalform_evolves libc f st) as [[v st'] [E Hev]].
    exists v, st'. split; [exact E|].
    assert (Hne : ErrorCode_m st' <> ERROR_function).
    { intros H. apply (ev_error _ _ Hev) in H. discriminate. }
    split; [exact Hne|].
    intros H. apply Hne. destruct (ErrorCode_m st'); try discriminate.
    reflexivity.
  - now apply ParseName_variable.
  - cbv zeta. split; [|split; [|split]].
    + apply (ParseName_found libc recurse st0 Hlen HE HPI Hfn).
    + apply (ParseName_created libc recurse st0 Hlen HE HPI Hfn).
    + apply (ParseName_table_full libc recurse st0 Hlen HE HPI Hfn).
    + apply (ParseName_heap_full libc recurse st0 Hlen HE HPI Hfn).
  - intros g st1 Hl1 HE1 HPI1 Hfn1 Hend Hcase.
    destruct (evalform_lone_name libc g st1 Hl1 HE1 HPI1 Hfn1 Hend Hcase)
      as [v [st' [E [He [_ [HT Hv]]]]]].
    exists v, st'. repeat split; assumption.
Qed.

Lemma C9_unknown_function_unreachable_witness :
  let st0 := entry_state (cstring "foo(1)") initial_state in
  ((0 < GetNextTokenLength (FormulaString_m st0) < MAXTOKENLENGTH)%nat
   /\ CopyUppercaseString (FormulaString_m st0)
        (GetNextTokenLength (FormulaString_m st0)) <> "%E"%string
   /\ CopyUppercaseString (FormulaString_m st0)
        (GetNextTokenLength (FormulaString_m st0)) <> "%PI"%string
   /\ LookupFunction
        (CopyUppercaseString (FormulaString_m st0)
           (GetNextTokenLength (FormulaString_m st0))) = FUNC_err)
  /\ exists v st',
      evalform sample_clib (cstring "foo(1)") initial_state = Done (v, st')
      /\ ErrorCode_m st' <> ERROR_function
      /\ errorcode_value (ErrorCode_m st') <> 6.
Proof.
  intros st0.
  assert (H1 : (0 < GetNextTokenLength (FormulaString_m st0)
                < MAXTOKENLENGTH)%nat) by (vm_compute; lia).
  assert (H2 : CopyUppercaseString (FormulaString_m st0)
                 (GetNextTokenLength (FormulaString_m st0)) <> "%E"%string)
    by (vm_compute; discriminate).
  assert (H3 : CopyUppercaseString (FormulaString_m st0)
                 (GetNextTokenLength (FormulaString_m st0)) <> "%PI"%string)
    by (vm_compute; discriminate).
  assert (H4 : LookupFunction
                 (CopyUppercaseString (FormulaString_m st0)
                    (GetNextTokenLength (FormulaString_m st0))) = FUNC_err)
    by reflexivity.
  split; [exact (conj H1 (conj H2 (conj H3 H4)))|].
  exact (proj1 (C9_unknown_function_unreachable sample_clib
                  (cstring "foo(1)") initial_state
                  (ParseFormula sample_clib 4) st0 H1 H2 H3 H4)).
Defined.

(** C10.  With any library and from any state, for the empty string and
    for every string of spaces, tabs, newlines and carriage returns,
    [evalform] returns 0 with the bad-operand code; the cursor is on the
    terminator and the symbol table is as it was. *)
Theorem C10_blank_formula (libc : clib) (s : string) (st : state)
        (Hblank : blank (list_ascii_of_string s)) :
  (exists st',
      evalform libc (cstring s) st = Done (0%float, st')
      /\ ErrorCode_m st' = ERROR_operand
      /\ Variables_m st' = Variables_m st
      /\ FormulaString_m st' = [NUL])
  /\ (exists st',
         evalform libc (cstring "") st = Done (0%float, st')
         /\ ErrorCode_m st' = ERROR_operand
         /\ Variables_m st' = Variables_m st)
  /\ (forall c, is_space c = true <->
                c = " "%char \/ char_code c = 9 \/ char_code c = 10
                \/ char_code c = 13).
Proof.
  split; [|split].
  - eexists. unfold cstring. rewrite (evalform_blank libc _ st Hblank).
    repeat split.
  - eexists. change (cstring "") with ([] ++ [NUL]).
    rewrite (evalform_blank libc [] st eq_refl). repeat split.
  - intros c. unfold is_space. rewrite !orb_true_iff, !Z.eqb_eq.
    rewrite Ascii.eqb_eq. tauto.
Qed.

Lemma C10_blank_formula_witness :
  blank (list_ascii_of_string "  ")
  /\ exists st',
      evalform sample_clib (cstring "  ") initial_state = Done (0%float, st')
      /\ ErrorCode_m st' = ERROR_operand
      /\ Variables_m st' = Variables_m initial_state
      /\ FormulaString_m st' = [NUL].
Proof.
  split; [reflexivity|].
  exact (proj1 (C10_blank_formula sample_clib "  " initial_state eq_refl)).
Defined.

(** * Further properties of the module *)

(** ** The lexer primitives *)

Lemma SkipWhiteSpace_split f :
  exists ws, f = ws ++ SkipWhiteSpace f /\ blank ws.
Proof.
  induction f as [|c f [ws [E Hws]]]; simpl.
  - exists []. split; reflexivity.
  - destruct (is_space c) eqn:Hc.
    + exists (c :: ws). split; [simpl; now rewrite <- E|].
      unfold blank in *. simpl. now rewrite Hc, Hws.
    + exists []. split; reflexivity.
Qed.

Lemma SkipWhiteSpace_head f : is_space (deref (SkipWhiteSpace f)) = false.
Proof.
  induction f as [|c f IH]; simpl; [reflexivity|].
  destruct (is_space c) eqn:Hc; [exact IH | exact Hc].
Qed.

Lemma SkipWhiteSpace_fixed f :
  is_space (deref f) = false -> SkipWhiteSpace f = f.
Proof.
  destruct f as [|c f]; simpl; [reflexivity|]. now intros ->.
Qed.

(** X1.  [SkipWhiteSpace] removes a prefix made of spaces, tabs, newlines
    and carriage returns only, and stops on the first character that is
    none of them (the terminator at the latest); applying it again changes
    nothing. *)
Theorem X1_SkipWhiteSpace_prefix (f : list ascii) :
  (exists ws, f = ws ++ SkipWhiteSpace f /\ blank ws)
  /\ is_space (deref (SkipWhiteSpace f)) = false
  /\ SkipWhiteSpace (SkipWhiteSpace f) = SkipWhiteSpace f.
Proof.
  split; [apply SkipWhiteSpace_split|].
  split; [apply SkipWhiteSpace_head|].
  apply SkipWhiteSpace_fixed, SkipWhiteSpace_head.
Qed.

Lemma name_char_not_NUL c : name_char c = true -> c <> NUL.
Proof. intros H ->. discriminate. Qed.

Lemma name_start_not_NUL c : name_start c = true -> c <> NUL.
Proof. intros H ->. discriminate. Qed.

Lemma count_name_chars_spec p :
  let n := count_name_chars p in
  (n <= List.length p)%nat
  /\ forallb name_char (firstn n p) = true
  /\ name_char (deref (skipn n p)) = false.
Proof.
  induction p as [|c p [IH1 [IH2 IH3]]]; simpl.
  - repeat split. lia.
  - fold (name_char c). destruct (name_char c) eqn:Hc; simpl.
    + rewrite Hc, IH2. repeat split; [lia | exact IH3].
    + repeat split; [lia | exact Hc].
Qed.

Lemma forallb_name_char_no_NUL l :
  forallb name_char l = true -> ~ In NUL l.
Proof.
  induction l as [|c l IH]; simpl; [tauto|].
  intros H [E|E]; apply andb_prop in H; destruct H as [Hc Hl].
  - now apply name_char_not_NUL in Hc.
  - now apply IH.
Qed.

(** X2.  [GetNextTokenLength] is 0 exactly when the first character is no
    letter and no percent sign.  Otherwise it counts that character and
    the longest run of letters, digits and underscores after it: the
    character that follows the token is none of these, the token holds no
    NUL, and so the scan never goes past the terminator of the string. *)
Theorem X2_GetNextTokenLength_longest (f : list ascii) :
  (GetNextTokenLength f = O <-> name_start (deref f) = false)
  /\ (GetNextTokenLength f <= List.length f)%nat
  /\ ~ In NUL (firstn (GetNextTokenLength f) f)
  /\ (GetNextTokenLength f <> O ->
      forallb name_char (firstn (GetNextTokenLength f - 1) (tl f)) = true
      /\ name_char (deref (skipn (GetNextTokenLength f) f)) = false).
Proof.
  unfold GetNextTokenLength. fold (name_start (deref f)).
  destruct (name_start (deref f)) eqn:Hs; simpl.
  - destruct (count_name_chars_spec (tl f)) as [H1 [H2 H3]].
    destruct f as [|c f]; [discriminate|]. simpl in *.
    split; [split; discriminate|]. split; [lia|]. split.
    + intros [E|E]; [now apply name_start_not_NUL in Hs|].
      now apply forallb_name_char_no_NUL in H2.
    + intros _. rewrite Nat.sub_0_r. split; assumption.
  - split; [split; reflexivity|]. split; [lia|]. split; [tauto|].
    intros H. now elim H.
Qed.

Ltac every_char c := destruct c as [[] [] [] [] [] [] [] []].

Lemma toupper_is_space c : is_space (toupper c) = is_space c.
Proof. every_char c; reflexivity. Qed.

Lemma toupper_name_start c : name_start (toupper c) = name_start c.
Proof. every_char c; reflexivity. Qed.

Lemma toupper_name_char c : name_char (toupper c) = name_char c.
Proof. every_char c; reflexivity. Qed.

Lemma toupper_minus c : Ascii.eqb (toupper c) "-" = Ascii.eqb c "-".
Proof. every_char c; reflexivity. Qed.

Lemma toupper_plus c : Ascii.eqb (toupper c) "+" = Ascii.eqb c "+".
Proof. every_char c; reflexivity. Qed.

Lemma toupper_toupper c : toupper (toupper c) = toupper c.
Proof. every_char c; reflexivity. Qed.

Lemma toupper_stored c :
  name_start c = true \/ name_char c = true -> stored_char (toupper c) = true.
Proof. every_char c; vm_compute; intros [H|H]; congruence. Qed.

Section SameFold.

(** Two strings that differ by the case of their letters only. *)
Variables f g : list ascii.
Hypothesis fold_eq : map toupper f = map toupper g.

Lemma fold_deref : toupper (deref f) = toupper (deref g).
Proof.
  destruct f, g; simpl in *; try discriminate; [reflexivity|].
  now inversion fold_eq.
Qed.

Lemma fold_tl : map toupper (tl f) = map toupper (tl g).
Proof.
  destruct f, g; simpl in *; try discriminate; [reflexivity|].
  now inversion fold_eq.
Qed.

End SameFold.

Lemma fold_class (P : ascii -> bool) :
  (forall c, P (toupper c) = P c) ->
  forall f g, map toupper f = map toupper g -> P (deref f) = P (deref g).
Proof.
  intros HP f g E. rewrite <- (HP (deref f)), <- (HP (deref g)).
  now rewrite (fold_deref f g E).
Qed.

Lemma fold_SkipWhiteSpace f :
  forall g, map toupper f = map toupper g ->
            map toupper (SkipWhiteSpace f) = map toupper (SkipWhiteSpace g).
Proof.
  induction f as [|c f IH]; intros [|c' g] E; simpl in E; try discriminate;
    [reflexivity|].
  pose proof (fold_class is_space toupper_is_space (c :: f) (c' :: g) E) as Hc.
  simpl in Hc. simpl. rewrite <- Hc.
  destruct (is_space c); [|exact E].
  apply IH. now inversion E.
Qed.

Lemma fold_operand_start f g :
  map toupper f = map toupper g ->
  map toupper (operand_start f) = map toupper (operand_start g).
Proof.
  intros E. apply fold_SkipWhiteSpace in E. unfold operand_start.
  rewrite <- (fold_class (fun c => Ascii.eqb c "-") toupper_minus _ _ E).
  rewrite <- (fold_class (fun c => Ascii.eqb c "+") toupper_plus _ _ E).
  destruct (Ascii.eqb (deref (SkipWhiteSpace f)) "-");
    [now apply fold_tl|].
  destruct (Ascii.eqb (deref (SkipWhiteSpace f)) "+");
    [now apply fold_tl | exact E].
Qed.

Lemma fold_count_name_chars f :
  forall g, map toupper f = map toupper g ->
            count_name_chars f = count_name_chars g.
Proof.
  induction f as [|c f IH]; intros [|c' g] E; simpl in E; try discriminate;
    [reflexivity|].
  pose proof (fold_class name_char toupper_name_char (c :: f) (c' :: g) E) as Hc.
  simpl in Hc. simpl. fold (name_char c) (name_char c'). rewrite <- Hc.
  destruct (name_char c); [|reflexivity].
  f_equal. apply IH. now inversion E.
Qed.

Lemma fold_GetNextTokenLength f g :
  map toupper f = map toupper g -> GetNextTokenLength f = GetNextTokenLength g.
Proof.
  intros E. unfold GetNextTokenLength.
  fold (name_start (deref f)) (name_start (deref g)).
  rewrite <- (fold_class name_start toupper_name_start _ _ E).
  destruct (name_start (deref f)); simpl; [|reflexivity].
  f_equal. apply fold_count_name_chars. now apply fold_tl.
Qed.

Lemma fold_CopyUppercaseString n :
  forall f g, map toupper f = map toupper g ->
              CopyUppercaseString f n = CopyUppercaseString g n.
Proof.
  induction n as [|n IH]; intros f g E; simpl; [reflexivity|].
  rewrite (fold_deref f g E). f_equal. apply IH. now apply fold_tl.
Qed.

(** X3.  Names are read without regard to case: two formulas that differ
    by the case of their letters only have first operands of the same
    length and give the same token to [TokenString_m], which holds no
    lower-case letter. *)
Theorem X3_token_case_insensitive (f g : list ascii)
        (Hfold : map toupper f = map toupper g) :
  GetNextTokenLength (operand_start f) = GetNextTokenLength (operand_start g)
  /\ leading_token f = leading_token g
  /\ forallb (fun c => negb (is_lower c))
             (list_ascii_of_string (leading_token f)) = true.
Proof.
  pose proof (fold_operand_start f g Hfold) as E.
  split; [now apply fold_GetNextTokenLength|]. split.
  - unfold leading_token. rewrite (fold_GetNextTokenLength _ _ E).
    now apply fold_CopyUppercaseString.
  - unfold leading_token.
    generalize (GetNextTokenLength (operand_start f)) as n.
    generalize (operand_start f) as p.
    intros p n. revert p. induction n as [|n IH]; intros p; simpl;
      [reflexivity|].
    rewrite IH, andb_true_r. generalize (deref p) as c.
    intros c. every_char c; reflexivity.
Qed.

Lemma X3_token_case_insensitive_witness :
  map toupper (cstring "Foo + 1") = map toupper (cstring "FOO + 1")
  /\ leading_token (cstring "Foo + 1") = leading_token (cstring "FOO + 1").
Proof.
  split; [reflexivity|].
  exact (proj1 (proj2 (X3_token_case_insensitive (cstring "Foo + 1")
                         (cstring "FOO + 1") eq_refl))).
Defined.

(** ** The symbol table and its accessors *)

Lemma find_variable_absent T name i :
  0 <= i ->
  (find_variable T name i = NOTFOUND <-> ~ In name (map fst T)).
Proof.
  revert i. induction T as [|[n x] T IH]; intros i Hi; simpl.
  - tauto.
  - destruct (String.eqb_spec n name) as [E|E].
    + split; [unfold NOTFOUND; lia | intros H; elim H; now left].
    + rewrite IH by lia. tauto.
Qed.

Lemma find_variable_first T name i :
  0 <= i ->
  find_variable T name i <> NOTFOUND ->
  nth (Z.to_nat (find_variable T name i - i)) (map fst T) EmptyString = name
  /\ forall j, (j < Z.to_nat (find_variable T name i - i))%nat ->
               nth j (map fst T) EmptyString <> name.
Proof.
  revert i. induction T as [|[n x] T IH]; intros i Hi H; simpl in *.
  - now elim H.
  - destruct (String.eqb_spec n name) as [E|E].
    + rewrite Z.sub_diag. simpl. split; [exact E | intros j Hj; lia].
    + destruct (IH (i + 1) ltac:(lia) H) as [H1 H2].
      destruct (find_variable_range T name (i + 1) ltac:(lia)) as [R|R];
        [contradiction|].
      replace (Z.to_nat (find_variable T name (i + 1) - i))
        with (S (Z.to_nat (find_variable T name (i + 1) - (i + 1)))) by lia.
      split; [exact H1|].
      intros [|j] Hj; [exact E | apply H2; lia].
Qed.

Lemma find_variable_names T T' name i :
  map fst T = map fst T' -> find_variable T name i = find_variable T' name i.
Proof.
  revert T' i. induction T as [|[n x] T IH]; intros [|[n' x'] T'] i E;
    simpl in E; try discriminate; [reflexivity|].
  inversion E; subst. simpl. destruct (String.eqb n' name); [reflexivity|].
  now apply IH.
Qed.

Lemma find_variable_app_other T name v other i :
  other <> name ->
  find_variable (T ++ [(name, v)]) other i = find_variable T other i.
Proof.
  intros Hne. revert i. induction T as [|[n x] T IH]; intros i; simpl.
  - destruct (String.eqb_spec name other) as [E|E]; [now elim Hne|reflexivity].
  - destruct (String.eqb n other); [reflexivity | apply IH].
Qed.

Lemma load_value_app T e j :
  (j < List.length T)%nat -> load_value (T ++ [e]) j = load_value T j.
Proof. intros H. unfold load_value. now rewrite app_nth1. Qed.

Lemma load_value_name T i :
  fst (nth i T (EmptyString, 0%float)) = nth i (map fst T) EmptyString.
Proof. now rewrite <- (map_nth fst). Qed.

Lemma GetVariableID_first T name :
  GetVariableID T name <> NOTFOUND ->
  nth (Z.to_nat (GetVariableID T name)) (map fst T) EmptyString = name
  /\ forall j, (j < Z.to_nat (GetVariableID T name))%nat ->
               nth j (map fst T) EmptyString <> name.
Proof.
  intros H. pose proof (find_variable_first T name 0 (Z.le_refl 0) H) as F.
  unfold GetVariableID. now rewrite Z.sub_0_r in F.
Qed.

Lemma GetVariableID_absent T name :
  GetVariableID T name = NOTFOUND <-> ~ In name (map fst T).
Proof. apply find_variable_absent. lia. Qed.

(** X4.  [GetVariableID] compares names exactly and returns the index of
    the first entry with the name: a valid index, no earlier entry bearing
    the name; it returns [NOTFOUND] exactly when no entry has the name. *)
Theorem X4_GetVariableID_first_match (T : list (string * float))
        (name : string) :
  (GetVariableID T name = NOTFOUND <-> ~ In name (map fst T))
  /\ (GetVariableID T name <> NOTFOUND ->
      0 <= GetVariableID T name < Z.of_nat (List.length T)
      /\ nth (Z.to_nat (GetVariableID T name)) (map fst T) EmptyString = name
      /\ forall j, (j < Z.to_nat (GetVariableID T name))%nat ->
                   nth j (map fst T) EmptyString <> name).
Proof.
  split; [apply GetVariableID_absent|].
  intros H. split; [now apply GetVariableID_range|].
  now apply GetVariableID_first.
Qed.

Lemma lookup_value_names_other T name i v other :
  nth i (map fst T) EmptyString = name ->
  other <> name ->
  lookup_value (store_value T i v) other = lookup_value T other.
Proof.
  intros Hn Hne. unfold lookup_value, GetVariableID.
  rewrite (find_variable_names (store_value T i v) T other 0)
    by apply store_value_names.
  fold (GetVariableID T other).
  destruct (GetVariableID T other =? NOTFOUND) eqn:E; [reflexivity|].
  apply Z.eqb_neq in E.
  destruct (GetVariableID_first T other E) as [Hj _].
  rewrite load_store_value_other; [reflexivity|].
  intros ->. rewrite Hn in Hj. now elim Hne.
Qed.

(** X5.  [AssignVariable] returns [NOROOM], [NOHEAP] or a valid index.
    With a negative result the table is unchanged.  With an index, the
    name is found at that index and holds the value given, and every
    other name is found where it was, or still not found, with the value
    it had.  [NOROOM] is returned exactly for a new name on a table of
    [MAXNUMBERVAR] entries or more. *)
Theorem X5_AssignVariable_stores (libc : clib) (name : string) (v : float)
        (T : list (string * float)) :
  (fst (AssignVariable libc name v T) = NOROOM
   \/ fst (AssignVariable libc name v T) = NOHEAP
   \/ 0 <= fst (AssignVariable libc name v T)
      < Z.of_nat (List.length (snd (AssignVariable libc name v T))))
  /\ (fst (AssignVariable libc name v T) < 0 ->
      snd (AssignVariable libc name v T) = T)
  /\ (0 <= fst (AssignVariable libc name v T) ->
      GetVariableID (snd (AssignVariable libc name v T)) name
      = fst (AssignVariable libc name v T)
      /\ lookup_value (snd (AssignVariable libc name v T)) name = Some v
      /\ forall other,
          other <> name ->
          GetVariableID (snd (AssignVariable libc name v T)) other
          = GetVariableID T other
          /\ lookup_value (snd (AssignVariable libc name v T)) other
             = lookup_value T other)
  /\ (fst (AssignVariable libc name v T) = NOROOM <->
      GetVariableID T name = NOTFOUND
      /\ (MAXNUMBERVAR <= List.length T)%nat).
Proof.
  unfold AssignVariable.
  destruct (GetVariableID T name =? NOTFOUND) eqn:Ef.
  - apply Z.eqb_eq in Ef.
    destruct (MAXNUMBERVAR <=? List.length T)%nat eqn:Efull.
    { apply Nat.leb_le in Efull. cbn [fst snd].
      split; [now left|]. split; [reflexivity|].
      split; [unfold NOROOM; intros; lia|]. split; auto. }
    apply Nat.leb_gt in Efull.
    destruct (negb (calloc_ok libc (String.length name + 1))).
    { cbn [fst snd].
      split; [right; now left|]. split; [reflexivity|].
      split; [unfold NOHEAP; intros; lia|].
      unfold NOROOM, NOHEAP. split; [discriminate | intros [_ H]; lia]. }
    cbn [fst snd].
    assert (Hid : GetVariableID (T ++ [(name, v)]) name
                  = Z.of_nat (List.length T)).
    { unfold GetVariableID. rewrite find_variable_app_new; [lia|lia|exact Ef]. }
    split; [right; right; rewrite length_app; simpl; lia|].
    split; [lia|]. split.
    + intros _. split; [exact Hid|]. split.
      * unfold lookup_value. rewrite Hid.
        destruct (Z.of_nat (List.length T) =? NOTFOUND) eqn:E;
          [apply Z.eqb_eq in E; unfold NOTFOUND in E; lia|].
        unfold load_value. rewrite Nat2Z.id, nth_middle. reflexivity.
      * intros other Hne.
        assert (Hg : GetVariableID (T ++ [(name, v)]) other
                     = GetVariableID T other)
          by now apply find_variable_app_other.
        split; [exact Hg|]. unfold lookup_value. rewrite Hg.
        destruct (GetVariableID T other =? NOTFOUND) eqn:E; [reflexivity|].
        apply Z.eqb_neq in E. pose proof (GetVariableID_range T other E).
        f_equal. apply load_value_app. lia.
    + unfold NOROOM. split; [lia|]. intros [_ H]. lia.
  - apply Z.eqb_neq in Ef. cbn [fst snd].
    pose proof (GetVariableID_range T name Ef) as Hr.
    destruct (GetVariableID_first T name Ef) as [Hn _].
    assert (Hg : forall other,
               GetVariableID
                 (store_value T (Z.to_nat (GetVariableID T name)) v) other
               = GetVariableID T other).
    { intros other. apply find_variable_names, store_value_names. }
    split; [right; right; rewrite store_value_length; lia|].
    split; [lia|]. split.
    + intros _. split; [apply Hg|].
      split; [now apply lookup_value_store_same|].
      intros other Hne. split; [apply Hg|].
      now apply lookup_value_names_other with (name := name).
    + unfold NOROOM. split; [lia|]. intros [H _]. contradiction.
Qed.

(** X6.  [listvar] gives [NULL] exactly from the number of variables on.
    The index [GetVariableID] finds for a name lists that name with its
    value, and on a table of distinct names the index that lists a name is
    the one [GetVariableID] finds: the two are inverse of each other. *)
Theorem X6_listvar_GetVariableID (st : state)
        (Hdistinct : NoDup (map fst (Variables_m st))) :
  (forall i, 0 <= i ->
             (listvar i st = NoVariable
              <-> Z.of_nat (List.length (Variables_m st)) <= i))
  /\ (forall name,
         GetVariableID (Variables_m st) name <> NOTFOUND ->
         listvar (GetVariableID (Variables_m st) name) st
         = VariableEntry name
             (load_value (Variables_m st)
                (Z.to_nat (GetVariableID (Variables_m st) name))))
  /\ (forall i name val,
         listvar i st = VariableEntry name val ->
         GetVariableID (Variables_m st) name = i
         /\ lookup_value (Variables_m st) name = Some val).
Proof.
  unfold listvar, NumberOfVariables_m.
  split; [|split].
  - intros i Hi.
    destruct (Z.of_nat (List.length (Variables_m st)) <=? i) eqn:E.
    + apply Z.leb_le in E. tauto.
    + apply Z.leb_gt in E.
      destruct (i <? 0) eqn:E0; [apply Z.ltb_lt in E0; lia|].
      split; [discriminate | lia].
  - intros name Hf.
    pose proof (GetVariableID_range _ _ Hf) as Hr.
    destruct (GetVariableID_first (Variables_m st) name Hf) as [Hn _].
    destruct (Z.of_nat (List.length (Variables_m st))
              <=? GetVariableID (Variables_m st) name) eqn:E;
      [apply Z.leb_le in E; lia|].
    destruct (GetVariableID (Variables_m st) name <? 0) eqn:E0;
      [apply Z.ltb_lt in E0; lia|].
    rewrite load_value_name, Hn. reflexivity.
  - intros i name val.
    destruct (Z.of_nat (List.length (Variables_m st)) <=? i) eqn:E;
      [discriminate|].
    destruct (i <? 0) eqn:E0; [discriminate|].
    apply Z.leb_gt in E. apply Z.ltb_ge in E0.
    intros H.
    assert (Hn : nth (Z.to_nat i) (map fst (Variables_m st)) EmptyString
                 = name).
    { rewrite <- load_value_name. now inversion H. }
    assert (Hv : load_value (Variables_m st) (Z.to_nat i) = val)
      by now inversion H.
    clear H.
    assert (Hin : In name (map fst (Variables_m st))).
    { rewrite <- Hn. apply nth_In. rewrite length_map. lia. }
    assert (Hf : GetVariableID (Variables_m st) name <> NOTFOUND).
    { intros Habs. apply GetVariableID_absent in Habs. contradiction. }
    pose proof (GetVariableID_range _ _ Hf) as Hr.
    destruct (GetVariableID_first _ _ Hf) as [Hk _].
    assert (Hidx : Z.to_nat (GetVariableID (Variables_m st) name)
                   = Z.to_nat i).
    { apply (proj1 (NoDup_nth (map fst (Variables_m st)) EmptyString)
                   Hdistinct);
        rewrite ?length_map; try lia. now rewrite Hk, Hn. }
    split; [lia|].
    unfold lookup_value. apply Z.eqb_neq in Hf. rewrite Hf, Hidx, Hv.
    reflexivity.
Qed.

Lemma X6_listvar_GetVariableID_witness :
  let st := set_Variables [("A"%string, 1%float); ("B"%string, 2%float)]
                          initial_state in
  NoDup (map fst (Variables_m st))
  /\ listvar (GetVariableID (Variables_m st) "B") st
     = VariableEntry "B" 2%float.
Proof.
  intros st.
  assert (H : NoDup (map fst (Variables_m st))).
  { simpl. repeat constructor; simpl; intuition discriminate. }
  split; [exact H|].
  apply (proj1 (proj2 (X6_listvar_GetVariableID st H)) "B"%string).
  vm_compute. discriminate.
Defined.

Lemma parsemsg_out_of_range z :
  z < 0 \/ 11 < z -> parsemsg z = "internal error:  Unknown error code."%string.
Proof.
  intros H. destruct z as [|p|p]; [lia| |reflexivity].
  do 4 (try (destruct p as [p|p|]; try reflexivity; try (exfalso; lia))).
Qed.

Lemma errorcode_value_range e : 0 <= errorcode_value e <= 11.
Proof. destruct e; simpl; lia. Qed.

(** X7.  [parsemsg] gives the empty message for the code 0 only, a
    different message for each of the twelve codes of [errorcode_t], and
    the internal-error message exactly for the integers that are no code;
    so no code [evalform] reports gets the internal-error message. *)
Theorem X7_parsemsg_distinct :
  (forall e1 e2,
      parsemsg (errorcode_value e1) = parsemsg (errorcode_value e2) -> e1 = e2)
  /\ (forall z, parsemsg z = EmptyString <-> z = 0)
  /\ (forall z, parsemsg z = "internal error:  Unknown error code."%string
                <-> z < 0 \/ 11 < z)
  /\ (forall libc f st, exists v st',
         evalform libc f st = Done (v, st')
         /\ parsemsg (errorcode_value (ErrorCode_m st'))
            <> "internal error:  Unknown error code."%string).
Proof.
  assert (Hcases : forall z, 0 <= z <= 11 ->
                             exists e, z = errorcode_value e).
  { intros z Hz.
    assert (z = 0 \/ z = 1 \/ z = 2 \/ z = 3 \/ z = 4 \/ z = 5 \/ z = 6
            \/ z = 7 \/ z = 8 \/ z = 9 \/ z = 10 \/ z = 11) as H by lia.
    destruct H as [->|[->|[->|[->|[->|[->|[->|[->|[->|[->|[->| ->]]]]]]]]]]].
    - now exists ERROR_none.
    - now exists ERROR_operand.
    - now exists ERROR_openparen.
    - now exists ERROR_closeparen.
    - now exists ERROR_operator.
    - now exists ERROR_division.
    - now exists ERROR_function.
    - now exists ERROR_variable_expected.
    - now exists ERROR_variable_full.
    - now exists ERROR_variable_long.
    - now exists ERROR_heap_full.
    - now exists ERROR_parameter. }
  assert (Hinternal : forall e,
             parsemsg (errorcode_value e)
             <> "internal error:  Unknown error code."%string)
    by (intros e; destruct e; discriminate).
  split; [|split; [|split]].
  - intros e1 e2. destruct e1, e2; simpl; intros H;
      try reflexivity; discriminate.
  - intros z. split; [|now intros ->].
    intros H. destruct (Z.ltb_spec z 0) as [Hn|Hn];
      [rewrite parsemsg_out_of_range in H by lia; discriminate|].
    destruct (Z.ltb_spec 11 z) as [Hp|Hp];
      [rewrite parsemsg_out_of_range in H by lia; discriminate|].
    destruct (Hcases z ltac:(lia)) as [e ->].
    destruct e; try discriminate. reflexivity.
  - intros z. split; [|apply parsemsg_out_of_range].
    intros H. destruct (Z.ltb_spec z 0) as [Hn|Hn]; [now left|].
    destruct (Z.ltb_spec 11 z) as [Hp|Hp]; [now right|].
    destruct (Hcases z ltac:(lia)) as [e ->]. now apply Hinternal in H.
  - intros libc f st. destruct (evalform_total libc f st) as [v [st' E]].
    exists v, st'. split; [exact E | apply Hinternal].
Qed.

(** ** Properties of the table that every evaluation keeps *)

Lemma bind_Done {A B : Type} (c : outcome A) (k : A -> outcome B) (b : B) :
  bind c k = Done b -> exists a, c = Done a /\ k a = Done b.
Proof. destruct c as [a| |]; simpl; intros H; try discriminate. eauto. Qed.

Section TableInvariant.

Variable libc : clib.

(** A property of the table that storing a value into a slot keeps, and
    that appending a new name, as it is read from a formula, keeps. *)
Variable I : list (string * float) -> Prop.

Hypothesis I_store : forall T i v, I T -> I (store_value T i v).

Hypothesis I_append :
  forall T f,
    (0 < GetNextTokenLength f < MAXTOKENLENGTH)%nat ->
    GetVariableID T (CopyUppercaseString f (GetNextTokenLength f)) = NOTFOUND ->
    I T ->
    I (T ++ [(CopyUppercaseString f (GetNextTokenLength f), 0%float)]).

Lemma EvaluateFunction_table fn x st v st' :
  EvaluateFunction libc fn x st = Done (v, st') ->
  Variables_m st' = Variables_m st.
Proof.
  unfold EvaluateFunction.
  destruct (negb (argument_ok fn x)); [intros H; now inversion H|].
  destruct fn; try discriminate; try (intros H; now inversion H).
  destruct (PrimFloat.ltb x 0); intros H; now inversion H.
Qed.

Section OneActivation.

Variable recurse : operator_t -> state -> outcome (float * operator_t * state).

Hypothesis recurse_keeps :
  forall pend st v op st',
    recurse pend st = Done (v, op, st') ->
    I (Variables_m st) -> I (Variables_m st').

Lemma ParseParenthetical_keeps st r :
  ParseParenthetical recurse st = Done r ->
  I (Variables_m st) ->
  match r with
  | Operand _ _ st' => I (Variables_m st')
  | EarlyReturn st' => I (Variables_m st')
  end.
Proof.
  unfold ParseParenthetical. intros H HI.
  apply bind_Done in H. destruct H as [[[v op] st3] [Hrec H]].
  apply recurse_keeps in Hrec; [|exact HI].
  destruct (negb (errorcode_eqb (ErrorCode_m st3) ERROR_none));
    [inversion H; exact Hrec|].
  destruct (negb (operator_eqb op OP_CloseParenthesis));
    inversion H; exact Hrec.
Qed.

Lemma ParseName_keeps st r :
  ParseName libc recurse st = Done r ->
  I (Variables_m st) ->
  match r with
  | Operand _ _ st' => I (Variables_m st')
  | EarlyReturn st' => I (Variables_m st')
  end.
Proof.
  unfold ParseName. intros H HI.
  set (n := GetNextTokenLength (FormulaString_m st)) in *.
  destruct (n =? 0)%nat eqn:E0; [inversion H; exact HI|].
  destruct (MAXTOKENLENGTH <=? n)%nat eqn:E1; [inversion H; exact HI|].
  apply Nat.eqb_neq in E0. apply Nat.leb_gt in E1.
  cbn [TokenString_m FormulaString_m Variables_m set_TokenString
       set_FormulaString] in H.
  set (tok := CopyUppercaseString (FormulaString_m st) n) in *.
  destruct (String.eqb tok "%E"); [inversion H; exact HI|].
  destruct (String.eqb tok "%PI"); [inversion H; exact HI|].
  destruct (function_eq_dec (LookupFunction tok) FUNC_err) as [Hfn|Hfn].
  - destruct (GetVariableID (Variables_m st) tok =? NOTFOUND) eqn:Ef;
      [|inversion H; exact HI].
    apply Z.eqb_eq in Ef. unfold AssignVariable in H. rewrite Ef in H.
    rewrite Z.eqb_refl in H.
    destruct (MAXNUMBERVAR <=? List.length (Variables_m st))%nat;
      [inversion H; exact HI|].
    destruct (negb (calloc_ok libc (String.length tok + 1)));
      [inversion H; exact HI|].
    assert (Hnew : I (Variables_m st ++ [(tok, 0%float)])).
    { apply I_append; [fold n; lia | exact Ef | exact HI]. }
    destruct (Z.of_nat (List.length (Variables_m st)) =? NOROOM);
      [inversion H; exact Hnew|].
    destruct (Z.of_nat (List.length (Variables_m st)) =? NOHEAP);
      inversion H; exact Hnew.
  - destruct (Ascii.eqb _ "("); [|inversion H; exact HI].
    apply bind_Done in H. destruct H as [p [Hp H]].
    apply ParseParenthetical_keeps in Hp; [|exact HI].
    destruct p as [v id st4|st4]; [|inversion H; exact Hp].
    apply bind_Done in H. destruct H as [[v' st5] [Hev H]].
    apply EvaluateFunction_table in Hev.
    destruct (negb (errorcode_eqb (ErrorCode_m st5) ERROR_none));
      inversion H; subst; now rewrite Hev.
Qed.

Lemma ParseValue_keeps st r :
  ParseValue libc recurse st = Done r ->
  I (Variables_m st) ->
  match r with
  | Operand _ _ st' => I (Variables_m st')
  | EarlyReturn st' => I (Variables_m st')
  end.
Proof.
  rewrite ParseValue_unfold. cbv zeta. intros H HI.
  apply bind_Done in H. destruct H as [p [Hp H]].
  assert (Hkeep : match p with
                  | Operand _ _ st' => I (Variables_m st')
                  | EarlyReturn st' => I (Variables_m st')
                  end).
  { destruct (Ascii.eqb (deref (operand_start (FormulaString_m st))) "(").
    - now apply ParseParenthetical_keeps in Hp.
    - destruct (isdigit _ || Ascii.eqb _ ".").
      + destruct (strtod (operand_start (FormulaString_m st))) as [v f'].
        inversion Hp. exact HI.
      + now apply ParseName_keeps in Hp. }
  destruct p; inversion H; exact Hkeep.
Qed.

Lemma ApplyLoop_keeps n :
  forall pend cur v id st r,
    ApplyLoop libc recurse n pend cur v id st = Done r ->
    I (Variables_m st) -> I (Variables_m (snd r)).
Proof.
  induction n as [|n IH]; intros pend cur v id st r H HI; [discriminate|].
  cbn [ApplyLoop] in H.
  destruct (if errorcode_eqb (ErrorCode_m st) ERROR_none
            then ApplyCriterion cur pend else false);
    [|inversion H; exact HI].
  assert (Hstep : forall f : float -> float,
             ('(v1, op, st1) <- recurse cur st ;;
              ApplyLoop libc recurse n pend op (f v1) id st1) = Done r ->
             I (Variables_m (snd r))).
  { intros f Hf. apply bind_Done in Hf.
    destruct Hf as [[[v1 op] st1] [Hrec Hf]].
    apply IH in Hf; [exact Hf|]. eapply recurse_keeps; eassumption. }
  destruct cur.
  - eapply IH; eassumption.
  - eapply IH; eassumption.
  - eapply IH; [exact H|].
    destruct (ParenthesisLevel_m _ <? 0); exact HI.
  - eapply IH; eassumption.
  - destruct (id =? NOTFOUND); [inversion H; exact HI|].
    apply bind_Done in H. destruct H as [[[v1 op] st1] [Hrec H]].
    apply IH in H; [exact H|]. cbn [Variables_m set_Variables].
    apply I_store. eapply recurse_keeps; eassumption.
  - exact (Hstep (fun v1 => (v + v1)%float) H).
  - exact (Hstep (fun v1 => (v - v1)%float) H).
  - exact (Hstep (fun v1 => (v * v1)%float) H).
  - apply bind_Done in H. destruct H as [[[v1 op] st1] [Hrec H]].
    unfold ApplyDivide in H.
    destruct (PrimFloat.eqb (DivisorValue_m (set_DivisorValue v1 st1)) 0);
      apply IH in H; try exact H; cbn [Variables_m set_ErrorCode
                                       set_DivisorValue];
      eapply recurse_keeps; eassumption.
  - exact (Hstep (fun v1 => c_pow libc v v1) H).
Qed.

Lemma ParseBody_keeps n pend st r :
  ParseBody libc recurse n pend st = Done r ->
  I (Variables_m st) -> I (Variables_m (snd r)).
Proof.
  unfold ParseBody. intros H HI.
  apply bind_Done in H. destruct H as [p [Hp H]].
  apply ParseValue_keeps in Hp; [|exact HI].
  destruct p as [v id st1|st1]; [|inversion H; exact Hp].
  destruct (GetOperator _); [|inversion H; exact Hp].
  apply ApplyLoop_keeps in H; exact H || exact Hp.
Qed.

End OneActivation.

Lemma ParseFormula_keeps fuel :
  forall pend st v op st',
    ParseFormula libc fuel pend st = Done (v, op, st') ->
    I (Variables_m st) -> I (Variables_m st').
Proof.
  induction fuel as [|k IH]; intros pend st v op st' H HI; [discriminate|].
  cbn [ParseFormula] in H.
  exact (ParseBody_keeps (ParseFormula libc k) IH k pend st (v, op, st') H HI).
Qed.

Lemma evalform_keeps f st v st' :
  evalform libc f st = Done (v, st') ->
  I (Variables_m st) -> I (Variables_m st').
Proof.
  unfold evalform. intros H HI.
  apply bind_Done in H. destruct H as [[[v0 op] st4] [Hp H]].
  inversion H; subst. eapply ParseFormula_keeps; [exact Hp | exact HI].
Qed.

End TableInvariant.

Lemma NoDup_app_new {A : Type} (l : list A) (x : A) :
  NoDup l -> ~ In x l -> NoDup (l ++ [x]).
Proof.
  induction l as [|a l IH]; simpl; intros H Hx.
  - constructor; [tauto | constructor].
  - inversion H; subst. constructor.
    + rewrite in_app_iff. simpl. intros [Hin|[E|[]]]; [contradiction|].
      subst. apply Hx. now left.
    + apply IH; [assumption | tauto].
Qed.

Lemma AssignVariable_distinct libc name v T :
  NoDup (map fst T) -> NoDup (map fst (snd (AssignVariable libc name v T))).
Proof.
  intros H. unfold AssignVariable.
  destruct (GetVariableID T name =? NOTFOUND) eqn:Ef; cbn [snd].
  - apply Z.eqb_eq in Ef.
    destruct (MAXNUMBERVAR <=? List.length T)%nat; cbn [snd]; [exact H|].
    destruct (negb (calloc_ok libc (String.length name + 1))); cbn [snd];
      [exact H|].
    rewrite map_app. apply NoDup_app_new; [exact H|].
    now apply GetVariableID_absent.
  - now rewrite store_value_names.
Qed.

(** X8.  Names stay distinct.  [AssignVariable] never enters a name
    twice, and a table whose names are distinct still has distinct names
    after any call of [evalform], which always returns. *)
Theorem X8_names_stay_distinct (libc : clib) (f : list ascii) (st : state)
        (Hdistinct : NoDup (map fst (Variables_m st))) :
  (exists v st',
      evalform libc f st = Done (v, st')
      /\ NoDup (map fst (Variables_m st')))
  /\ (forall name v T,
         NoDup (map fst T) ->
         NoDup (map fst (snd (AssignVariable libc name v T)))).
Proof.
  split; [|intros name v T; apply AssignVariable_distinct].
  destruct (evalform_total libc f st) as [v [st' E]].
  exists v, st'. split; [exact E|].
  eapply (evalform_keeps libc (fun T => NoDup (map fst T)));
    [| |exact E|exact Hdistinct].
  - intros T i x H. now rewrite store_value_names.
  - intros T p _ Hnew H. rewrite map_app. apply NoDup_app_new; [exact H|].
    now apply GetVariableID_absent.
Qed.

Lemma X8_names_stay_distinct_witness :
  NoDup (map fst (Variables_m initial_state))
  /\ exists v st',
      evalform sample_clib (cstring "a = b + a") initial_state = Done (v, st')
      /\ NoDup (map fst (Variables_m st')).
Proof.
  assert (H : NoDup (map fst (Variables_m initial_state))) by constructor.
  split; [exact H|].
  exact (proj1 (X8_names_stay_distinct sample_clib (cstring "a = b + a")
                  initial_state H)).
Defined.

Lemma CopyUppercaseString_chars n :
  forall p, (n <= List.length p)%nat ->
            list_ascii_of_string (CopyUppercaseString p n)
            = map toupper (firstn n p).
Proof.
  induction n as [|n IH]; intros p H; simpl; [reflexivity|].
  destruct p as [|c p]; simpl in *; [lia|].
  f_equal. apply IH. lia.
Qed.

Lemma GetNextTokenLength_chars p :
  GetNextTokenLength p <> O ->
  (GetNextTokenLength p <= List.length p)%nat
  /\ exists c rest,
      firstn (GetNextTokenLength p) p = c :: rest
      /\ name_start c = true /\ forallb name_char rest = true.
Proof.
  unfold GetNextTokenLength. fold (name_start (deref p)).
  destruct (name_start (deref p)) eqn:Hs; simpl; [|intros H; now elim H].
  intros _. destruct p as [|c p]; [discriminate|]. simpl in *.
  destruct (count_name_chars_spec p) as [H1 [H2 _]].
  split; [lia|]. exists c, (firstn (count_name_chars p) p). auto.
Qed.

Lemma token_stored_name p :
  (0 < GetNextTokenLength p < MAXTOKENLENGTH)%nat ->
  stored_name (CopyUppercaseString p (GetNextTokenLength p)).
Proof.
  intros H. split; [now rewrite CopyUppercaseString_length|].
  destruct (GetNextTokenLength_chars p ltac:(lia)) as [Hl [c [rest [E [Hc Hr]]]]].
  rewrite CopyUppercaseString_chars by exact Hl. rewrite E. simpl.
  rewrite toupper_stored by now left. simpl.
  clear E. induction rest as [|a rest IH]; simpl in *; [reflexivity|].
  apply andb_prop in Hr. destruct Hr as [Ha Hr].
  rewrite toupper_stored by now right. now apply IH.
Qed.

(** X9.  What a stored name looks like.  A name token read from a formula
    is stored with 1 to 31 characters, each an upper-case letter, a digit,
    an underscore or a percent sign; a table whose names all have that
    shape keeps it through any call of [evalform]. *)
Theorem X9_stored_names_shape (libc : clib) (f : list ascii) (st : state)
        (Hshape : Forall (fun e => stored_name (fst e)) (Variables_m st)) :
  (exists v st',
      evalform libc f st = Done (v, st')
      /\ Forall (fun e => stored_name (fst e)) (Variables_m st'))
  /\ (forall p, (0 < GetNextTokenLength p < MAXTOKENLENGTH)%nat ->
                stored_name (CopyUppercaseString p (GetNextTokenLength p))).
Proof.
  split; [|exact token_stored_name].
  destruct (evalform_total libc f st) as [v [st' E]].
  exists v, st'. split; [exact E|].
  eapply (evalform_keeps libc (Forall (fun e => stored_name (fst e))));
    [| |exact E|exact Hshape].
  - intros T i x H. rewrite Forall_forall in *. intros e He.
    assert (Hin : In (fst e) (map fst (store_value T i x)))
      by now apply in_map.
    rewrite store_value_names in Hin. apply in_map_iff in Hin.
    destruct Hin as [e' [Ee' Hin]]. rewrite <- Ee'. now apply H.
  - intros T p Hlen _ H. apply Forall_app. split; [exact H|].
    constructor; [|constructor]. now apply token_stored_name.
Qed.

Lemma X9_stored_names_shape_witness :
  Forall (fun e => stored_name (fst e)) (Variables_m initial_state)
  /\ exists v st',
      evalform sample_clib (cstring "rate_1 = %x + 2") initial_state
      = Done (v, st')
      /\ Forall (fun e => stored_name (fst e)) (Variables_m st').
Proof.
  assert (H : Forall (fun e => stored_name (fst e))
                     (Variables_m initial_state)) by constructor.
  split; [exact H|].
  exact (proj1 (X9_stored_names_shape sample_clib
                  (cstring "rate_1 = %x + 2") initial_state H)).
Defined.

(** X10.  [evalform] always returns: for every formula, every state and
    every library the recursion ends, and the [exit] of [EvaluateFunction]
    is never reached.  The cursor it reports points into the formula, at
    or after its start. *)
Theorem X10_evalform_returns (libc : clib) (f : list ascii) (st : state) :
  exists v st',
    evalform libc f st = Done (v, st')
    /\ is_suffix (FormulaString_m st') f
    /\ (List.length (FormulaString_m st') <= List.length f)%nat.
Proof.
  destruct (evalform_evolves libc f st) as [[v st'] [E Hev]].
  exists v, st'. split; [exact E|].
  pose proof (ev_cursor _ _ Hev) as Hs. simpl in Hs.
  split; [exact Hs | now apply is_suffix_length].
Qed.

(** X11.  Variables are never removed nor moved: after any call of
    [evalform] the table has the names it had, in the same slots, followed
    by the names the formula created; so an index obtained from
    [GetVariableID] or [AssignVariable] stays the index of its name. *)
Theorem X11_variables_keep_their_index (libc : clib) (f : list ascii)
        (st : state) (name : string)
        (Hfound : GetVariableID (Variables_m st) name <> NOTFOUND) :
  exists v st',
    evalform libc f st = Done (v, st')
    /\ GetVariableID (Variables_m st') name = GetVariableID (Variables_m st) name
    /\ (List.length (Variables_m st) <= List.length (Variables_m st'))%nat
    /\ exists new,
        map fst (Variables_m st') = map fst (Variables_m st) ++ new.
Proof.
  destruct (evalform_evolves libc f st) as [[v st'] [E Hev]].
  exists v, st'. split; [exact E|].
  destruct (ev_names _ _ Hev) as [new Hnew]. simpl in Hnew.
  split; [now apply GetVariableID_extend with (new := new)|].
  split; [|now exists new].
  apply (f_equal (@List.length string)) in Hnew.
  rewrite length_app, !length_map in Hnew. lia.
Qed.

Lemma X11_variables_keep_their_index_witness :
  let st := set_Variables [("A"%string, 1%float); ("B"%string, 2%float)]
                          initial_state in
  GetVariableID (Variables_m st) "B" <> NOTFOUND
  /\ exists v st',
      evalform sample_clib (cstring "c = b + a") st = Done (v, st')
      /\ GetVariableID (Variables_m st') "B" = GetVariableID (Variables_m st) "B".
Proof.
  intros st.
  assert (H : GetVariableID (Variables_m st) "B" <> NOTFOUND)
    by (vm_compute; discriminate).
  split; [exact H|].
  destruct (X11_variables_keep_their_index sample_clib (cstring "c = b + a")
              st "B" H) as [v [st' [E [Hid _]]]].
  exists v, st'. split; assumption.
Defined.

(** ** Operands that are refused *)

Lemma ParseBody_bad_operand libc recurse n pend st :
  operand_char (deref (operand_start (FormulaString_m st))) = false ->
  ParseBody libc recurse n pend st
  = Done (DEFAULT_RETURN, pend,
          set_ErrorCode ERROR_operand
            (set_FormulaString (operand_start (FormulaString_m st)) st)).
Proof.
  unfold operand_char. intros H.
  apply orb_false_elim in H. destruct H as [H Hs].
  apply orb_false_elim in H. destruct H as [H Hdot].
  apply orb_false_elim in H. destruct H as [Hpar Hdig].
  unfold ParseBody. rewrite ParseValue_unfold. cbv zeta.
  rewrite Hpar, Hdig, Hdot. cbn [orb]. unfold ParseName.
  cbn [FormulaString_m set_FormulaString].
  unfold GetNextTokenLength.
  fold (name_start (deref (operand_start (FormulaString_m st)))).
  rewrite Hs. reflexivity.
Qed.

(** X12.  Where an operand is expected (after the white space and one
    optional sign) and the next character is no parenthesis, no digit, no
    period, no letter and no percent sign, the activation returns
    [DEFAULT_RETURN] with the bad-operand code, the cursor on that
    character, the pending operator and the table untouched.  For the
    first operand of a formula, [evalform] so returns 0; an empty formula,
    a second sign, an operator or a closing parenthesis in operand
    position are instances. *)
Theorem X12_operand_expected (libc : clib)
        (recurse : operator_t -> state -> outcome (float * operator_t * state))
        (n : nat) (pend : operator_t) (st : state) (f : list ascii)
        (Hbad : operand_char (deref (operand_start (FormulaString_m st)))
                = false)
        (Hbad0 : operand_char (deref (operand_start f)) = false) :
  ParseBody libc recurse n pend st
  = Done (DEFAULT_RETURN, pend,
          set_ErrorCode ERROR_operand
            (set_FormulaString (operand_start (FormulaString_m st)) st))
  /\ exists st',
      evalform libc f st = Done (0%float, st')
      /\ ErrorCode_m st' = ERROR_operand
      /\ FormulaString_m st' = operand_start f
      /\ Variables_m st' = Variables_m st.
Proof.
  split; [now apply ParseBody_bad_operand|].
  eexists. rewrite evalform_unfold, ParseBody_bad_operand by exact Hbad0.
  cbn [bind]. repeat split.
Qed.

Lemma X12_operand_expected_witness :
  let st := entry_state (cstring "*2") initial_state in
  (operand_char (deref (operand_start (FormulaString_m st))) = false
   /\ operand_char (deref (operand_start (cstring "--1"))) = false)
  /\ exists st',
      evalform sample_clib (cstring "--1") st = Done (0%float, st')
      /\ ErrorCode_m st' = ERROR_operand
      /\ FormulaString_m st' = operand_start (cstring "--1")
      /\ Variables_m st' = Variables_m st.
Proof.
  intros st. split; [split; reflexivity|].
  exact (proj2 (X12_operand_expected sample_clib (ParseFormula sample_clib 3)
                  2 OP_BeginLine st (cstring "--1") eq_refl eq_refl)).
Defined.

Lemma LookupFunction_not_constant tok :
  LookupFunction tok <> FUNC_err ->
  String.eqb tok "%E" = false /\ String.eqb tok "%PI" = false.
Proof.
  intros H. split.
  - destruct (String.eqb_spec tok "%E") as [->|]; [now elim H | reflexivity].
  - destruct (String.eqb_spec tok "%PI") as [->|]; [now elim H | reflexivity].
Qed.

Lemma ParseBody_function_without_argument libc recurse n pend st :
  let f0 := operand_start (FormulaString_m st) in
  let k := GetNextTokenLength f0 in
  let tok := CopyUppercaseString f0 k in
  (0 < k < MAXTOKENLENGTH)%nat ->
  LookupFunction tok <> FUNC_err ->
  Ascii.eqb (deref (SkipWhiteSpace (skipn k f0))) "(" = false ->
  ParseBody libc recurse n pend st
  = Done (DEFAULT_RETURN, pend,
          set_ErrorCode ERROR_operand
            (set_FormulaString (SkipWhiteSpace (skipn k f0))
               (set_TokenString tok st))).
Proof.
  intros f0 k tok Hk Hfn Hpar.
  unfold ParseBody. rewrite ParseValue_name by (fold f0 k; lia).
  fold f0. unfold ParseName.
  cbn [FormulaString_m TokenString_m set_FormulaString set_TokenString].
  fold k.
  destruct (k =? 0)%nat eqn:E0; [apply Nat.eqb_eq in E0; lia|].
  destruct (MAXTOKENLENGTH <=? k)%nat eqn:E1; [apply Nat.leb_le in E1; lia|].
  fold tok. destruct (LookupFunction_not_constant tok Hfn) as [-> ->].
  destruct (function_eq_dec (LookupFunction tok) FUNC_err) as [E|_];
    [contradiction|].
  rewrite Hpar. reflexivity.
Qed.

(** X13.  The twelve function names are reserved.  Where an operand is
    one of them, in any case of letters, and the next character after
    white space is not an opening parenthesis, the activation returns
    [DEFAULT_RETURN] with the bad-operand code, the table untouched: the
    name is neither read nor created as a variable, so it cannot be
    assigned to either. *)
Theorem X13_function_names_reserved (libc : clib)
        (recurse : operator_t -> state -> outcome (float * operator_t * state))
        (n : nat) (pend : operator_t) (st : state)
        (Hlen : (0 < GetNextTokenLength (operand_start (FormulaString_m st))
                 < MAXTOKENLENGTH)%nat)
        (Hfn : LookupFunction
                 (CopyUppercaseString (operand_start (FormulaString_m st))
                    (GetNextTokenLength (operand_start (FormulaString_m st))))
               <> FUNC_err)
        (Hnext : Ascii.eqb
                   (deref (SkipWhiteSpace
                             (skipn (GetNextTokenLength
                                       (operand_start (FormulaString_m st)))
                                    (operand_start (FormulaString_m st)))))
                   "(" = false) :
  exists st',
    ParseBody libc recurse n pend st = Done (DEFAULT_RETURN, pend, st')
    /\ ErrorCode_m st' = ERROR_operand
    /\ Variables_m st' = Variables_m st
    /\ FormulaString_m st'
       = SkipWhiteSpace
           (skipn (GetNextTokenLength (operand_start (FormulaString_m st)))
                  (operand_start (FormulaString_m st))).
Proof.
  eexists.
  rewrite (ParseBody_function_without_argument libc recurse n pend st
             Hlen Hfn Hnext).
  repeat split.
Qed.

Lemma X13_function_names_reserved_witness :
  let st := entry_state (cstring "Sqrt = 2") initial_state in
  exists st',
    ParseBody sample_clib (ParseFormula sample_clib 3) 3 OP_BeginLine st
    = Done (DEFAULT_RETURN, OP_BeginLine, st')
    /\ ErrorCode_m st' = ERROR_operand
    /\ Variables_m st' = Variables_m st
    /\ FormulaString_m st' = cstring "= 2".
Proof.
  intros st.
  assert (H1 : (0 < GetNextTokenLength (operand_start (FormulaString_m st))
                < MAXTOKENLENGTH)%nat) by (vm_compute; lia).
  assert (H2 : LookupFunction
                 (CopyUppercaseString (operand_start (FormulaString_m st))
                    (GetNextTokenLength (operand_start (FormulaString_m st))))
               <> FUNC_err) by (vm_compute; discriminate).
  exact (X13_function_names_reserved sample_clib (ParseFormula sample_clib 3)
           3 OP_BeginLine st H1 H2 eq_refl).
Defined.

(** ** Integer literals *)

Lemma span_digits_stop ds q :
  forallb isdigit ds = true -> isdigit (deref q) = false ->
  span_digits (ds ++ q) = (ds, q).
Proof.
  induction ds as [|c ds IH]; cbn [forallb app span_digits]; intros H Hq.
  - destruct q as [|x q]; [reflexivity|].
    change (isdigit x = false) in Hq. cbn [span_digits]. now rewrite Hq.
  - apply andb_prop in H. destruct H as [Hc Hds].
    rewrite Hc, IH by assumption. reflexivity.
Qed.

Lemma strtod_digits ds q :
  digits ds -> literal_end q = true ->
  strtod (ds ++ q) = (digits_double ds, q).
Proof.
  intros [Hne Hds] Hq. unfold literal_end in Hq.
  apply negb_true_iff in Hq.
  apply orb_false_elim in Hq. destruct Hq as [Hq HE].
  apply orb_false_elim in Hq. destruct Hq as [Hq He].
  apply orb_false_elim in Hq. destruct Hq as [Hdig Hdot].
  unfold strtod. rewrite span_digits_stop by assumption.
  assert (Hfrac : match q with
                  | c :: p1' =>
                      if Ascii.eqb c "." then span_digits p1' else ([], q)
                  | [] => ([], q)
                  end = ([], q)).
  { destruct q as [|c q']; [reflexivity|].
    change (Ascii.eqb c "." = false) in Hdot. now rewrite Hdot. }
  rewrite Hfrac. rewrite app_nil_r.
  destruct ds as [|d ds']; [now elim Hne|].
  assert (Hexp : scan_exponent q = (0, q)).
  { unfold scan_exponent. destruct q as [|c q']; [reflexivity|].
    change (Ascii.eqb c "e" = false) in He.
    change (Ascii.eqb c "E" = false) in HE. now rewrite He, HE. }
  rewrite Hexp. reflexivity.
Qed.

Lemma digit_starts_operand c :
  isdigit c = true -> Ascii.eqb c "(" = false.
Proof. every_char c; vm_compute; congruence. Qed.

Lemma digits_deref ds q : digits ds -> isdigit (deref (ds ++ q)) = true.
Proof.
  intros [Hne H]. destruct ds as [|c ds]; [now elim Hne|].
  cbn [forallb] in H. now apply andb_prop in H.
Qed.

Lemma ParseValue_literal libc recurse st ds q :
  operand_start (FormulaString_m st) = ds ++ q ->
  digits ds -> literal_end q = true ->
  ParseValue libc recurse st
  = Done (Operand (unary_sign (FormulaString_m st) (digits_double ds))
                  NOTFOUND (set_FormulaString q st)).
Proof.
  intros Hf Hds Hq. rewrite ParseValue_unfold. cbv zeta. rewrite Hf.
  pose proof (digits_deref ds q Hds) as Hd.
  rewrite (digit_starts_operand _ Hd), Hd. cbn [orb].
  rewrite (strtod_digits ds q Hds Hq). reflexivity.
Qed.

Lemma ParseBody_literal libc recurse n pend st ds q op :
  operand_start (FormulaString_m st) = ds ++ q ->
  digits ds -> literal_end q = true ->
  ErrorCode_m st = ERROR_none ->
  GetOperator (deref (SkipWhiteSpace q)) = Some op ->
  ApplyCriterion op pend = false ->
  ParseBody libc recurse (S n) pend st
  = Done (unary_sign (FormulaString_m st) (digits_double ds), op,
          set_FormulaString (tl (SkipWhiteSpace q)) st).
Proof.
  intros Hf Hds Hq He Hop Hcrit. unfold ParseBody.
  rewrite (ParseValue_literal libc recurse st ds q Hf Hds Hq).
  cbn [bind FormulaString_m set_FormulaString]. rewrite Hop.
  cbn [ApplyLoop ErrorCode_m advance set_FormulaString].
  rewrite He. change (errorcode_eqb ERROR_none ERROR_none) with true.
  cbv iota. rewrite Hcrit. destruct st. reflexivity.
Qed.

Lemma ParseBody_literal_bad_operator libc recurse n pend st ds q :
  operand_start (FormulaString_m st) = ds ++ q ->
  digits ds -> literal_end q = true ->
  GetOperator (deref (SkipWhiteSpace q)) = None ->
  ParseBody libc recurse n pend st
  = Done (DEFAULT_RETURN, pend,
          set_ErrorCode ERROR_operator
            (set_FormulaString (SkipWhiteSpace q) st)).
Proof.
  intros Hf Hds Hq Hop. unfold ParseBody.
  rewrite (ParseValue_literal libc recurse st ds q Hf Hds Hq).
  cbn [bind FormulaString_m set_FormulaString]. rewrite Hop.
  destruct st. reflexivity.
Qed.

Lemma GetOperator_NUL_EndLine q :
  SkipWhiteSpace q = [NUL] ->
  GetOperator (deref (SkipWhiteSpace q)) = Some OP_EndLine
  /\ tl (SkipWhiteSpace q) = [].
Proof. intros ->. split; reflexivity. Qed.

(** X14.  An unsigned integer literal evaluates to its value.  When the
    first operand of a formula is a run of decimal digits followed by
    nothing but white space, [evalform] returns the value of the digits,
    negated when a minus sign precedes them, with no error, the whole
    string consumed and the table untouched. *)
Theorem X14_integer_literal (libc : clib) (f ds q : list ascii) (st : state)
        (Hf : operand_start f = ds ++ q)
        (Hds : digits ds)
        (Hq : literal_end q = true)
        (Hend : SkipWhiteSpace q = [NUL]) :
  exists st',
    evalform libc f st = Done (unary_sign f (digits_double ds), st')
    /\ ErrorCode_m st' = ERROR_none
    /\ FormulaString_m st' = []
    /\ Variables_m st' = Variables_m st.
Proof.
  rewrite evalform_unfold. destruct (evalform_fuel f) as [k ->].
  destruct (GetOperator_NUL_EndLine q Hend) as [Hop Htl].
  rewrite (ParseBody_literal libc _ _ OP_BeginLine (entry_state f st) ds q
             OP_EndLine Hf Hds Hq eq_refl Hop eq_refl).
  cbn [bind]. rewrite Htl. eexists. repeat split.
Qed.

Lemma X14_integer_literal_witness :
  (operand_start (cstring "  -42 ")
   = list_ascii_of_string "42" ++ list_ascii_of_string " " ++ [NUL]
   /\ digits (list_ascii_of_string "42"))
  /\ exists st',
      evalform sample_clib (cstring "  -42 ") initial_state
      = Done ((-42)%float, st')
      /\ ErrorCode_m st' = ERROR_none
      /\ FormulaString_m st' = []
      /\ Variables_m st' = Variables_m initial_state.
Proof.
  assert (Hds : digits (list_ascii_of_string "42"))
    by (split; [discriminate | reflexivity]).
  split; [split; [reflexivity | exact Hds]|].
  exact (X14_integer_literal sample_clib (cstring "  -42 ")
           (list_ascii_of_string "42") (list_ascii_of_string " " ++ [NUL])
           initial_state eq_refl Hds eq_refl eq_refl).
Defined.

(** X15.  After an integer literal, a character that is neither white
    space nor one of [+ - * / ^ ) =] nor the terminator stops the
    activation with the bad-operator code: it returns [DEFAULT_RETURN],
    leaves the cursor on that character and the table untouched.  The
    literal [0] directly followed by [x] or [X] is left out: there the
    library may read a hexadecimal literal. *)
Theorem X15_operator_expected (libc : clib) (f ds q : list ascii) (st : state)
        (Hf : operand_start f = ds ++ q)
        (Hds : digits ds)
        (Hq : literal_end q = true)
        (Hhex : hexadecimal_prefix ds q = false)
        (Hbad : GetOperator (deref (SkipWhiteSpace q)) = None) :
  exists st',
    evalform libc f st = Done (0%float, st')
    /\ ErrorCode_m st' = ERROR_operator
    /\ FormulaString_m st' = SkipWhiteSpace q
    /\ Variables_m st' = Variables_m st.
Proof.
  rewrite evalform_unfold.
  rewrite (ParseBody_literal_bad_operator libc _ _ OP_BeginLine
             (entry_state f st) ds q Hf Hds Hq Hbad).
  cbn [bind]. eexists. repeat split.
Qed.

Lemma X15_operator_expected_witness :
  (operand_start (cstring "12 & 3")
   = list_ascii_of_string "12" ++ cstring " & 3"
   /\ digits (list_ascii_of_string "12")
   /\ hexadecimal_prefix (list_ascii_of_string "12") (cstring " & 3") = false)
  /\ exists st',
      evalform sample_clib (cstring "12 & 3") initial_state
      = Done (0%float, st')
      /\ ErrorCode_m st' = ERROR_operator
      /\ FormulaString_m st' = SkipWhiteSpace (cstring " & 3")
      /\ Variables_m st' = Variables_m initial_state.
Proof.
  assert (Hds : digits (list_ascii_of_string "12"))
    by (split; [discriminate | reflexivity]).
  split; [exact (conj eq_refl (conj Hds eq_refl))|].
  exact (X15_operator_expected sample_clib (cstring "12 & 3")
           (list_ascii_of_string "12") (cstring " & 3")
           initial_state eq_refl Hds eq_refl eq_refl eq_refl).
Defined.

(** ** Arithmetic on two literals *)

Lemma ApplyLoop_arithmetic libc recurse n op v1 v2 st st2 r :
  ErrorCode_m st = ERROR_none ->
  recurse op st = Done (v2, OP_EndLine, st2) ->
  apply_arithmetic libc op v1 v2 st2 = Some r ->
  ApplyLoop libc recurse (S (S n)) OP_BeginLine op v1 NOTFOUND st
  = Done (fst r, OP_EndLine, snd r).
Proof.
  intros He Hrec Hr.
  assert (Hstep : forall o,
             ApplyCriterion o OP_BeginLine = true ->
             (if (if errorcode_eqb (ErrorCode_m st) ERROR_none
                  then ApplyCriterion o OP_BeginLine else false)
              then true else false) = true).
  { intros o Ho. rewrite He, Ho. reflexivity. }
  destruct op; try discriminate Hr; cbn [apply_arithmetic] in Hr;
    injection Hr as <-;
    remember (S n) as m eqn:Em; cbn [ApplyLoop]; rewrite He;
    change (errorcode_eqb ERROR_none ERROR_none) with true; cbv iota;
    match goal with
    | |- context [ApplyCriterion ?o OP_BeginLine] =>
        change (ApplyCriterion o OP_BeginLine) with true
    end; cbv iota; rewrite Hrec; cbn [bind]; subst m.
  - apply ApplyLoop_EndLine.
  - apply ApplyLoop_EndLine.
  - apply ApplyLoop_EndLine.
  - destruct (ApplyDivide v1 v2 st2) as [q st3]. apply ApplyLoop_EndLine.
  - apply ApplyLoop_EndLine.
Qed.

(** X16.  Arithmetic on two integer literals.  When a formula is a digit
    run, one of the operators [+ - * / ^], a second digit run and
    nothing else (white space and one sign before each operand allowed),
    [evalform] returns what the operator's case of the loop computes from
    the two values: the binary64 sum, difference or product, [pow] of the
    C library, or the division of [ApplyDivide]. *)
Theorem X16_binary_arithmetic (libc : clib) (f a q1 q2 b q3 : list ascii)
        (c : ascii) (op : operator_t) (st : state) (r : float * state)
        (Hf : operand_start f = a ++ q1)
        (Ha : digits a)
        (Hq1 : literal_end q1 = true)
        (Hskip : SkipWhiteSpace q1 = c :: q2)
        (Hop : GetOperator c = Some op)
        (Hf2 : operand_start q2 = b ++ q3)
        (Hb : digits b)
        (Hq3 : literal_end q3 = true)
        (Hend : SkipWhiteSpace q3 = [NUL])
        (Hr : apply_arithmetic libc op (unary_sign f (digits_double a))
                (unary_sign q2 (digits_double b)) (entry_state [] st)
              = Some r) :
  evalform libc f st = Done r.
Proof.
  rewrite evalform_unfold. destruct (evalform_fuel f) as [k ->].
  unfold ParseBody.
  rewrite (ParseValue_literal libc _ (entry_state f st) a q1 Hf Ha Hq1).
  cbn [bind FormulaString_m set_FormulaString]. rewrite Hskip.
  cbn [deref hd]. rewrite Hop.
  set (S1 := advance _).
  destruct (GetOperator_NUL_EndLine q3 Hend) as [HopE Htl].
  assert (Hrec : ParseFormula libc (S (S (S k))) op S1
                 = Done (unary_sign q2 (digits_double b), OP_EndLine,
                         entry_state [] st)).
  { cbn [ParseFormula].
    rewrite (ParseBody_literal libc _ (S k) op S1 b q3 OP_EndLine
               Hf2 Hb Hq3 eq_refl HopE (ApplyCriterion_EndLine op)).
    rewrite Htl. reflexivity. }
  erewrite ApplyLoop_arithmetic; [|reflexivity|exact Hrec|exact Hr].
  cbn [bind]. destruct r. reflexivity.
Qed.

Lemma X16_binary_arithmetic_witness :
  (operand_start (cstring " 7 - -2 ")
   = list_ascii_of_string "7" ++ cstring " - -2 "
   /\ digits (list_ascii_of_string "7")
   /\ SkipWhiteSpace (cstring " - -2 ") = "-"%char :: cstring " -2 "
   /\ GetOperator "-" = Some OP_Subtract
   /\ operand_start (cstring " -2 ")
      = list_ascii_of_string "2" ++ cstring " "
   /\ digits (list_ascii_of_string "2"))
  /\ evalform sample_clib (cstring " 7 - -2 ") initial_state
     = Done (9%float, entry_state [] initial_state).
Proof.
  assert (Ha : digits (list_ascii_of_string "7"))
    by (split; [discriminate | reflexivity]).
  assert (Hb : digits (list_ascii_of_string "2"))
    by (split; [discriminate | reflexivity]).
  split.
  - exact (conj eq_refl (conj Ha (conj eq_refl (conj eq_refl
             (conj eq_refl Hb))))).
  - exact (X16_binary_arithmetic sample_clib (cstring " 7 - -2 ")
             (list_ascii_of_string "7") (cstring " - -2 ")
             (cstring " -2 ") (list_ascii_of_string "2") (cstring " ")
             "-"%char OP_Subtract initial_state
             (9%float, entry_state [] initial_state)
             eq_refl Ha eq_refl eq_refl eq_refl eq_refl Hb eq_refl eq_refl
             eq_refl).
Defined.

(** ** Variables in formulas *)

Lemma lookup_value_ensure_other T name other :
  other <> name ->
  lookup_value (ensure_variable T name) other = lookup_value T other.
Proof.
  intros Hne. unfold ensure_variable.
  destruct (GetVariableID T name =? NOTFOUND); [|reflexivity].
  unfold lookup_value, GetVariableID.
  rewrite (find_variable_app_other T name 0%float other 0 Hne).
  fold (GetVariableID T other).
  destruct (GetVariableID T other =? NOTFOUND) eqn:E; [reflexivity|].
  apply Z.eqb_neq in E. pose proof (GetVariableID_range T other E) as R.
  rewrite load_value_app by lia. reflexivity.
Qed.

Lemma lookup_value_store_other T name v other :
  GetVariableID T name <> NOTFOUND ->
  other <> name ->
  lookup_value (store_value T (Z.to_nat (GetVariableID T name)) v) other
  = lookup_value T other.
Proof.
  intros Hfound Hne.
  apply (lookup_value_names_other T name); [|assumption].
  apply (GetVariableID_first T name Hfound).
Qed.

(** X17.  Assigning a literal to a variable.  When a formula is a name
    that is neither a constant nor a function, an equal sign, a digit run
    and nothing else, and the table has room for the name should it be
    new, [evalform] returns the value of the literal with no error, the
    (upper-cased) name holds that value afterwards, and every other name
    holds what it held before. *)
Theorem X17_assign_literal (libc : clib) (f b q3 : list ascii) (st : state)
        (Hlen : (0 < GetNextTokenLength (operand_start f) < MAXTOKENLENGTH)%nat)
        (HE : leading_token f <> "%E"%string)
        (HPI : leading_token f <> "%PI"%string)
        (Hfn : LookupFunction (leading_token f) = FUNC_err)
        (Hroom : (List.length (Variables_m st) < MAXNUMBERVAR)%nat)
        (Hheap : calloc_ok libc (String.length (leading_token f) + 1) = true)
        (Hop : GetOperator
                 (deref (SkipWhiteSpace
                           (skipn (GetNextTokenLength (operand_start f))
                                  (operand_start f))))
               = Some OP_Assignment)
        (Hf2 : operand_start
                 (tl (SkipWhiteSpace
                        (skipn (GetNextTokenLength (operand_start f))
                               (operand_start f))))
               = b ++ q3)
        (Hb : digits b)
        (Hq3 : literal_end q3 = true)
        (Hend : SkipWhiteSpace q3 = [NUL]) :
  let rhs := tl (SkipWhiteSpace
                   (skipn (GetNextTokenLength (operand_start f))
                          (operand_start f))) in
  exists st',
    evalform libc f st = Done (unary_sign rhs (digits_double b), st')
    /\ ErrorCode_m st' = ERROR_none
    /\ lookup_value (Variables_m st') (leading_token f)
       = Some (unary_sign rhs (digits_double b))
    /\ forall other, other <> leading_token f ->
         lookup_value (Variables_m st') other
         = lookup_value (Variables_m st) other.
Proof.
  intros rhs. rewrite evalform_unfold. destruct (evalform_fuel f) as [k ->].
  destruct st as [T f' tok0 d lvl err]. cbn [Variables_m] in *.
  change (entry_state f (mkState T f' tok0 d lvl err))
    with (mkState T f tok0 d 0 ERROR_none).
  destruct (GetOperator_NUL_EndLine q3 Hend) as [HopE Htl].
  set (tok := leading_token f) in *.
  set (T1 := ensure_variable T tok).
  assert (Hrec : ParseFormula libc (S (S (S k))) OP_Assignment
                   (mkState T1 rhs tok d 0 ERROR_none)
                 = Done (unary_sign rhs (digits_double b), OP_EndLine,
                         mkState T1 [] tok d 0 ERROR_none)).
  { cbn [ParseFormula].
    rewrite (ParseBody_literal libc _ (S k) OP_Assignment
               (mkState T1 rhs tok d 0 ERROR_none) b q3 OP_EndLine
               Hf2 Hb Hq3 eq_refl HopE eq_refl).
    rewrite Htl. reflexivity. }
  rewrite (ParseBody_assignment libc _ (S k) OP_BeginLine T f tok0 d 0
             _ _ _ Hlen HE HPI Hfn Hroom Hheap Hop eq_refl Hrec
             (fun _ => eq_refl)).
  cbn [bind]. eexists. split; [reflexivity|].
  cbn [ErrorCode_m Variables_m set_Variables].
  pose proof (ensure_variable_found T tok) as Hfound.
  split; [reflexivity|]. split.
  - apply lookup_value_store_same. exact Hfound.
  - intros other Hne.
    change (GetVariableID (ensure_variable T (leading_token f))
                          (leading_token f))
      with (GetVariableID T1 tok).
    rewrite (lookup_value_store_other T1 tok _ other Hfound Hne).
    apply lookup_value_ensure_other. exact Hne.
Qed.

Lemma X17_assign_literal_witness :
  let f := cstring "rate = 15" in
  digits (list_ascii_of_string "15")
  /\ exists st',
      evalform sample_clib f initial_state = Done (15%float, st')
      /\ ErrorCode_m st' = ERROR_none
      /\ lookup_value (Variables_m st') "RATE" = Some 15%float
      /\ forall other, other <> "RATE"%string ->
           lookup_value (Variables_m st') other
           = lookup_value (Variables_m initial_state) other.
Proof.
  assert (Hb : digits (list_ascii_of_string "15"))
    by (split; [discriminate | reflexivity]).
  split; [exact Hb|].
  refine (X17_assign_literal sample_clib (cstring "rate = 15")
            (list_ascii_of_string "15") [NUL] initial_state
            _ _ _ eq_refl _ eq_refl eq_refl eq_refl Hb eq_refl eq_refl).
  - vm_compute. lia.
  - discriminate.
  - discriminate.
  - vm_compute. lia.
Defined.

(** X18.  Reading a variable.  When a formula is the name of a variable
    the table holds (a name that is neither a constant nor a function)
    and nothing else, [evalform] returns the value stored under the
    upper-cased name, negated after a minus sign, with no error and the
    table as it was. *)
Theorem X18_read_variable (libc : clib) (f : list ascii) (st : state)
        (x : float)
        (Hlen : (0 < GetNextTokenLength (operand_start f) < MAXTOKENLENGTH)%nat)
        (HE : leading_token f <> "%E"%string)
        (HPI : leading_token f <> "%PI"%string)
        (Hfn : LookupFunction (leading_token f) = FUNC_err)
        (Hx : lookup_value (Variables_m st) (leading_token f) = Some x)
        (Hend : SkipWhiteSpace
                  (skipn (GetNextTokenLength (operand_start f))
                         (operand_start f)) = [NUL]) :
  exists st',
    evalform libc f st = Done (unary_sign f x, st')
    /\ ErrorCode_m st' = ERROR_none
    /\ FormulaString_m st' = []
    /\ Variables_m st' = Variables_m st.
Proof.
  rewrite evalform_unfold. destruct (evalform_fuel f) as [k ->].
  destruct st as [T f' tok0 d lvl err]. cbn [Variables_m] in *.
  change (entry_state f (mkState T f' tok0 d lvl err))
    with (mkState T f tok0 d 0 ERROR_none).
  unfold lookup_value in Hx.
  destruct (GetVariableID T (leading_token f) =? NOTFOUND) eqn:Hid;
    [discriminate|].
  apply Z.eqb_neq in Hid. injection Hx as Hx.
  unfold ParseBody. rewrite ParseValue_name.
  2:{ cbn [FormulaString_m]. lia. }
  cbn [FormulaString_m].
  change (set_FormulaString (operand_start f)
            (mkState T f tok0 d 0 ERROR_none))
    with (mkState T (operand_start f) tok0 d 0 ERROR_none).
  rewrite (ParseName_existing libc _ T (operand_start f) tok0 d 0 ERROR_none
             Hlen HE HPI Hfn Hid).
  cbn [bind FormulaString_m set_FormulaString]. rewrite Hend.
  change (GetOperator (deref [NUL])) with (Some OP_EndLine). cbv iota.
  rewrite ApplyLoop_EndLine. cbn [bind].
  fold (leading_token f). rewrite Hx.
  eexists. split; [reflexivity|]. repeat split.
Qed.

Lemma X18_read_variable_witness :
  let st := mkState [("A", 1%float); ("RATE", 15%float)]%string [] EmptyString
                    0%float 0 ERROR_none in
  exists st',
    evalform sample_clib (cstring " -Rate ") st = Done ((-15)%float, st')
    /\ ErrorCode_m st' = ERROR_none
    /\ FormulaString_m st' = []
    /\ Variables_m st' = Variables_m st.
Proof.
  refine (X18_read_variable sample_clib (cstring " -Rate ")
            (mkState [("A", 1%float); ("RATE", 15%float)]%string [] EmptyString
                     0%float 0 ERROR_none)
            15%float _ _ _ eq_refl eq_refl eq_refl).
  - vm_compute. lia.
  - discriminate.
  - discriminate.
Defined.

(** ** Pulling tokens off a buffer *)

Lemma skip_separators_app seps p :
  forallb is_separator seps = true ->
  skip_separators (seps ++ p) = skip_separators p.
Proof.
  induction seps as [|c seps IH]; cbn [forallb app skip_separators];
    intros H; [reflexivity|].
  apply andb_prop in H. destruct H as [Hc Hs].
  assert (Hn : Ascii.eqb c NUL = false).
  { destruct (Ascii.eqb c NUL) eqn:E; [|reflexivity].
    apply Ascii.eqb_eq in E. subst c. discriminate Hc. }
  rewrite Hn, Hc. cbn [negb andb]. now apply IH.
Qed.

Lemma skip_separators_fixed p :
  negb (Ascii.eqb (deref p) NUL) && is_separator (deref p) = false ->
  skip_separators p = p.
Proof.
  destruct p as [|c p]; [reflexivity|]. cbn [deref hd skip_separators].
  now intros ->.
Qed.

Lemma span_word_app word q :
  forallb word_char word = true -> word_char (deref q) = false ->
  span_word (word ++ q) = (word, q).
Proof.
  induction word as [|c word IH]; cbn [forallb app span_word]; intros H Hq.
  - destruct q as [|x q]; [reflexivity|].
    change (word_char x = false) in Hq. cbn [span_word].
    fold (word_char x). now rewrite Hq.
  - apply andb_prop in H. destruct H as [Hc Hw].
    fold (word_char c). rewrite Hc, IH by assumption. reflexivity.
Qed.

Lemma _strhed_word seps word q :
  forallb is_separator seps = true ->
  forallb word_char word = true ->
  word_char (deref q) = false ->
  (word = [] -> deref q = NUL) ->
  _strhed (seps ++ word ++ q)
  = if negb (Ascii.eqb (deref q) NUL)
    then (word ++ NUL :: tl q, SkipWhiteSpace (tl q))
    else (word ++ q, SkipWhiteSpace q).
Proof.
  intros Hseps Hword Hq Hnil. unfold _strhed.
  rewrite (skip_separators_app seps _ Hseps).
  rewrite skip_separators_fixed.
  2:{ destruct word as [|c word].
      - cbn [app]. rewrite (Hnil eq_refl). reflexivity.
      - cbn [app deref hd forallb] in *.
        apply andb_prop in Hword. destruct Hword as [Hc _].
        unfold word_char in Hc. apply andb_prop in Hc.
        destruct Hc as [_ Hc]. apply negb_true_iff in Hc.
        rewrite Hc. apply andb_false_r. }
  rewrite (span_word_app word q Hword Hq). reflexivity.
Qed.

(** X19.  [_strhed] pulls the first token.  On a buffer made of blanks
    (spaces, tabs, newlines), then a token of other characters, then a
    blank or the terminator [s] and the rest, it returns the token
    terminated by a NUL written over [s], and moves the caller's pointer
    past [s] and the white space after it; on the terminator the pointer
    stays there, whether or not a token came before. *)
Theorem X19_strhed_token (seps word rest : list ascii) (s : ascii)
        (Hseps : forallb is_separator seps = true)
        (Hword : forallb word_char word = true)
        (Hs : word_char s = false)
        (Hnil : word = [] -> s = NUL) :
  _strhed (seps ++ word ++ s :: rest)
  = (word ++ NUL :: rest,
     if Ascii.eqb s NUL then s :: rest else SkipWhiteSpace rest).
Proof.
  rewrite (_strhed_word seps word (s :: rest) Hseps Hword Hs Hnil).
  cbn [deref hd tl].
  destruct (Ascii.eqb s NUL) eqn:E; cbn [negb]; [|reflexivity].
  apply Ascii.eqb_eq in E. subst s. reflexivity.
Qed.

Lemma X19_strhed_token_witness :
  _strhed (cstring "  2*x   y=1")
  = (list_ascii_of_string "2*x" ++ NUL :: cstring "  y=1", cstring "y=1").
Proof.
  refine (X19_strhed_token (list_ascii_of_string "  ")
            (list_ascii_of_string "2*x") (cstring "  y=1") " "%char
            eq_refl eq_refl eq_refl _).
  discriminate.
Defined.

Lemma digit_is_plain c :
  isdigit c = true ->
  is_space c = false /\ Ascii.eqb c "-" = false /\ Ascii.eqb c "+" = false
  /\ word_char c = true.
Proof. every_char c; vm_compute; intros H; repeat split; congruence. Qed.

Lemma operand_start_digits ds q :
  digits ds ->
  operand_start (ds ++ q) = ds ++ q
  /\ forall v, unary_sign (ds ++ q) v = v.
Proof.
  intros Hds. pose proof (digits_deref ds q Hds) as Hd.
  destruct (digit_is_plain _ Hd) as [Hsp [Hm [Hp _]]].
  unfold operand_start, unary_sign.
  rewrite (SkipWhiteSpace_fixed _ Hsp), Hm, Hp. split; reflexivity.
Qed.

Lemma digits_word ds : forallb isdigit ds = true -> forallb word_char ds = true.
Proof.
  induction ds as [|c ds IH]; cbn [forallb]; [reflexivity|]. intros H.
  apply andb_prop in H. destruct H as [Hc Hds].
  destruct (digit_is_plain c Hc) as [_ [_ [_ Hw]]]. now rewrite Hw, IH.
Qed.

(** X20.  [dblstrf] reads one number and moves on.  On a buffer made of
    blanks, a digit run, then a blank or the terminator and the rest, it
    returns the value of the digits, leaves the table as it was, and moves
    the caller's pointer to the next token; what follows the first blank
    is not part of the expression, so that [1 + 2] gives 1 and leaves
    [+ 2]. *)
Theorem X20_dblstrf_number (libc : clib) (seps ds rest : list ascii)
        (s : ascii) (st : state)
        (Hseps : forallb is_separator seps = true)
        (Hds : digits ds)
        (Hs : word_char s = false) :
  exists st',
    dblstrf libc (seps ++ ds ++ s :: rest) st
    = Done (digits_double ds, st',
            if Ascii.eqb s NUL then s :: rest else SkipWhiteSpace rest)
    /\ ErrorCode_m st' = ERROR_none
    /\ Variables_m st' = Variables_m st.
Proof.
  unfold dblstrf.
  rewrite (_strhed_word seps ds (s :: rest) Hseps
             (digits_word ds (proj2 Hds)) Hs).
  2:{ intros E. destruct Hds as [Hne _]. now elim Hne. }
  cbn [deref hd tl].
  assert (Hhead : (if negb (Ascii.eqb s NUL)
                   then (ds ++ NUL :: rest, SkipWhiteSpace rest)
                   else (ds ++ s :: rest, SkipWhiteSpace (s :: rest)))
                  = (ds ++ NUL :: rest,
                     if Ascii.eqb s NUL then s :: rest
                     else SkipWhiteSpace rest)).
  { destruct (Ascii.eqb s NUL) eqn:E; cbn [negb]; [|reflexivity].
    apply Ascii.eqb_eq in E. subst s. reflexivity. }
  rewrite Hhead.
  rewrite evalform_unfold.
  destruct (evalform_fuel (ds ++ NUL :: rest)) as [k ->].
  destruct (operand_start_digits ds (NUL :: rest) Hds) as [Hf Hsign].
  rewrite (ParseBody_literal libc _ _ OP_BeginLine
             (entry_state (ds ++ NUL :: rest) st) ds (NUL :: rest)
             OP_EndLine Hf Hds eq_refl eq_refl eq_refl eq_refl).
  cbn [bind FormulaString_m entry_state set_FormulaString].
  rewrite Hsign. eexists. repeat split.
Qed.

Lemma X20_dblstrf_number_witness :
  digits (list_ascii_of_string "1")
  /\ exists st',
      dblstrf sample_clib (cstring "1 + 2") initial_state
      = Done (1%float, st', cstring "+ 2")
      /\ ErrorCode_m st' = ERROR_none
      /\ Variables_m st' = Variables_m initial_state.
Proof.
  assert (Hds : digits (list_ascii_of_string "1"))
    by (split; [discriminate | reflexivity]).
  split; [exact Hds|].
  exact (X20_dblstrf_number sample_clib [] (list_ascii_of_string "1")
           (cstring "+ 2") " "%char initial_state eq_refl Hds eq_refl).
Defined.

(** X21.  [dblstrf] at the end of the buffer.  When only blanks are left
    before the terminator, [dblstrf] returns 0 and leaves the caller's
    pointer on the terminator, so that calling it again gives 0 again;
    the bad-operand code [evalform] reports is not passed on, and the
    table is as it was. *)
Theorem X21_dblstrf_exhausted (libc : clib) (seps rest : list ascii)
        (st : state)
        (Hseps : forallb is_separator seps = true) :
  exists st',
    dblstrf libc (seps ++ NUL :: rest) st
    = Done (0%float, st', NUL :: rest)
    /\ ErrorCode_m st' = ERROR_operand
    /\ Variables_m st' = Variables_m st
    /\ exists st'',
        dblstrf libc (NUL :: rest) st' = Done (0%float, st'', NUL :: rest).
Proof.
  assert (Hone : forall seps' st0,
             forallb is_separator seps' = true ->
             dblstrf libc (seps' ++ NUL :: rest) st0
             = Done (0%float,
                     set_ErrorCode ERROR_operand
                       (entry_state (NUL :: rest) st0),
                     NUL :: rest)).
  { intros seps' st0 H. unfold dblstrf.
    pose proof (_strhed_word seps' [] (NUL :: rest) H eq_refl eq_refl
                  (fun _ => eq_refl)) as E.
    cbn [app] in E. rewrite E.
    change (negb (Ascii.eqb (deref (NUL :: rest)) NUL)) with false.
    cbv iota.
    change (SkipWhiteSpace (NUL :: rest)) with (NUL :: rest).
    rewrite evalform_unfold, ParseBody_bad_operand by reflexivity.
    reflexivity. }
  eexists. split; [apply (Hone seps st Hseps)|].
  split; [reflexivity|]. split; [reflexivity|].
  eexists. apply (Hone [] _ eq_refl).
Qed.

Lemma X21_dblstrf_exhausted_witness :
  exists st',
    dblstrf sample_clib (cstring "   ") initial_state
    = Done (0%float, st', [NUL])
    /\ ErrorCode_m st' = ERROR_operand
    /\ Variables_m st' = Variables_m initial_state
    /\ exists st'',
        dblstrf sample_clib [NUL] st' = Done (0%float, st'', [NUL]).
Proof.
  exact (X21_dblstrf_exhausted sample_clib (list_ascii_of_string "   ") []
           initial_state eq_refl).
Defined.

(** ** Parentheses *)

Lemma ApplyLoop_unmatched_close libc recurse n v id st :
  ErrorCode_m st = ERROR_none ->
  ParenthesisLevel_m st = 0 ->
  ApplyLoop libc recurse (S (S n)) OP_BeginLine OP_CloseParenthesis v id st
  = Done (v, OP_CloseParenthesis,
          set_ErrorCode ERROR_closeparen (set_ParenthesisLevel (-1) st)).
Proof.
  intros He Hl. destruct st as [T f tok d lvl err].
  cbn [ErrorCode_m ParenthesisLevel_m] in He, Hl. subst lvl err.
  reflexivity.
Qed.

Lemma ParseValue_parenthesis libc recurse st g v op st3 :
  operand_start (FormulaString_m st) = "("%char :: g ->
  recurse OP_OpenParenthesis
          (set_ParenthesisLevel (ParenthesisLevel_m st + 1)
             (set_FormulaString g st))
  = Done (v, op, st3) ->
  ErrorCode_m st3 = ERROR_none ->
  ParseValue libc recurse st
  = Done (if operator_eqb op OP_CloseParenthesis
          then Operand (unary_sign (FormulaString_m st) v) NOTFOUND st3
          else EarlyReturn (set_ErrorCode ERROR_openparen st3)).
Proof.
  intros Hf Hrec He. rewrite ParseValue_unfold. cbv zeta. rewrite Hf.
  change (Ascii.eqb (deref ("("%char :: g)) "(") with true. cbv iota.
  unfold ParseParenthetical.
  change (set_ParenthesisLevel
            (ParenthesisLevel_m
               (advance (set_FormulaString ("("%char :: g) st)) + 1)
            (advance (set_FormulaString ("("%char :: g) st)))
    with (set_ParenthesisLevel (ParenthesisLevel_m st + 1)
            (set_FormulaString g st)).
  rewrite Hrec. cbn [bind]. rewrite He.
  change (errorcode_eqb ERROR_none ERROR_none) with true. cbn [negb].
  destruct (operator_eqb op OP_CloseParenthesis); reflexivity.
Qed.

(** X22.  A closing parenthesis with none open.  When the first operand
    of a formula is a digit run and the next thing is a closing
    parenthesis, [evalform] reports the unmatched-right-parenthesis code,
    leaves the cursor just past the parenthesis and the table as it was,
    and returns the value of the digits rather than [DEFAULT_RETURN]. *)
Theorem X22_unmatched_close (libc : clib) (f ds q q2 : list ascii)
        (st : state)
        (Hf : operand_start f = ds ++ q)
        (Hds : digits ds)
        (Hq : literal_end q = true)
        (Hskip : SkipWhiteSpace q = ")"%char :: q2) :
  exists st',
    evalform libc f st = Done (unary_sign f (digits_double ds), st')
    /\ ErrorCode_m st' = ERROR_closeparen
    /\ FormulaString_m st' = q2
    /\ Variables_m st' = Variables_m st.
Proof.
  rewrite evalform_unfold. destruct (evalform_fuel f) as [k ->].
  unfold ParseBody.
  rewrite (ParseValue_literal libc _ (entry_state f st) ds q Hf Hds Hq).
  cbn [bind FormulaString_m set_FormulaString]. rewrite Hskip.
  change (GetOperator (deref (")"%char :: q2)))
    with (Some OP_CloseParenthesis).
  cbv iota. rewrite ApplyLoop_unmatched_close by reflexivity.
  cbn [bind]. eexists. repeat split.
Qed.

Lemma X22_unmatched_close_witness :
  digits (list_ascii_of_string "5")
  /\ exists st',
      evalform sample_clib (cstring "5 ) + 1") initial_state
      = Done (5%float, st')
      /\ ErrorCode_m st' = ERROR_closeparen
      /\ FormulaString_m st' = cstring " + 1"
      /\ Variables_m st' = Variables_m initial_state.
Proof.
  assert (Hds : digits (list_ascii_of_string "5"))
    by (split; [discriminate | reflexivity]).
  split; [exact Hds|].
  exact (X22_unmatched_close sample_clib (cstring "5 ) + 1")
           (list_ascii_of_string "5") (cstring " ) + 1") (cstring " + 1")
           initial_state eq_refl Hds eq_refl eq_refl).
Defined.

(** X23.  An opening parenthesis never closed.  When a formula is an
    opening parenthesis, a digit run and nothing else, [evalform] returns
    [DEFAULT_RETURN] with the unmatched-left-parenthesis code and the
    table as it was. *)
Theorem X23_unmatched_open (libc : clib) (f g ds q : list ascii) (st : state)
        (Hf : operand_start f = "("%char :: g)
        (Hg : operand_start g = ds ++ q)
        (Hds : digits ds)
        (Hq : literal_end q = true)
        (Hend : SkipWhiteSpace q = [NUL]) :
  exists st',
    evalform libc f st = Done (0%float, st')
    /\ ErrorCode_m st' = ERROR_openparen
    /\ Variables_m st' = Variables_m st.
Proof.
  rewrite evalform_unfold. destruct (evalform_fuel f) as [k ->].
  destruct (GetOperator_NUL_EndLine q Hend) as [HopE Htl].
  unfold ParseBody.
  erewrite (ParseValue_parenthesis libc _ (entry_state f st) g _ OP_EndLine);
    cycle 1.
  - exact Hf.
  - cbn [ParseFormula].
    eapply ParseBody_literal;
      [exact Hg|exact Hds|exact Hq|reflexivity|exact HopE|reflexivity].
  - reflexivity.
  - cbn [operator_eqb bind]. eexists. split; [reflexivity|].
    split; reflexivity.
Qed.

Lemma X23_unmatched_open_witness :
  digits (list_ascii_of_string "5")
  /\ exists st',
      evalform sample_clib (cstring "(5") initial_state = Done (0%float, st')
      /\ ErrorCode_m st' = ERROR_openparen
      /\ Variables_m st' = Variables_m initial_state.
Proof.
  assert (Hds : digits (list_ascii_of_string "5"))
    by (split; [discriminate | reflexivity]).
  split; [exact Hds|].
  exact (X23_unmatched_open sample_clib (cstring "(5") (cstring "5")
           (list_ascii_of_string "5") [NUL] initial_state
           eq_refl eq_refl Hds eq_refl eq_refl).
Defined.

(** X24.  Parentheses around a literal.  When a formula is an opening
    parenthesis, a digit run, a closing parenthesis and nothing else,
    [evalform] returns the value of the digits with no error, each of the
    two signs allowed (before the parenthesis and before the digits)
    negating it once; the parenthesis level is left at 1, the closing
    parenthesis not having been counted down. *)
Theorem X24_parenthesised_literal (libc : clib) (f g ds q q2 : list ascii)
        (st : state)
        (Hf : operand_start f = "("%char :: g)
        (Hg : operand_start g = ds ++ q)
        (Hds : digits ds)
        (Hq : literal_end q = true)
        (Hskip : SkipWhiteSpace q = ")"%char :: q2)
        (Hend : SkipWhiteSpace q2 = [NUL]) :
  exists st',
    evalform libc f st
    = Done (unary_sign f (unary_sign g (digits_double ds)), st')
    /\ ErrorCode_m st' = ERROR_none
    /\ ParenthesisLevel_m st' = 1
    /\ Variables_m st' = Variables_m st.
Proof.
  rewrite evalform_unfold. destruct (evalform_fuel f) as [k ->].
  unfold ParseBody.
  erewrite (ParseValue_parenthesis libc _ (entry_state f st) g _
              OP_CloseParenthesis); cycle 1.
  - exact Hf.
  - cbn [ParseFormula].
    eapply ParseBody_literal;
      [exact Hg|exact Hds|exact Hq|reflexivity| |reflexivity].
    rewrite Hskip. reflexivity.
  - reflexivity.
  - change (operator_eqb OP_CloseParenthesis OP_CloseParenthesis) with true.
    cbv iota. cbn [bind FormulaString_m set_FormulaString].
    rewrite Hskip. cbn [tl]. rewrite Hend.
    change (GetOperator (deref [NUL])) with (Some OP_EndLine). cbv iota.
    rewrite ApplyLoop_EndLine. cbn [bind].
    eexists. split; [reflexivity|]. repeat split.
Qed.

Lemma X24_parenthesised_literal_witness :
  digits (list_ascii_of_string "5")
  /\ exists st',
      evalform sample_clib (cstring "-( -5 )") initial_state
      = Done (5%float, st')
      /\ ErrorCode_m st' = ERROR_none
      /\ ParenthesisLevel_m st' = 1
      /\ Variables_m st' = Variables_m initial_state.
Proof.
  assert (Hds : digits (list_ascii_of_string "5"))
    by (split; [discriminate | reflexivity]).
  split; [exact Hds|].
  exact (X24_parenthesised_literal sample_clib (cstring "-( -5 )")
           (cstring " -5 )") (list_ascii_of_string "5") (cstring " )")
           [NUL] initial_state eq_refl eq_refl Hds eq_refl eq_refl eq_refl).
Defined.

(** ** Assignment to something that is no variable *)

Lemma ApplyLoop_variable_expected libc recurse n v st :
  ErrorCode_m st = ERROR_none ->
  ApplyLoop libc recurse (S n) OP_BeginLine OP_Assignment v NOTFOUND st
  = Done (DEFAULT_RETURN, OP_BeginLine,
          set_ErrorCode ERROR_variable_expected st).
Proof.
  intros He. cbn [ApplyLoop]. rewrite He.
  change (errorcode_eqb ERROR_none ERROR_none) with true. cbv iota.
  change (ApplyCriterion OP_Assignment OP_BeginLine) with true. cbv iota.
  reflexivity.
Qed.

(** X25.  The left-hand side of an assignment has to be a variable.  When
    the first operand of a formula is a digit run and the next thing is an
    equal sign, [evalform] returns [DEFAULT_RETURN] with the
    variable-expected code, without reading the right-hand side: the
    cursor is just past the equal sign and the table as it was. *)
Theorem X25_assignment_needs_variable (libc : clib) (f ds q q2 : list ascii)
        (st : state)
        (Hf : operand_start f = ds ++ q)
        (Hds : digits ds)
        (Hq : literal_end q = true)
        (Hskip : SkipWhiteSpace q = "="%char :: q2) :
  exists st',
    evalform libc f st = Done (0%float, st')
    /\ ErrorCode_m st' = ERROR_variable_expected
    /\ FormulaString_m st' = q2
    /\ Variables_m st' = Variables_m st.
Proof.
  rewrite evalform_unfold. destruct (evalform_fuel f) as [k ->].
  unfold ParseBody.
  rewrite (ParseValue_literal libc _ (entry_state f st) ds q Hf Hds Hq).
  cbn [bind FormulaString_m set_FormulaString]. rewrite Hskip.
  change (GetOperator (deref ("="%char :: q2))) with (Some OP_Assignment).
  cbv iota. rewrite ApplyLoop_variable_expected by reflexivity.
  cbn [bind]. eexists. repeat split.
Qed.

Lemma X25_assignment_needs_variable_witness :
  digits (list_ascii_of_string "5")
  /\ exists st',
      evalform sample_clib (cstring "5 = x") initial_state
      = Done (0%float, st')
      /\ ErrorCode_m st' = ERROR_variable_expected
      /\ FormulaString_m st' = cstring " x"
      /\ Variables_m st' = Variables_m initial_state.
Proof.
  assert (Hds : digits (list_ascii_of_string "5"))
    by (split; [discriminate | reflexivity]).
  split; [exact Hds|].
  exact (X25_assignment_needs_variable sample_clib (cstring "5 = x")
           (list_ascii_of_string "5") (cstring " = x") (cstring " x")
           initial_state eq_refl Hds eq_refl eq_refl).
Defined.
